(** * Vegetable recognition app: the API gateway's prediction and
      recommendation pipeline

    A shallow embedding of the Node.js gateway: [llm.js] (recommendation
    provider adapter, response parser, catalog), [middleware/errorHandler.js],
    [db.js], [handlers/predict.js], [handlers/history.js] and the routing of
    [index.js], followed by the properties of the pipeline.

    JavaScript strings are sequences of UTF-16 code units; exceptions are an
    explicit completion type; calls that leave the process (HTTP requests,
    SQL statements, console output) are events appended to a trace, and the
    answers of the outside world come from oracles of the deployment. *)

From Stdlib Require Import List String Ascii ZArith NArith Lia Bool.
From Stdlib Require Import Sorting.Sorted Sorting.Permutation.
Import ListNotations.

Set Warnings "-register-all".

(** ** JavaScript strings *)

Module JsStr.

(** A string is its sequence of UTF-16 code units. *)
Definition t := list N.

(** A literal whose characters are all ASCII. *)
Definition lit (s : string) : t := map N_of_ascii (list_ascii_of_string s).

(** JSON text is written with apostrophes where the text has double
    quotes; [dq] puts the double quotes (code unit 34) back. *)
Definition dq (s : string) : t :=
  map (fun c => if (c =? 39)%N then 34%N else c) (lit s).

Fixpoint eqb (a b : t) : bool :=
  match a, b with
  | [], [] => true
  | x :: a', y :: b' => (x =? y)%N && eqb a' b'
  | _, _ => false
  end.

(** [s.startsWith(pat)] *)
Fixpoint startsWith (s pat : t) : bool :=
  match pat, s with
  | [], _ => true
  | p :: pat', c :: s' => (c =? p)%N && startsWith s' pat'
  | _ :: _, [] => false
  end.

(** [s.includes(pat)] *)
Fixpoint includes (s pat : t) : bool :=
  startsWith s pat ||
  match s with
  | [] => false
  | _ :: s' => includes s' pat
  end.

(** [toLowerCase] on one code unit.  Only the ASCII letters are mapped.
    The conversion of the other code units is left out: none of them
    lower-cases to a letter of the markers searched for below ('n', 'a',
    'm', 'r', 'e', 's', 'p'; the only non-ASCII characters with an ASCII
    letter in their lower case are U+0130 and U+212A, giving 'i' and
    'k'), so every [includes] test of this file is unaffected. *)
Definition lowerUnit (c : N) : N :=
  if ((65 <=? c) && (c <=? 90))%N then (c + 32)%N else c.

Definition toLowerCase (s : t) : t := map lowerUnit s.

(** WhiteSpace and LineTerminator of ECMA-262, as stripped by [trim] and
    matched by [\s]. *)
Definition isWhiteSpace (c : N) : bool :=
  (((9 <=? c) && (c <=? 13)) || (c =? 32) || (c =? 160) || (c =? 5760)
   || ((8192 <=? c) && (c <=? 8202)) || (c =? 8232) || (c =? 8233)
   || (c =? 8239) || (c =? 8287) || (c =? 12288) || (c =? 65279))%N.

Fixpoint trimStart (s : t) : t :=
  match s with
  | c :: s' => if isWhiteSpace c then trimStart s' else s
  | [] => []
  end.

Definition trimEnd (s : t) : t := rev (trimStart (rev s)).

Definition trim (s : t) : t := trimEnd (trimStart s).

(** [s.replace(/pat\n?/g, '')] for a literal, non-empty [pat]: every
    occurrence of [pat], with one line feed after it when there is one, is
    removed, scanning from the left; [skip] counts the code units of the
    current occurrence still to drop. *)
Fixpoint removeAll (pat : t) (s : t) (skip : nat) : t :=
  match s with
  | [] => []
  | c :: s' =>
      match skip with
      | S k => removeAll pat s' k
      | O =>
          if startsWith s pat
          then removeAll pat s'
                 (List.length pat - 1
                  + (if startsWith (skipn (List.length pat) s) [10%N] then 1 else 0))
          else c :: removeAll pat s' 0
      end
  end.

(** The suffix of [s] from the first occurrence of [c], that occurrence
    left out. *)
Fixpoint afterFirst (c : N) (s : t) : option t :=
  match s with
  | [] => None
  | x :: s' => if (x =? c)%N then Some s' else afterFirst c s'
  end.

(** The prefix of [s] before its last occurrence of [c]. *)
Definition beforeLast (c : N) (s : t) : option t :=
  option_map (@rev N) (afterFirst c (rev s)).

(** [s.match(/\{[\s\S]*\}/)]: the span from the first opening brace to the
    last closing brace after it (the star is greedy and [[\s\S]] matches
    every code unit), or no match. *)
Definition matchBraces (s : t) : option t :=
  match afterFirst 123 s with
  | None => None
  | Some r =>
      match beforeLast 125 r with
      | None => None
      | Some body => Some (123%N :: body ++ [125%N])
      end
  end.

Fixpoint concat (l : list t) : t :=
  match l with
  | [] => []
  | s :: l' => s ++ concat l'
  end.

(** [l.join(sep)] *)
Fixpoint join (sep : t) (l : list t) : t :=
  match l with
  | [] => []
  | [s] => s
  | s :: l' => s ++ sep ++ join sep l'
  end.

End JsStr.

(** ** Numbers

    The Number values that [JSON.parse] can produce: the IEEE-754 double
    nearest to a decimal literal, kept exactly as sign, integer significand
    and binary exponent. *)

Module Number.

Local Open Scope Z_scope.

(** [Finite neg m e] is [(-1)^neg * m * 2^e] with [0 < m < 2^53] and
    [-1074 <= e <= 971]; [m >= 2^52] unless [e = -1074]. *)
Inductive t : Type :=
| Zero (neg : bool)
| Finite (neg : bool) (m : Z) (e : Z)
| Infinity (neg : bool).

(** Decimal digits of a non-negative integer, most significant first;
    [fuel] bounds the number of digits. *)
Fixpoint digitsFuel (fuel : nat) (n : Z) (acc : list Z) : list Z :=
  match fuel with
  | O => acc
  | S fuel' =>
      if n <? 10 then n :: acc
      else digitsFuel fuel' (n / 10) (n mod 10 :: acc)
  end.

Definition digits (n : Z) : list Z :=
  digitsFuel (S (Z.to_nat (Z.log2 n))) n [].

(** [b^x] for [x >= 0] and [1] below: the two factors [pow b x] and
    [pow b (- x)] put a power of either sign on the right side of a
    comparison or of a quotient. *)
Definition pow (b x : Z) : Z := b ^ Z.max 0 x.

Definition halfEven (a b : Z) : Z :=
  let q := a / b in
  let r := a mod b in
  if (b <? 2 * r) || ((b =? 2 * r) && Z.odd q) then q + 1 else q.

(** The double nearest to [d * 10^e10] (ties to even), for [d >= 0].
    Literals outside the range of the doubles are cut off before any
    power is computed: with [nd] the number of digits of [d], the value is
    at least [10^(nd-1+e10)] and below [10^(nd+e10)]. *)
Definition ofDecimal (neg : bool) (d : Z) (e10 : Z) : t :=
  if d =? 0 then Zero neg
  else
    let nd := Z.of_nat (List.length (digits d)) in
    if 309 <=? nd - 1 + e10 then Infinity neg
    else if nd + e10 <=? -324 then Zero neg
    else
      let num := d * pow 10 e10 in
      let den := pow 10 (- e10) in
      let L := Z.log2 num - Z.log2 den in
      let fl := if den * pow 2 L <=? num * pow 2 (- L) then L else L - 1 in
      let e := Z.max (fl - 52) (-1074) in
      let m := halfEven (num * pow 2 (- e)) (den * pow 2 e) in
      let m' := if m =? pow 2 53 then pow 2 52 else m in
      let e' := if m =? pow 2 53 then e + 1 else e in
      if m' =? 0 then Zero neg
      else if 971 <? e' then Infinity neg
      else Finite neg m' e'.

(** [ToBoolean]: a number is falsy when it is a zero. *)
Definition truthy (x : t) : bool :=
  match x with
  | Zero _ => false
  | _ => true
  end.

(** *** Number::toString, radix 10 *)

(** [m * 2^e < s * 10^p], [=] and [>], as a comparison of integers. *)
Definition cmpScaled (m e s p : Z) : comparison :=
  (m * pow 2 e * pow 10 (- p)) ?= (s * pow 10 p * pow 2 (- e)).

(** The interval of the reals that round to [m * 2^e] is
    [m*2^e - lo/4 * 2^e .. m*2^e + 2/4 * 2^e], in quarters of the unit in
    the last place; the lower half is [1] quarter below a power of two,
    [2] otherwise; the ends belong to it when [m] is even. *)
Definition roundsTo (m e s p : Z) : bool :=
  let lo := if (m =? pow 2 52) && (-1074 <? e) then 1 else 2 in
  let inside c := match c with Lt => true | Eq => Z.even m | Gt => false end in
  inside (cmpScaled (4 * m - lo) (e - 2) s p)
  && inside (CompOpp (cmpScaled (4 * m + 2) (e - 2) s p)).

(** [|m*2^e - s1*10^p| ?= |m*2^e - s2*10^p|] for [s1*10^p <= m*2^e <= s2*10^p]. *)
Definition cmpDistance (m e s1 s2 p : Z) : comparison :=
  cmpScaled (2 * m) e (s1 + s2) p.

(** The least [n] with [m * 2^e < 10^n]. *)
Definition decimalExponent (m e : Z) : Z :=
  let est := (Z.log2 m + e + 1) * 30103 / 100000 in
  let fits n := match cmpScaled m e 1 n with Lt => true | _ => false end in
  match find fits [est - 3; est - 2; est - 1; est; est + 1; est + 2; est + 3] with
  | Some n => n
  | None => est
  end.

(** The shortest decimal [s * 10^(n-k)], [k] digits in [s], that rounds
    to [m * 2^e]: the candidates with [k] digits are the two neighbours of
    the value; the first [k] with a candidate in the interval wins, and of
    two candidates the nearer one, the even one when they are as near. *)
Fixpoint shortest (fuel : nat) (k : Z) (m e n0 : Z) : Z * Z :=
  let p := n0 - k in
  let sLo := (m * pow 2 e * pow 10 (- p)) / (pow 10 p * pow 2 (- e)) in
  let sHi := match cmpScaled m e sLo p with Eq => sLo | _ => sLo + 1 end in
  let okLo := (pow 10 (k - 1) <=? sLo) && roundsTo m e sLo p in
  let okHi := roundsTo m e sHi p in
  let norm s := if s =? pow 10 k then (pow 10 (k - 1), n0 + 1) else (s, n0) in
  match fuel with
  | O => (sLo, n0)
  | S fuel' =>
      if okLo && okHi then
        match cmpDistance m e sLo sHi p with
        | Lt => norm sLo
        | Gt => norm sHi
        | Eq => if Z.even sLo then norm sLo else norm sHi
        end
      else if okLo then norm sLo
      else if okHi then norm sHi
      else shortest fuel' (k + 1) m e n0
  end.

Definition digitUnits (s : Z) : JsStr.t :=
  map (fun d => Z.to_N (48 + d)) (digits s).

Definition zeros (n : Z) : JsStr.t := repeat 48%N (Z.to_nat n).

Definition toStringPos (m e : Z) : JsStr.t :=
  let n0 := decimalExponent m e in
  let '(s, n) := shortest 17 1 m e n0 in
  let ds := digitUnits s in
  let k := Z.of_nat (List.length ds) in
  if (k <=? n) && (n <=? 21) then ds ++ zeros (n - k)
  else if (0 <? n) && (n <=? 21) then
    firstn (Z.to_nat n) ds ++ [46%N] ++ skipn (Z.to_nat n) ds
  else if (-6 <? n) && (n <=? 0) then
    [48%N; 46%N] ++ zeros (- n) ++ ds
  else
    let expo := [101%N] ++ (if 0 <=? n - 1 then [43%N] else [45%N])
                ++ digitUnits (Z.abs (n - 1)) in
    if k =? 1 then ds ++ expo
    else firstn 1 ds ++ [46%N] ++ skipn 1 ds ++ expo.

Definition toString (x : t) : JsStr.t :=
  match x with
  | Zero _ => JsStr.lit "0"
  | Infinity neg => (if neg then [45%N] else []) ++ JsStr.lit "Infinity"
  | Finite neg m e => (if neg then [45%N] else []) ++ toStringPos m e
  end.

End Number.

(** ** JSON values and [JSON.parse] *)

Module JSON.

(** The values [JSON.parse] builds.  An object keeps its members in source
    order, duplicates included; a lookup takes the last one, as the later
    member overwrites the earlier one when the object is built. *)
Inductive t : Type :=
| Null
| Bool (b : bool)
| Num (n : Number.t)
| Str (s : JsStr.t)
| Arr (items : list t)
| Obj (members : list (JsStr.t * t)).

Fixpoint lookup (key : JsStr.t) (members : list (JsStr.t * t)) : option t :=
  match members with
  | [] => None
  | (k, v) :: rest =>
      match lookup key rest with
      | Some v' => Some v'
      | None => if JsStr.eqb k key then Some v else None
      end
  end.

(** [v.key] for a key that no prototype defines: the own member of an
    object, [undefined] ([None]) on every other value that has members.
    Reading a member of [null] throws instead; the reads below are on the
    parsed text, which is an object (lemma [parse_matched_object]), and on a
    truthy [nutrition]. *)
Definition get (v : t) (key : JsStr.t) : option t :=
  match v with
  | Obj members => lookup key members
  | _ => None
  end.

(** [ToBoolean] *)
Definition truthy (v : t) : bool :=
  match v with
  | Null => false
  | Bool b => b
  | Num n => Number.truthy n
  | Str s => match s with [] => false | _ => true end
  | Arr _ | Obj _ => true
  end.


(** [String(v)]; inside [Array.prototype.join] a [null] element gives the
    empty string. *)
Fixpoint toString (v : t) : JsStr.t :=
  match v with
  | Null => JsStr.lit "null"
  | Bool true => JsStr.lit "true"
  | Bool false => JsStr.lit "false"
  | Num n => Number.toString n
  | Str s => s
  | Arr items =>
      JsStr.join (JsStr.lit ",")
        ((fix each (l : list t) : list JsStr.t :=
            match l with
            | [] => []
            | Null :: l' => [] :: each l'
            | x :: l' => toString x :: each l'
            end) items)
  | Obj _ => JsStr.lit "[object Object]"
  end.

(** *** The parser *)

Inductive Parse (A : Type) : Type :=
| Done (a : A) (rest : JsStr.t)
| Malformed
| Starved.
Arguments Done {A} a rest.
Arguments Malformed {A}.
Arguments Starved {A}.

Definition isWs (c : N) : bool :=
  ((c =? 9) || (c =? 10) || (c =? 13) || (c =? 32))%N.

Fixpoint skipWs (s : JsStr.t) : JsStr.t :=
  match s with
  | c :: s' => if isWs c then skipWs s' else s
  | [] => []
  end.

Definition isDigit (c : N) : bool := ((48 <=? c) && (c <=? 57))%N.

Definition hexVal (c : N) : option N :=
  if isDigit c then Some (c - 48)%N
  else if ((97 <=? c) && (c <=? 102))%N then Some (c - 87)%N
  else if ((65 <=? c) && (c <=? 70))%N then Some (c - 55)%N
  else None.

Definition hex4 (a b c d : N) : option N :=
  match hexVal a, hexVal b, hexVal c, hexVal d with
  | Some x, Some y, Some z, Some w => Some (((x * 16 + y) * 16 + z) * 16 + w)%N
  | _, _, _, _ => None
  end.

(** The code unit an escape letter stands for. *)
Definition escaped (e : N) : option N :=
  if (e =? 34)%N then Some 34%N
  else if (e =? 92)%N then Some 92%N
  else if (e =? 47)%N then Some 47%N
  else if (e =? 98)%N then Some 8%N
  else if (e =? 102)%N then Some 12%N
  else if (e =? 110)%N then Some 10%N
  else if (e =? 114)%N then Some 13%N
  else if (e =? 116)%N then Some 9%N
  else None.

(** The characters of a string after its opening quote, up to the closing
    quote; [acc] holds the code units read so far, last first. *)
Fixpoint lexString (s : JsStr.t) (acc : JsStr.t) : option (JsStr.t * JsStr.t) :=
  match s with
  | [] => None
  | c :: rest =>
      if (c =? 34)%N then Some (rev acc, rest)
      else if (c =? 92)%N then
        match rest with
        | [] => None
        | e :: rest' =>
            if (e =? 117)%N then
              match rest' with
              | h1 :: h2 :: h3 :: h4 :: rest'' =>
                  match hex4 h1 h2 h3 h4 with
                  | Some u => lexString rest'' (u :: acc)
                  | None => None
                  end
              | _ => None
              end
            else
              match escaped e with
              | Some u => lexString rest' (u :: acc)
              | None => None
              end
        end
      else if (c <? 32)%N then None
      else lexString rest (c :: acc)
  end.

Fixpoint spanDigits (s : JsStr.t) : JsStr.t * JsStr.t :=
  match s with
  | c :: s' =>
      if isDigit c then let (ds, r) := spanDigits s' in (c :: ds, r)
      else ([], s)
  | [] => ([], [])
  end.

Definition digitsValue (ds : JsStr.t) : Z :=
  fold_left (fun a d => (10 * a + (Z.of_N d - 48))%Z) ds 0%Z.

(** [s] without its first code unit when that is [c]. *)
Definition eat (c : N) (s : JsStr.t) : option JsStr.t :=
  match s with
  | x :: s' => if (x =? c)%N then Some s' else None
  | [] => None
  end.

(** One digit at least. *)
Definition someDigits (s : JsStr.t) : option (JsStr.t * JsStr.t) :=
  match spanDigits s with
  | ([], _) => None
  | (ds, r) => Some (ds, r)
  end.

(** The integer part: 0, or a non-zero digit and any digits. *)
Definition lexInt (s : JsStr.t) : option (JsStr.t * JsStr.t) :=
  match eat 48 s with
  | Some r => Some ([48%N], r)
  | None => someDigits s
  end.

(** The fraction, if any: a point and digits, one at least. *)
Definition lexFrac (s : JsStr.t) : option (JsStr.t * JsStr.t) :=
  match eat 46 s with
  | Some r => someDigits r
  | None => Some ([], s)
  end.

(** The exponent, if any: e or E, an optional sign and digits, one at
    least. *)
Definition lexExp (s : JsStr.t) : option (Z * JsStr.t) :=
  match (match eat 101 s with Some r => Some r | None => eat 69 s end) with
  | None => Some (0%Z, s)
  | Some r =>
      let (eneg, r1) := match eat 45 r with
                        | Some r' => (true, r')
                        | None =>
                            match eat 43 r with
                            | Some r' => (false, r')
                            | None => (false, r)
                            end
                        end in
      match someDigits r1 with
      | None => None
      | Some (es, r2) =>
          Some ((if eneg then - digitsValue es else digitsValue es)%Z, r2)
      end
  end.

(** A number literal: an optional minus sign, the integer part, the
    fraction, the exponent. *)
Definition lexNumber (s : JsStr.t) : option (Number.t * JsStr.t) :=
  let (neg, s1) := match eat 45 s with
                   | Some r => (true, r)
                   | None => (false, s)
                   end in
  match lexInt s1 with
  | None => None
  | Some (ints, s2) =>
      match lexFrac s2 with
      | None => None
      | Some (fracs, s3) =>
          match lexExp s3 with
          | None => None
          | Some (e, s4) =>
              Some (Number.ofDecimal neg (digitsValue (ints ++ fracs))
                      (e - Z.of_nat (List.length fracs))%Z, s4)
          end
      end
  end.

(** [s] without the word [word] at its head. *)
Definition eatWord (word : string) (s : JsStr.t) : option JsStr.t :=
  if JsStr.startsWith s (JsStr.lit word)
  then Some (skipn (String.length word) s)
  else None.

(** Recursive descent on the code units.  Every call consumes a code unit
    within two steps, so twice the length of the text bounds the depth:
    [Starved] is the result of no run started by [parse] (lemma
    [parse_never_starved] below). *)
Fixpoint parseValue (fuel : nat) (s : JsStr.t) : Parse t :=
  match fuel with
  | O => Starved
  | S fuel' =>
      match skipWs s with
      | [] => Malformed
      | c :: r =>
          if (c =? 123)%N then
            match eat 125 (skipWs r) with
            | Some r' => Done (Obj []) r'
            | None => parseMembers fuel' r []
            end
          else if (c =? 91)%N then
            match eat 93 (skipWs r) with
            | Some r' => Done (Arr []) r'
            | None => parseElements fuel' r []
            end
          else if (c =? 34)%N then
            match lexString r [] with
            | Some (str, r') => Done (Str str) r'
            | None => Malformed
            end
          else
            match eatWord "true" (c :: r), eatWord "false" (c :: r),
                  eatWord "null" (c :: r) with
            | Some r', _, _ => Done (Bool true) r'
            | None, Some r', _ => Done (Bool false) r'
            | None, None, Some r' => Done Null r'
            | None, None, None =>
                match lexNumber (c :: r) with
                | Some (n, r') => Done (Num n) r'
                | None => Malformed
                end
            end
      end
  end

(** The members of an object after its opening brace, one at least; [acc]
    holds the members read so far, last first. *)
with parseMembers (fuel : nat) (s : JsStr.t) (acc : list (JsStr.t * t))
  : Parse t :=
  match fuel with
  | O => Starved
  | S fuel' =>
      match eat 34 (skipWs s) with
      | None => Malformed
      | Some r =>
          match lexString r [] with
          | None => Malformed
          | Some (key, r1) =>
              match eat 58 (skipWs r1) with
              | None => Malformed
              | Some r2 =>
                  match parseValue fuel' r2 with
                  | Done v r3 =>
                      match eat 44 (skipWs r3), eat 125 (skipWs r3) with
                      | Some r4, _ => parseMembers fuel' r4 ((key, v) :: acc)
                      | None, Some r4 => Done (Obj (rev ((key, v) :: acc))) r4
                      | None, None => Malformed
                      end
                  | Malformed => Malformed
                  | Starved => Starved
                  end
              end
          end
      end
  end

(** The elements of an array after its opening bracket, one at least. *)
with parseElements (fuel : nat) (s : JsStr.t) (acc : list t) : Parse t :=
  match fuel with
  | O => Starved
  | S fuel' =>
      match parseValue fuel' s with
      | Done v r =>
          match eat 44 (skipWs r), eat 93 (skipWs r) with
          | Some r', _ => parseElements fuel' r' (v :: acc)
          | None, Some r' => Done (Arr (rev (v :: acc))) r'
          | None, None => Malformed
          end
      | Malformed => Malformed
      | Starved => Starved
      end
  end.

(** [JSON.parse(s)]: one value, white space around it and nothing else;
    [None] stands for the [SyntaxError] thrown. *)
Definition parse (s : JsStr.t) : option t :=
  match parseValue (2 * List.length s + 2) s with
  | Done v rest =>
      match skipWs rest with
      | [] => Some v
      | _ => None
      end
  | _ => None
  end.

End JSON.

(** ** Exceptions, events and the effect monad *)

(** A thrown [Error]: its [name], its [code] when it has one, its [message],
    and whether it is an instance of [multer.MulterError]. *)
Record JsError : Type := mkError {
  err_name : JsStr.t;
  err_code : option JsStr.t;
  err_message : JsStr.t;
  err_isMulter : bool
}.

(** The errors the engine itself throws.  Their messages are the engine's
    own wording; nothing below depends on it. *)
Definition TypeError (msg : string) : JsError :=
  mkError (JsStr.lit "TypeError") None (JsStr.lit msg) false.

Definition SyntaxError (msg : string) : JsError :=
  mkError (JsStr.lit "SyntaxError") None (JsStr.lit msg) false.

Inductive Completion (A : Type) : Type :=
| Normal (a : A)
| Throw (e : JsError).
Arguments Normal {A} a.
Arguments Throw {A} e.

(** A recommendation as the gateway hands it on.  [recipes] and [nutrition]
    hold whatever values the generated JSON had there. *)
Record Recommendation : Type := mkRecommendation {
  recipes : list JSON.t;
  nutrition : JSON.t;
  storageTips : JsStr.t
}.

(** The classification backend's answer, [mlResponse.data]. *)
Record Prediction : Type := mkPrediction {
  predicted_class : JsStr.t;
  confidence : Number.t;
  top_3 : list (JsStr.t * Number.t)
}.

(** A row of the [predictions] table.  The recommendation is kept as it was
    given (what the JSONB column does to the keys of its objects is left
    out; no response of the gateway reads it back except the history
    list). *)
Record Row : Type := mkRow {
  row_id : JsStr.t;
  image_filename : JsStr.t;
  image_path : JsStr.t;
  row_predicted_class : JsStr.t;
  row_confidence : Number.t;
  top_3_predictions : list (JsStr.t * Number.t);
  llm_recommendation : Recommendation;
  created_at : N
}.

Inductive Target : Type := MlService | Groq | Ollama.

Inductive SqlStmt : Type :=
| SqlInsert
| SqlSelect (limit offset : Z)
| SqlDelete (id : JsStr.t).

(** What the process does to the outside, in order. *)
Inductive Event : Type :=
| HttpPost (target : Target) (payload : JsStr.t)
| CatalogLookup (label : JsStr.t)
| ConsoleError (args : list JsStr.t)
| Query (stmt : SqlStmt).

(** The mutable world of a request: the table, the trace of events (latest
    first) and the number of identifiers and timestamps drawn so far. *)
Record World : Type := mkWorld {
  rows : list Row;
  trace : list Event;
  drawn : nat
}.

Definition Js (A : Type) : Type := World -> Completion A * World.

Definition ret {A} (a : A) : Js A := fun w => (Normal a, w).

Definition throw {A} (e : JsError) : Js A := fun w => (Throw e, w).

Definition bind {A B} (m : Js A) (k : A -> Js B) : Js B :=
  fun w =>
    match m w with
    | (Normal a, w') => k a w'
    | (Throw e, w') => (Throw e, w')
    end.

(** [try { m } catch (e) { handler e }] *)
Definition tryCatch {A} (m : Js A) (handler : JsError -> Js A) : Js A :=
  fun w =>
    match m w with
    | (Normal a, w') => (Normal a, w')
    | (Throw e, w') => handler e w'
    end.

Definition lift {A} (c : Completion A) : Js A := fun w => (c, w).

Definition emit (ev : Event) : Js unit :=
  fun w => (Normal tt, mkWorld (rows w) (ev :: trace w) (drawn w)).

Declare Scope js_scope.
Delimit Scope js_scope with js.
Notation "x <- m ;; k" := (bind m (fun x => k))
  (at level 61, m at next level, right associativity) : js_scope.
Notation "m ;; k" := (bind m (fun _ => k))
  (at level 61, right associativity) : js_scope.

(** ** The deployment: configuration and the outside world *)

(** [process.env]; an unset variable is [None].  In a condition an unset
    variable and an empty one are both falsy. *)
Record ProcessEnv : Type := mkEnv {
  LLM_PROVIDER_var : option JsStr.t;
  GROQ_API_KEY : option JsStr.t;
  OLLAMA_URL : option JsStr.t;
  SKIP_LLM : option JsStr.t;
  NODE_ENV : option JsStr.t;
  DATABASE_URL : option JsStr.t;
  DB_HOST : option JsStr.t
}.

Definition isSet (v : option JsStr.t) : bool :=
  match v with
  | Some (_ :: _) => true
  | _ => false
  end.

Definition envIs (v : option JsStr.t) (s : string) : bool :=
  match v with
  | Some x => JsStr.eqb x (JsStr.lit s)
  | None => false
  end.

(** The file of a multipart upload, [req.file]. *)
Record File : Type := mkFile {
  originalname : JsStr.t;
  mimetype : JsStr.t;
  size : N
}.

(** How the request to the classification backend ends. *)
Inductive MlOutcome : Type :=
| MlAnswered (data : Prediction)
| MlRejected (e : JsError).

(** How the request to the generation backend ends: the promise rejects
    (deadline exceeded, connection refused, a status outside 2xx, any other
    transport error); or it resolves and reading the text out of the response
    envelope throws; or the field read holds no string; or it holds the raw
    text. *)
Inductive GenOutcome : Type :=
| GenRejected (e : JsError)
| GenNoEnvelope (e : JsError)
| GenNotText
| GenText (raw : JsStr.t).

Record Deployment : Type := mkDeployment {
  env : ProcessEnv;
  classify : File -> MlOutcome;
  generate : Target -> JsStr.t -> GenOutcome;
  sqlFault : SqlStmt -> option JsError;
  uuidAt : nat -> JsStr.t;
  clockAt : nat -> N
}.

(** ** [llm.js]: the recommendation provider adapter *)

Module Llm.

Local Open Scope string_scope.
Local Open Scope list_scope.
Local Open Scope js_scope.

(** [process.env.LLM_PROVIDER || 'groq'] *)
Definition LLM_PROVIDER (e : ProcessEnv) : JsStr.t :=
  if isSet (LLM_PROVIDER_var e)
  then match LLM_PROVIDER_var e with Some p => p | None => [] end
  else JsStr.lit "groq".

Definition strs (l : list string) : list JSON.t :=
  map (fun s => JSON.Str (JsStr.lit s)) l.

Definition structured (calories : string) (vitamins benefits : list string)
  : JSON.t :=
  JSON.Obj [ (JsStr.lit "calories", JSON.Str (JsStr.lit calories));
             (JsStr.lit "vitamins", JSON.Arr (strs vitamins));
             (JsStr.lit "benefits", JSON.Arr (strs benefits)) ].

Definition entry (rs : list string) (calories : string)
  (vitamins benefits : list string) (tips : string) : Recommendation :=
  mkRecommendation (strs rs) (structured calories vitamins benefits)
    (JsStr.lit tips).

(** Fallback when LLM unavailable *)
Definition getFallbackRecommendation : Recommendation :=
  mkRecommendation
    (strs ["Rekomendasi tidak tersedia saat ini"])
    (JSON.Obj [ (JsStr.lit "info",
                 JSON.Str (JsStr.lit "Informasi nutrisi tidak tersedia")) ])
    (JsStr.lit "Simpan di tempat sejuk dan kering").

(** The catalog, [defaults]. *)
Definition defaults : list (string * Recommendation) :=
  [ ("Bean",
     entry ["Tumis Buncis Bawang Putih"; "Sayur Asem Buncis"; "Oseng Buncis Tempe"]
       "31 kkal/100g" ["Vitamin C"; "Vitamin K"; "Vitamin A"]
       ["Kaya serat"; "Baik untuk pencernaan"; "Menjaga kesehatan tulang"]
       "Simpan di kulkas dalam kantong plastik berlubang, tahan 5-7 hari");
    ("Carrot",
     entry ["Sup Wortel Ayam"; "Tumis Wortel Telur"; "Jus Wortel Jeruk"]
       "41 kkal/100g" ["Vitamin A"; "Beta Karoten"; "Vitamin K"]
       ["Baik untuk kesehatan mata"; "Kaya antioksidan"; "Meningkatkan imunitas"]
       "Simpan di kulkas tanpa daun, tahan 2-3 minggu");
    ("Broccoli",
     entry ["Tumis Brokoli Bawang Putih"; "Sup Krim Brokoli"; "Brokoli Saus Tiram"]
       "34 kkal/100g" ["Vitamin C"; "Vitamin K"; "Folat"]
       ["Kaya antioksidan"; "Mencegah kanker"; "Baik untuk jantung"]
       "Simpan di kulkas dalam kantong plastik, tahan 3-5 hari");
    ("Cabbage",
     entry ["Tumis Kol Telur"; "Sayur Sop Kol"; "Asinan Kol"]
       "25 kkal/100g" ["Vitamin C"; "Vitamin K"; "Vitamin B6"]
       ["Rendah kalori"; "Baik untuk pencernaan"; "Kaya serat"]
       "Simpan di kulkas utuh, tahan 1-2 minggu");
    ("Capsicum",
     entry ["Tumis Paprika Warna-warni"; "Paprika Isi Daging"; "Salad Paprika Segar"]
       "31 kkal/100g" ["Vitamin C"; "Vitamin A"; "Vitamin B6"]
       ["Kaya antioksidan"; "Meningkatkan imunitas"; "Baik untuk kulit"]
       "Simpan di kulkas dalam kantong plastik, tahan 1-2 minggu");
    ("Cauliflower",
     entry ["Tumis Kembang Kol"; "Sup Kembang Kol"; "Kembang Kol Goreng Tepung"]
       "25 kkal/100g" ["Vitamin C"; "Vitamin K"; "Folat"]
       ["Rendah kalori"; "Kaya serat"; "Baik untuk otak"]
       "Simpan di kulkas dalam kantong plastik, tahan 4-7 hari");
    ("Cucumber",
     entry ["Acar Timun"; "Salad Timun Segar"; "Timun Serut Sambal"]
       "15 kkal/100g" ["Vitamin K"; "Vitamin C"; "Kalium"]
       ["Menghidrasi tubuh"; "Rendah kalori"; "Menyegarkan"]
       "Simpan di kulkas, tahan 1 minggu");
    ("Tomato",
     entry ["Sambal Tomat"; "Sup Tomat"; "Tumis Tomat Telur"]
       "18 kkal/100g" ["Vitamin C"; "Vitamin A"; "Likopen"]
       ["Kaya antioksidan"; "Baik untuk jantung"; "Menjaga kesehatan kulit"]
       "Simpan di suhu ruang jika belum matang, di kulkas jika sudah matang");
    ("Potato",
     entry ["Kentang Goreng"; "Perkedel Kentang"; "Sup Kentang"]
       "77 kkal/100g" ["Vitamin C"; "Vitamin B6"; "Kalium"]
       ["Sumber karbohidrat"; "Mengenyangkan"; "Kaya kalium"]
       "Simpan di tempat gelap dan sejuk, hindari kulkas");
    ("Pumpkin",
     entry ["Kolak Labu"; "Sup Labu Kuning"; "Tumis Labu"]
       "26 kkal/100g" ["Vitamin A"; "Vitamin C"; "Beta Karoten"]
       ["Baik untuk mata"; "Kaya serat"; "Meningkatkan imunitas"]
       "Simpan utuh di tempat sejuk, tahan berminggu-minggu");
    ("Radish",
     entry ["Acar Lobak"; "Sup Lobak"; "Tumis Lobak"]
       "16 kkal/100g" ["Vitamin C"; "Folat"; "Kalium"]
       ["Rendah kalori"; "Baik untuk pencernaan"; "Detoksifikasi"]
       "Simpan di kulkas tanpa daun, tahan 1-2 minggu");
    ("Brinjal",
     entry ["Terong Balado"; "Terong Goreng"; "Tumis Terong"]
       "25 kkal/100g" ["Vitamin B1"; "Vitamin B6"; "Kalium"]
       ["Rendah kalori"; "Kaya serat"; "Baik untuk jantung"]
       "Simpan di kulkas, tahan 4-5 hari");
    ("Bitter_Gourd",
     entry ["Tumis Pare"; "Pare Isi"; "Keripik Pare"]
       "17 kkal/100g" ["Vitamin C"; "Vitamin A"; "Folat"]
       ["Menurunkan gula darah"; "Kaya antioksidan"; "Baik untuk diabetes"]
       "Simpan di kulkas dalam kantong plastik, tahan 4-5 hari");
    ("Bottle_Gourd",
     entry ["Sayur Labu Air"; "Tumis Labu Air"; "Sup Labu Air"]
       "14 kkal/100g" ["Vitamin C"; "Vitamin B"; "Kalsium"]
       ["Rendah kalori"; "Menghidrasi"; "Baik untuk pencernaan"]
       "Simpan di kulkas, tahan 1-2 minggu");
    ("Papaya",
     entry ["Tumis Pepaya Muda"; "Sup Pepaya"; "Salad Pepaya"]
       "43 kkal/100g" ["Vitamin C"; "Vitamin A"; "Folat"]
       ["Baik untuk pencernaan"; "Kaya enzim papain"; "Meningkatkan imunitas"]
       "Simpan di suhu ruang sampai matang, lalu di kulkas") ].

(** [table[key]] on an object literal used as a map.  The members that
    every object inherits ([constructor], [toString], ...) are not looked
    at: the labels come from the classification backend, whose classes are
    the fifteen vegetables and the unknown-subject sentinel. *)
Fixpoint member {A} (key : JsStr.t) (table : list (string * A)) : option A :=
  match table with
  | [] => None
  | (k, v) :: rest => if JsStr.eqb (JsStr.lit k) key then Some v else member key rest
  end.

(** [defaults[vegetableName]] *)
Definition catalogEntry (vegetableName : JsStr.t) : option Recommendation :=
  member vegetableName defaults.

(** [defaults[vegetableName] || getFallbackRecommendation()] *)
Definition defaultFor (vegetableName : JsStr.t) : Recommendation :=
  match catalogEntry vegetableName with
  | Some r => r
  | None => getFallbackRecommendation
  end.

(** Default recommendations for all vegetables *)
Definition getDefaultRecommendation (vegetableName : JsStr.t) : Js Recommendation :=
  emit (CatalogLookup vegetableName) ;;
  ret (defaultFor vegetableName).

(** Translate vegetable name to Indonesian *)
Definition translations : list (string * JsStr.t) :=
  map (fun p => (fst p, JsStr.lit (snd p)))
    [ ("Bean", "Buncis"); ("Carrot", "Wortel"); ("Broccoli", "Brokoli");
      ("Cabbage", "Kol"); ("Capsicum", "Paprika");
      ("Cauliflower", "Kembang Kol"); ("Cucumber", "Timun");
      ("Tomato", "Tomat"); ("Potato", "Kentang"); ("Pumpkin", "Labu Kuning");
      ("Radish", "Lobak"); ("Brinjal", "Terong"); ("Bitter_Gourd", "Pare");
      ("Bottle_Gourd", "Labu Air"); ("Papaya", "Pepaya") ].

Definition translateToIndonesian (englishName : JsStr.t) : JsStr.t :=
  match member englishName translations with
  | Some s => s
  | None => englishName
  end.

(** Build prompt for LLM.  The template is written here with apostrophes
    for its double quotes. *)
Definition buildPrompt (vegetableName : JsStr.t) : JsStr.t :=
  let indonesianName := translateToIndonesian vegetableName in
  JsStr.concat
    [ JsStr.dq "Berikan rekomendasi untuk sayuran '"; indonesianName;
      JsStr.dq "' dalam format JSON berikut:

{
  'recipes': ['nama resep 1', 'nama resep 2', 'nama resep 3'],
  'nutrition': {
    'calories': 'XX kkal/100g',
    'vitamins': ['Vitamin A', 'Vitamin C'],
    'benefits': ['manfaat kesehatan 1', 'manfaat kesehatan 2']
  },
  'storageTips': 'tips penyimpanan sayuran ini'
}

PENTING:
- Berikan 3 resep masakan Indonesia yang populer menggunakan "; indonesianName;
      JsStr.lit "
- Semua teks HARUS dalam Bahasa Indonesia
- Gunakan nama sayuran dalam Bahasa Indonesia ("; indonesianName;
      JsStr.lit "), JANGAN gunakan nama Inggris
- Hanya berikan JSON, tanpa markdown code block atau penjelasan" ].

(** [items.some(check)]: the elements in order, up to the first one for
    which [check] is true or throws. *)
Fixpoint some (check : JSON.t -> Completion bool) (items : list JSON.t)
  : Completion bool :=
  match items with
  | [] => Normal false
  | r :: rest =>
      match check r with
      | Normal true => Normal true
      | Normal false => some check rest
      | Throw e => Throw e
      end
  end.

(** [r.toLowerCase().includes('resep 1') || r.toLowerCase().includes('nama resep')]:
    only a string has [toLowerCase]. *)
Definition templatedRecipe (r : JSON.t) : Completion bool :=
  match r with
  | JSON.Str s =>
      Normal (JsStr.includes (JsStr.toLowerCase s) (JsStr.lit "resep 1")
              || JsStr.includes (JsStr.toLowerCase s) (JsStr.lit "nama resep"))
  | _ => Throw (TypeError "r.toLowerCase is not a function")
  end.

(** [Array.isArray(parsed.recipes) && parsed.recipes.some(...)] *)
Definition templatedRecipes (recipesField : JSON.t) : Completion bool :=
  match recipesField with
  | JSON.Arr items => some templatedRecipe items
  | _ => Normal false
  end.

(** [parsed.nutrition.calories && parsed.nutrition.calories.includes('XX')]:
    a string has the substring test, an array the membership test, no other
    truthy value has [includes]. *)
Definition templatedCalories (nutritionField : JSON.t) : Completion bool :=
  match JSON.get nutritionField (JsStr.lit "calories") with
  | None => Normal false
  | Some c =>
      if JSON.truthy c then
        match c with
        | JSON.Str s => Normal (JsStr.includes s (JsStr.lit "XX"))
        | JSON.Arr items =>
            Normal (existsb (fun x => match x with
                                      | JSON.Str s => JsStr.eqb s (JsStr.lit "XX")
                                      | _ => false
                                      end) items)
        | _ => Throw (TypeError "parsed.nutrition.calories.includes is not a function")
        end
      else Normal false
  end.

(** Check for placeholder templates *)
Definition isPlaceholder (recipesField nutritionField : JSON.t) : Completion bool :=
  match templatedRecipes recipesField with
  | Normal true => Normal true
  | Normal false => templatedCalories nutritionField
  | Throw e => Throw e
  end.

(** [Array.isArray(parsed.recipes) ? parsed.recipes : [parsed.recipes]] *)
Definition asList (recipesField : JSON.t) : list JSON.t :=
  match recipesField with
  | JSON.Arr items => items
  | v => [v]
  end.

(** Remove markdown code blocks if present *)
Definition cleanResponse (response : JsStr.t) : JsStr.t :=
  JsStr.trim
    (JsStr.removeAll (JsStr.lit "```")
       (JsStr.removeAll (JsStr.lit "```json") response 0) 0).

(** The body of the [try] block of [parseRecommendation]: [Some r] is a
    [return r] inside it, [None] is falling out of it. *)
Definition parseAttempt (response : option JsStr.t) (vegetableName : JsStr.t)
  : Js (option Recommendation) :=
  match response with
  | None => throw (TypeError "response.replace is not a function")
  | Some text =>
      match JsStr.matchBraces (cleanResponse text) with
      | None => ret None
      | Some jsonMatch =>
          match JSON.parse jsonMatch with
          | None => throw (SyntaxError "Unexpected token in JSON")
          | Some parsed =>
              match JSON.get parsed (JsStr.lit "recipes"),
                    JSON.get parsed (JsStr.lit "nutrition"),
                    JSON.get parsed (JsStr.lit "storageTips") with
              | Some rs, Some nu, Some tips =>
                  if JSON.truthy rs && JSON.truthy nu && JSON.truthy tips then
                    placeholder <- lift (isPlaceholder rs nu) ;;
                    if placeholder : bool then
                      r <- getDefaultRecommendation vegetableName ;;
                      ret (Some r)
                    else
                      ret (Some (mkRecommendation (asList rs) nu (JSON.toString tips)))
                  else ret None
              | _, _, _ => ret None
              end
          end
      end
  end.

(** Parse LLM response to structured format *)
Definition parseRecommendation (response : option JsStr.t) (vegetableName : JsStr.t)
  : Js Recommendation :=
  returned <- tryCatch (parseAttempt response vegetableName)
                (fun e =>
                   emit (ConsoleError [JsStr.lit "Failed to parse LLM response:";
                                       err_message e]) ;;
                   ret None) ;;
  match returned with
  | Some r => ret r
  | None => getDefaultRecommendation vegetableName
  end.

(** What the two providers share: the prompt is built and posted, and the
    text read out of the response envelope ([choices[0].message.content] of
    the hosted API, [response] of the local one) goes to the parser. *)
Definition request (d : Deployment) (target : Target) (vegetableName : JsStr.t)
  : Js Recommendation :=
  let prompt := buildPrompt vegetableName in
  emit (HttpPost target prompt) ;;
  match generate d target prompt with
  | GenRejected e => throw e
  | GenNoEnvelope e => throw e
  | GenNotText => parseRecommendation None vegetableName
  | GenText raw => parseRecommendation (Some raw) vegetableName
  end.

(** Get recommendation from Groq API *)
Definition getGroqRecommendation (d : Deployment) (vegetableName : JsStr.t)
  : Js Recommendation :=
  request d Groq vegetableName.

(** Get recommendation from Ollama (local) *)
Definition getOllamaRecommendation (d : Deployment) (vegetableName : JsStr.t)
  : Js Recommendation :=
  request d Ollama vegetableName.

(** Get recommendation from LLM *)
Definition getLLMRecommendation (d : Deployment) (vegetableName : JsStr.t)
  : Js Recommendation :=
  if JsStr.eqb vegetableName (JsStr.lit "Unknown vegetable") then
    ret getFallbackRecommendation
  else
    tryCatch
      (if JsStr.eqb (LLM_PROVIDER (env d)) (JsStr.lit "groq")
          && isSet (GROQ_API_KEY (env d))
       then getGroqRecommendation d vegetableName
       else getOllamaRecommendation d vegetableName)
      (fun error =>
         emit (ConsoleError [JsStr.lit "LLM error, using fallback:";
                             err_message error]) ;;
         getDefaultRecommendation vegetableName).

End Llm.

(** ** HTTP responses and the middleware protocol *)

(** An item of the history list, in the camelCase of the frontend. *)
Record HistoryItem : Type := mkHistoryItem {
  item_id : JsStr.t;
  imageFilename : JsStr.t;
  imagePath : JsStr.t;
  predictedClass : JsStr.t;
  item_confidence : Number.t;
  top3Predictions : list (JsStr.t * Number.t);
  llmRecommendation : Recommendation;
  createdAt : N
}.

Inductive Body : Type :=
| ErrorBody (error : JsStr.t)
| PredictionBody (id : JsStr.t) (prediction : Prediction)
    (recommendation : Recommendation) (created : N)
| HistoryBody (items : list HistoryItem)
| DeletedBody (id : JsStr.t)
| HealthBody
| FinalHandlerPage.

Record Response : Type := mkResponse {
  status : N;
  body : Body
}.

(** [res.status(code).json({ error: message })] *)
Definition errorJson (code : N) (message : JsStr.t) : Response :=
  mkResponse code (ErrorBody message).

(** [res.json(payload)] *)
Definition okJson (payload : Body) : Response := mkResponse 200 payload.

(** A middleware ends by sending the response or by [next(err)]. *)
Inductive Handled : Type :=
| Responded (r : Response)
| Next (err : JsError).

(** [try { m } catch (error) { next(error) }] *)
Definition orNext (m : Js Handled) : World -> Handled * World :=
  fun w =>
    match m w with
    | (Normal h, w') => (h, w')
    | (Throw e, w') => (Next e, w')
    end.

(** ** [middleware/errorHandler.js] *)

Module ErrorHandler.

Definition codeIs (err : JsError) (s : string) : bool :=
  match err_code err with
  | Some c => JsStr.eqb c (JsStr.lit s)
  | None => false
  end.

(** [err.code && err.code.startsWith('23')] *)
Definition codeStartsWith (err : JsError) (s : string) : bool :=
  match err_code err with
  | Some (x :: c) => JsStr.startsWith (x :: c) (JsStr.lit s)
  | _ => false
  end.

(** The response of the global error handler; it answers every error and
    never calls [next]. *)
Definition respond (e : ProcessEnv) (err : JsError) : Response :=
  if JsStr.eqb (err_name err) (JsStr.lit "ValidationError") then
    errorJson 400 (err_message err)
  else if codeIs err "ECONNREFUSED" then
    errorJson 502 (JsStr.lit "Service unavailable")
  else if codeIs err "ECONNABORTED"
          || JsStr.includes (err_message err) (JsStr.lit "timeout") then
    errorJson 504 (JsStr.lit "Request timeout")
  else if codeStartsWith err "23" then
    errorJson 400 (JsStr.lit "Database constraint violation")
  else if codeIs err "42P01" then
    errorJson 500 (JsStr.lit "Database table not found")
  else
    errorJson 500 (if envIs (NODE_ENV e) "production"
                   then JsStr.lit "Internal server error"
                   else err_message err).

(** Error handler middleware *)
Definition errorHandler (e : ProcessEnv) (err : JsError) : World -> Handled * World :=
  fun w =>
    match emit (ConsoleError [JsStr.lit "Error:"; err_message err]) w with
    | (_, w') => (Responded (respond e err), w')
    end.

End ErrorHandler.

(** ** [db.js]: the history store *)

Module Db.

Local Open Scope js_scope.

(** [DB_ENABLED]: the pool exists when [DATABASE_URL] or [DB_HOST] is set. *)
Definition pool (e : ProcessEnv) : bool :=
  isSet (DATABASE_URL e) || isSet (DB_HOST e).

(** The next identifier and timestamp of the outside world
    ([randomUUID()], [uuidv4()], [gen_random_uuid()]; [new Date()],
    [CURRENT_TIMESTAMP]). *)
Definition draw : Js nat :=
  fun w => (Normal (drawn w), mkWorld (rows w) (trace w) (S (drawn w))).

Definition setRows (rs : list Row) : Js unit :=
  fun w => (Normal tt, mkWorld rs (trace w) (drawn w)).

Definition getRows : Js (list Row) := fun w => (Normal (rows w), w).

(** [pool.query(stmt)]: the statement leaves the process, and the database
    may fail it. *)
Definition query (d : Deployment) (stmt : SqlStmt) : Js unit :=
  emit (Query stmt) ;;
  match sqlFault d stmt with
  | Some e => throw e
  | None => ret tt
  end.

(** The fields of a prediction to save. *)
Record NewPrediction : Type := mkNewPrediction {
  new_imageFilename : JsStr.t;
  new_imagePath : JsStr.t;
  new_predictedClass : JsStr.t;
  new_confidence : Number.t;
  new_top3Predictions : list (JsStr.t * Number.t);
  new_llmRecommendation : Recommendation
}.

Definition asRow (id : JsStr.t) (data : NewPrediction) (at_ : N) : Row :=
  mkRow id (new_imageFilename data) (new_imagePath data)
    (new_predictedClass data) (new_confidence data)
    (new_top3Predictions data) (new_llmRecommendation data) at_.

(** Save prediction to database.  Without a pool the record returned is
    made up on the spot and nothing is stored. *)
Definition savePrediction (d : Deployment) (data : NewPrediction) : Js Row :=
  if negb (pool (env d)) then
    n <- draw ;;
    ret (asRow (uuidAt d n) data (clockAt d n))
  else
    query d SqlInsert ;;
    n <- draw ;;
    let row := asRow (uuidAt d n) data (clockAt d n) in
    table <- getRows ;;
    setRows (table ++ [row]) ;;
    ret row.

(** [ORDER BY created_at DESC]: insertion into a list kept in descending
    order of [created_at]; the database fixes no order among rows of equal
    [created_at]. *)
Fixpoint insertDesc (r : Row) (sorted : list Row) : list Row :=
  match sorted with
  | [] => [r]
  | x :: rest =>
      if (created_at x <? created_at r)%N then r :: sorted
      else x :: insertDesc r rest
  end.

Definition orderByCreatedDesc (table : list Row) : list Row :=
  fold_right insertDesc [] table.

(** Get all predictions.  The database refuses a negative [LIMIT] or
    [OFFSET]. *)
Definition getPredictions (d : Deployment) (limit offset : Z) : Js (list Row) :=
  if negb (pool (env d)) then ret []
  else
    query d (SqlSelect limit offset) ;;
    if (limit <? 0)%Z then
      throw (mkError (JsStr.lit "error") (Some (JsStr.lit "2201W"))
               (JsStr.lit "LIMIT must not be negative") false)
    else if (offset <? 0)%Z then
      throw (mkError (JsStr.lit "error") (Some (JsStr.lit "2201X"))
               (JsStr.lit "OFFSET must not be negative") false)
    else
      table <- getRows ;;
      ret (firstn (Z.to_nat limit)
             (skipn (Z.to_nat offset) (orderByCreatedDesc table))).

(** [WHERE id = $1] on a column of type UUID: the text forms are compared
    without regard to the case of the hexadecimal digits. *)
Definition sameUuid (id : JsStr.t) (r : Row) : bool :=
  JsStr.eqb (JsStr.toLowerCase (row_id r)) (JsStr.toLowerCase id).

(** What [deletePrediction] returns: without a pool the object [{ id }],
    with a pool the first deleted row, if any. *)
Inductive Deleted : Type :=
| Echo (id : JsStr.t)
| FromTable (r : Row).

Definition deleted_id (x : Deleted) : JsStr.t :=
  match x with
  | Echo id => id
  | FromTable r => row_id r
  end.

(** Delete prediction by ID *)
Definition deletePrediction (d : Deployment) (id : JsStr.t) : Js (option Deleted) :=
  if negb (pool (env d)) then ret (Some (Echo id))
  else
    query d (SqlDelete id) ;;
    table <- getRows ;;
    setRows (filter (fun r => negb (sameUuid id r)) table) ;;
    ret (option_map FromTable (hd_error (filter (sameUuid id) table))).

End Db.

(** ** [handlers/predict.js] *)

Module Predict.

Local Open Scope js_scope.

(** Fallback recommendation when LLM is unavailable (the handler's own
    copy). *)
Definition getFallbackRecommendation : Recommendation :=
  mkRecommendation
    [JSON.Str (JsStr.lit "Rekomendasi tidak tersedia saat ini")]
    (JSON.Obj [ (JsStr.lit "info",
                 JSON.Str (JsStr.lit "Informasi nutrisi tidak tersedia")) ])
    (JsStr.lit "Simpan di tempat sejuk dan kering").

(** [process.env.SKIP_LLM === 'true' || !process.env.OLLAMA_URL] *)
Definition skipLLM (e : ProcessEnv) : bool :=
  envIs (SKIP_LLM e) "true" || negb (isSet (OLLAMA_URL e)).

(** Forward to ML Service *)
Definition postToMlService (d : Deployment) (file : File) : Js Prediction :=
  emit (HttpPost MlService (originalname file)) ;;
  match classify d file with
  | MlAnswered data => ret data
  | MlRejected e => throw e
  end.

(** Get LLM recommendation (skip if SKIP_LLM is set or Ollama not
    configured) *)
Definition recommend (d : Deployment) (prediction : Prediction) : Js Recommendation :=
  if skipLLM (env d) then ret getFallbackRecommendation
  else
    tryCatch (Llm.getLLMRecommendation d (predicted_class prediction))
      (fun error =>
         emit (ConsoleError [JsStr.lit "LLM error, using fallback:";
                             err_message error]) ;;
         ret getFallbackRecommendation).

(** What follows the answer of the ML service. *)
Definition afterClassification (d : Deployment) (file : File)
  (prediction : Prediction) : Js Handled :=
  recommendation <- recommend d prediction ;;
  n <- Db.draw ;;
  let imagePath := JsStr.concat [JsStr.lit "/uploads/"; uuidAt d n;
                                 JsStr.lit "_"; originalname file] in
  savedRecord <- Db.savePrediction d
                   (Db.mkNewPrediction (originalname file) imagePath
                      (predicted_class prediction) (confidence prediction)
                      (top_3 prediction) recommendation) ;;
  ret (Responded
         (okJson (PredictionBody (row_id savedRecord) prediction
                    recommendation (created_at savedRecord)))).

(** Handle prediction request *)
Definition predictHandler (d : Deployment) (file : option File)
  : World -> Handled * World :=
  orNext
    match file with
    | None => ret (Responded (errorJson 400 (JsStr.lit "No image file provided")))
    | Some f =>
        mlResponse <- tryCatch
                        (data <- postToMlService d f ;; ret (inr data))
                        (fun error =>
                           if ErrorHandler.codeIs error "ECONNREFUSED"
                           then ret (inl (Responded
                                            (errorJson 502
                                               (JsStr.lit "ML service unavailable"))))
                           else throw error) ;;
        match mlResponse with
        | inl early => ret early
        | inr prediction => afterClassification d f prediction
        end
    end.

End Predict.

(** ** [handlers/history.js] *)

Module History.

Local Open Scope js_scope.

Definition digitIn (radix : N) (c : N) : option N :=
  match JSON.hexVal c with
  | Some v => if (v <? radix)%N then Some v else None
  | None => None
  end.

Fixpoint spanRadix (radix : N) (s : JsStr.t) : list N :=
  match s with
  | c :: s' =>
      match digitIn radix c with
      | Some v => v :: spanRadix radix s'
      | None => []
      end
  | [] => []
  end.

(** [parseInt(s)]: leading white space, a sign, the prefix [0x] or [0X] for
    radix 16, then the longest run of digits; [None] is [NaN].  The value is
    the exact integer (the rounding of integers above [2^53] to a double is
    not followed). *)
Definition parseInt (s : JsStr.t) : option Z :=
  let s1 := JsStr.trimStart s in
  let (neg, s2) := match s1 with
                   | 45%N :: r => (true, r)
                   | 43%N :: r => (false, r)
                   | _ => (false, s1)
                   end in
  let (radix, s3) := match s2 with
                     | 48%N :: x :: r =>
                         if ((x =? 120) || (x =? 88))%N then (16%N, r) else (10%N, s2)
                     | _ => (10%N, s2)
                     end in
  match spanRadix radix s3 with
  | [] => None
  | ds =>
      let v := fold_left (fun a x => (Z.of_N radix * a + Z.of_N x)%Z) ds 0%Z in
      Some (if neg then (- v)%Z else v)
  end.

(** [parseInt(param) || fallback], for a query parameter that is a string
    or absent. *)
Definition intOr (param : option JsStr.t) (fallback : Z) : Z :=
  match param with
  | None => fallback
  | Some s =>
      match parseInt s with
      | Some 0%Z | None => fallback
      | Some v => v
      end
  end.

(** Transform to camelCase for frontend; the confidence, a DECIMAL column
    read back as text, is made a number again by [parseFloat]. *)
Definition toItem (p : Row) : HistoryItem :=
  mkHistoryItem (row_id p) (image_filename p) (image_path p)
    (row_predicted_class p) (row_confidence p) (top_3_predictions p)
    (llm_recommendation p) (created_at p).

(** Get prediction history *)
Definition getHistory (d : Deployment) (limitParam offsetParam : option JsStr.t)
  : World -> Handled * World :=
  orNext
    (let limit := intOr limitParam 50 in
     let offset := intOr offsetParam 0 in
     predictions <- Db.getPredictions d limit offset ;;
     ret (Responded (okJson (HistoryBody (map toItem predictions))))).

(** [n] hexadecimal digits at the head of [s]; what follows them. *)
Fixpoint hexRun (n : nat) (s : JsStr.t) : option JsStr.t :=
  match n with
  | O => Some s
  | S n' =>
      match s with
      | c :: s' =>
          match JSON.hexVal c with
          | Some _ => hexRun n' s'
          | None => None
          end
      | [] => None
      end
  end.

Definition dashThen (n : nat) (s : option JsStr.t) : option JsStr.t :=
  match s with
  | Some (45%N :: s') => hexRun n s'
  | _ => None
  end.

(** [/^[0-9a-f]{8}-[0-9a-f]{4}-[0-9a-f]{4}-[0-9a-f]{4}-[0-9a-f]{12}$/i.test(id)] *)
Definition uuidRegexTest (id : JsStr.t) : bool :=
  match dashThen 12 (dashThen 4 (dashThen 4 (dashThen 4 (hexRun 8 id)))) with
  | Some [] => true
  | _ => false
  end.

(** Delete prediction by ID *)
Definition deleteHistory (d : Deployment) (id : JsStr.t)
  : World -> Handled * World :=
  orNext
    (if negb (uuidRegexTest id) then
       ret (Responded (errorJson 400 (JsStr.lit "Invalid ID format")))
     else
       deleted <- Db.deletePrediction d id ;;
       match deleted with
       | None => ret (Responded (errorJson 404 (JsStr.lit "Prediction not found")))
       | Some record => ret (Responded (okJson (DeletedBody (Db.deleted_id record))))
       end).

End History.

(** ** [index.js]: uploads, routes and the error middleware *)

Module App.

(** [10 * 1024 * 1024] *)
Definition fileSizeLimit : N := 10 * 1024 * 1024.

Definition allowedTypes : list JsStr.t :=
  [JsStr.lit "image/jpeg"; JsStr.lit "image/png"; JsStr.lit "image/webp"].

(** [fileFilter]: [allowedTypes.includes(file.mimetype)] *)
Definition fileFilter (file : File) : bool :=
  existsb (JsStr.eqb (mimetype file)) allowedTypes.

(** The error multer raises for a file over [limits.fileSize]. *)
Definition LIMIT_FILE_SIZE : JsError :=
  mkError (JsStr.lit "MulterError") (Some (JsStr.lit "LIMIT_FILE_SIZE"))
    (JsStr.lit "File too large") true.

(** [upload.single('file')]: the filter sees the part's headers first, then
    the size limit cuts the stream; a request without the file field goes on
    with [req.file] undefined. *)
Definition upload (field : option File) : option File + JsError :=
  match field with
  | None => inl None
  | Some file =>
      if fileFilter file then
        if (fileSizeLimit <? size file)%N then inr LIMIT_FILE_SIZE
        else inl (Some file)
      else inr (mkError (JsStr.lit "Error") None
                  (JsStr.lit "Unsupported image format. Allowed: JPEG, PNG, WebP")
                  false)
  end.

(** Handle multer errors *)
Definition multerErrors (err : JsError) : World -> Handled * World :=
  fun w =>
    if err_isMulter err then
      if ErrorHandler.codeIs err "LIMIT_FILE_SIZE" then
        (Responded (errorJson 413 (JsStr.lit "File size exceeds 10MB limit")), w)
      else (Responded (errorJson 400 (err_message err)), w)
    else (Next err, w).

(** The error-handling middleware in the order of their [app.use]. *)
Definition errorMiddleware (d : Deployment)
  : list (JsError -> World -> Handled * World) :=
  [ErrorHandler.errorHandler (env d); multerErrors].

(** Express hands an error to the error-handling middleware in order, each
    one getting what the previous one passed to [next]; an error that none
    answers gets the framework's own page with status 500. *)
Fixpoint handleError (chain : list (JsError -> World -> Handled * World))
  (err : JsError) (w : World) : Response * World :=
  match chain with
  | [] => (mkResponse 500 FinalHandlerPage, w)
  | mw :: rest =>
      match mw err w with
      | (Responded r, w') => (r, w')
      | (Next err', w') => handleError rest err' w'
      end
  end.

(** A route handler's end, with the error middleware behind it. *)
Definition finish (d : Deployment) (h : Handled * World) : Response * World :=
  match h with
  | (Responded r, w) => (r, w)
  | (Next err, w) => handleError (errorMiddleware d) err w
  end.

Inductive Request : Type :=
| GetHealth
| PostPredict (field : option File)
| GetHistory (limit offset : option JsStr.t)
| DeleteHistory (id : JsStr.t).

(** The routes. *)
Definition app (d : Deployment) (req : Request) (w : World) : Response * World :=
  match req with
  | GetHealth => (okJson HealthBody, w)
  | PostPredict field =>
      match upload field with
      | inl file => finish d (Predict.predictHandler d file w)
      | inr err => handleError (errorMiddleware d) err w
      end
  | GetHistory limit offset => finish d (History.getHistory d limit offset w)
  | DeleteHistory id => finish d (History.deleteHistory d id w)
  end.

End App.

(** ** Vocabulary of the properties *)

Module Props.

(** The backend [getLLMRecommendation] turns to. *)
Definition provider (e : ProcessEnv) : Target :=
  if JsStr.eqb (Llm.LLM_PROVIDER e) (JsStr.lit "groq") && isSet (GROQ_API_KEY e)
  then Groq else Ollama.

(** The ways the response parser ends on a raw text, in the parser's own
    order: no braces found, [JSON.parse] throws, one of the three fields is
    missing or falsy, the placeholder check throws, it finds a template, or
    the payload is accepted. *)
Inductive Verdict : Type :=
| NoJsonFound
| InvalidJson
| IncompleteShape
| CheckThrew (e : JsError)
| Placeholder
| Accepted (r : Recommendation).

Definition verdict (raw : JsStr.t) : Verdict :=
  match JsStr.matchBraces (Llm.cleanResponse raw) with
  | None => NoJsonFound
  | Some jsonMatch =>
      match JSON.parse jsonMatch with
      | None => InvalidJson
      | Some parsed =>
          match JSON.get parsed (JsStr.lit "recipes"),
                JSON.get parsed (JsStr.lit "nutrition"),
                JSON.get parsed (JsStr.lit "storageTips") with
          | Some rs, Some nu, Some tips =>
              if JSON.truthy rs && JSON.truthy nu && JSON.truthy tips then
                match Llm.isPlaceholder rs nu with
                | Normal true => Placeholder
                | Normal false =>
                    Accepted (mkRecommendation (Llm.asList rs) nu (JSON.toString tips))
                | Throw e => CheckThrew e
                end
              else IncompleteShape
          | _, _, _ => IncompleteShape
          end
      end
  end.


Definition hasKey (v : JSON.t) (key : string) : bool :=
  match JSON.get v (JsStr.lit key) with
  | Some _ => true
  | None => false
  end.

(** The structured nutrition shape is present when one of its fields is. *)
Definition structuredShape (n : JSON.t) : bool :=
  hasKey n "calories" || hasKey n "vitamins" || hasKey n "benefits".

(** The degraded nutrition shape. *)
Definition infoShape (n : JSON.t) : bool := hasKey n "info".

Definition nonEmpty {A} (l : list A) : bool :=
  match l with
  | [] => false
  | _ => true
  end.

(** The invariant of a Recommendation: exactly one nutrition shape, a
    non-empty recipe list, a non-empty storage tip. *)
Definition wellShaped (r : Recommendation) : bool :=
  xorb (structuredShape (nutrition r)) (infoShape (nutrition r))
  && nonEmpty (recipes r)
  && nonEmpty (storageTips r).

(** [r] contains [marker] in some letter case. *)
Definition containsAnyCase (r : JsStr.t) (marker : string) : Prop :=
  exists before occurrence after,
    r = before ++ occurrence ++ after
    /\ JsStr.toLowerCase occurrence = JsStr.lit marker.

Definition isHttpPost (ev : Event) : bool :=
  match ev with
  | HttpPost _ _ => true
  | _ => false
  end.




(** The upload middleware lets the file through: its type is allowed and
    its size within the limit. *)
Definition admitted (file : File) : Prop :=
  App.upload (Some file) = inl (Some file).

(** An empty world: an empty table, nothing done yet. *)
Definition idle : World := mkWorld [] [] 0.

End Props.

(** ** Concrete deployments, requests and texts *)

Module Examples.

Definition anId : JsStr.t := JsStr.lit "3f2b8c1e-7a4d-4e6f-9b0a-5c1d2e3f4a5b".

Definition connectionRefused : JsError :=
  mkError (JsStr.lit "AxiosError") (Some (JsStr.lit "ECONNREFUSED"))
    (JsStr.lit "connect ECONNREFUSED 127.0.0.1:8000") false.


Definition connectionReset : JsError :=
  mkError (JsStr.lit "AxiosError") (Some (JsStr.lit "ECONNRESET"))
    (JsStr.lit "socket hang up") false.

Definition tooManyClients : JsError :=
  mkError (JsStr.lit "error") (Some (JsStr.lit "53300"))
    (JsStr.lit "sorry, too many clients already") false.











(** The classification backend recognises a carrot. *)
Definition carrot : Prediction :=
  mkPrediction (JsStr.lit "Carrot") (Number.ofDecimal false 92 (-2))
    [ (JsStr.lit "Carrot", Number.ofDecimal false 92 (-2));
      (JsStr.lit "Radish", Number.ofDecimal false 5 (-2));
      (JsStr.lit "Pumpkin", Number.ofDecimal false 3 (-2)) ].

(** A deployment whose classification backend ends with [ml], whose
    generation backend is skipped ([OLLAMA_URL] is not set) and whose
    database, when [withDb] says so, is configured and fails the statements
    that [fault] names. *)
Definition gateway (withDb : bool) (ml : MlOutcome)
  (fault : SqlStmt -> option JsError) : Deployment :=
  mkDeployment
    (mkEnv None None None None None
       (if withDb then Some (JsStr.lit "postgres://db/vegetable_app") else None)
       None)
    (fun _ => ml)
    (fun _ _ => GenNotText)
    fault
    (fun _ => anId)
    (fun _ => 0%N).

Definition photo (bytes : N) : File :=
  mkFile (JsStr.lit "wortel.png") (JsStr.lit "image/png") bytes.


Definition neverFailing (stmt : SqlStmt) : option JsError := None.

(** No database is configured. *)
Definition noDatabase : Deployment := gateway false (MlAnswered carrot) neverFailing.

(** A database is configured and answers every statement. *)
Definition withDatabase : Deployment := gateway true (MlAnswered carrot) neverFailing.



(** A table with one record. *)
Definition storedRow : Row :=
  mkRow anId (JsStr.lit "wortel.png")
    (JsStr.lit "/uploads/0b7e2a34-5c6d-4f80-9a1b-2c3d4e5f6a7b_wortel.png")
    (JsStr.lit "Carrot") (Number.ofDecimal false 92 (-2))
    (top_3 carrot) (Llm.defaultFor (JsStr.lit "Carrot")) 1700000000000.

Definition stocked : World := mkWorld [storedRow] [] 2.

Definition anIdUpperCase : JsStr.t :=
  JsStr.lit "3F2B8C1E-7A4D-4E6F-9B0A-5C1D2E3F4A5B".

Definition anotherId : JsStr.t :=
  JsStr.lit "00000000-0000-4000-8000-000000000000".

End Examples.

(** ** [db.js] and [index.js]: starting the server *)

Module Startup.

Inductive Ddl : Type :=
| CreateTable
| CreateIndex.

(** What the process does while it starts. *)
Inductive Step : Type :=
| Connect
| ClientQuery (stmt : Ddl)
| Release
| ConsoleLog (args : list JsStr.t)
| ConsoleErr (args : list JsStr.t)
| Listen (port : JsStr.t)
| Exit (code : N).

(** The database as the start sees it: whether [pool.connect()] rejects,
    and which of the two statements the server fails. *)
Record Database : Type := mkDatabase {
  connectFault : option JsError;
  ddlFault : Ddl -> option JsError
}.

(** A computation over the steps done so far, latest first. *)
Definition Boot (A : Type) : Type := list Step -> Completion A * list Step.

Definition did (s : Step) : Boot unit := fun t => (Normal tt, s :: t).

Definition fail {A} (e : JsError) : Boot A := fun t => (Throw e, t).

Definition andThen {A B} (m : Boot A) (k : Boot B) : Boot B :=
  fun t =>
    match m t with
    | (Normal _, t') => k t'
    | (Throw e, t') => (Throw e, t')
    end.

(** [try { m } finally { cleanup }], for a [cleanup] that does not throw. *)
Definition tryFinally {A} (m : Boot A) (cleanup : Boot unit) : Boot A :=
  fun t =>
    match m t with
    | (c, t') => (c, snd (cleanup t'))
    end.

(** [try { m } catch (error) { handler error }] *)
Definition orCatch {A} (m : Boot A) (handler : JsError -> Boot A) : Boot A :=
  fun t =>
    match m t with
    | (Normal a, t') => (Normal a, t')
    | (Throw e, t') => handler e t'
    end.

Definition orFail (fault : option JsError) : Boot unit :=
  match fault with
  | Some e => fail e
  | None => fun t => (Normal tt, t)
  end.

(** [await pool.connect()] *)
Definition connect (db : Database) : Boot unit :=
  andThen (did Connect) (orFail (connectFault db)).

(** [await client.query(stmt)] *)
Definition clientQuery (db : Database) (stmt : Ddl) : Boot unit :=
  andThen (did (ClientQuery stmt)) (orFail (ddlFault db stmt)).

(** Initialize database with required tables *)
Definition initDatabase (e : ProcessEnv) (db : Database) : Boot unit :=
  if negb (Db.pool e) then
    did (ConsoleLog
           [JsStr.lit "Database not configured - running without persistence"])
  else
    andThen (connect db)
      (tryFinally
         (andThen (clientQuery db CreateTable)
            (andThen (clientQuery db CreateIndex)
               (did (ConsoleLog [JsStr.lit "Database tables initialized"]))))
         (did Release)).

(** [process.env.PORT || 5000], as it is printed. *)
Definition PORT (port : option JsStr.t) : JsStr.t :=
  match port with
  | Some (c :: p) => c :: p
  | _ => JsStr.lit "5000"
  end.

(** Start server.  The port is taken to be free: [app.listen] goes on to
    its callback. *)
Definition startServer (e : ProcessEnv) (port : option JsStr.t) (db : Database)
  : Boot unit :=
  orCatch
    (andThen (initDatabase e db)
       (andThen (did (ConsoleLog [JsStr.lit "Database initialized"]))
          (andThen (did (Listen (PORT port)))
             (did (ConsoleLog
                     [JsStr.lit "API Gateway running on port " ++ PORT port])))))
    (fun error =>
       andThen (did (ConsoleErr [JsStr.lit "Failed to start server:";
                                 err_message error]))
         (did (Exit 1))).

End Startup.

(** ** The frontend's side of the gateway: [utils/vegetableNames.ts], the
    upload form's [validateFile] and the history page *)

Module Frontend.

Local Open Scope string_scope.
Local Open Scope list_scope.

(** Mapping nama sayuran dari English ke Indonesia *)
Definition vegetableNamesId : list (string * JsStr.t) :=
  map (fun p => (fst p, JsStr.lit (snd p)))
    [ ("Bean", "Kacang Buncis"); ("Bitter_Gourd", "Pare");
      ("Bottle_Gourd", "Labu Air"); ("Brinjal", "Terong");
      ("Broccoli", "Brokoli"); ("Cabbage", "Kubis/Kol");
      ("Capsicum", "Paprika"); ("Carrot", "Wortel");
      ("Cauliflower", "Kembang Kol"); ("Cucumber", "Timun");
      ("Papaya", "Pepaya"); ("Potato", "Kentang");
      ("Pumpkin", "Labu Kuning"); ("Radish", "Lobak"); ("Tomato", "Tomat");
      ("Unknown vegetable", "Sayuran tidak dikenali") ].





Definition ALLOWED_TYPES : list JsStr.t :=
  [JsStr.lit "image/jpeg"; JsStr.lit "image/png"; JsStr.lit "image/webp"].

(** [10 * 1024 * 1024] *)
Definition MAX_SIZE : N := 10 * 1024 * 1024.

(** [validateFile] of the upload form: the message shown, or [None] for
    [null].  The browser's [file.type] and [file.size] are what the
    multipart part carries to the gateway as [mimetype] and [size]. *)
Definition validateFile (file : File) : option JsStr.t :=
  if negb (existsb (JsStr.eqb (mimetype file)) ALLOWED_TYPES) then
    Some (JsStr.lit "Format tidak didukung. Gunakan JPEG, PNG, atau WebP.")
  else if (MAX_SIZE <? size file)%N then
    Some (JsStr.lit "Ukuran file melebihi 10MB.")
  else None.

(** [getHistory()] of [services/api.ts] as the history page calls it, the
    limit being its default: [GET /api/history?limit=50]. *)
Definition getHistory : App.Request :=
  App.GetHistory (Some (JsStr.lit "50")) None.

(** [deleteHistory(id)] of [services/api.ts]: [DELETE /api/history/:id]. *)
Definition deleteHistory (id : JsStr.t) : App.Request := App.DeleteHistory id.


End Frontend.

(** ** More vocabulary *)

Module Terms.

(** The opening and closing line of a markdown code block. *)
Definition fence : JsStr.t := JsStr.lit "```".

(** The payload the response parser reads out of a raw text: the span
    between the braces of the cleaned text, parsed. *)
Definition payload (raw : JsStr.t) : option JSON.t :=
  match JsStr.matchBraces (Llm.cleanResponse raw) with
  | Some jsonMatch => JSON.parse jsonMatch
  | None => None
  end.

(** A recipe that is a string and has neither marker of the prompt's
    template, in any letter case. *)
Definition realRecipe (x : JSON.t) : Prop :=
  exists s, x = JSON.Str s
            /\ ~ Props.containsAnyCase s "resep 1"
            /\ ~ Props.containsAnyCase s "nama resep".

(** A nutrition value whose [calories] field is absent, or is a string
    without the placeholder [XX]. *)
Definition realCalories (nu : JSON.t) : Prop :=
  match JSON.get nu (JsStr.lit "calories") with
  | None => True
  | Some (JSON.Str s) => JsStr.includes s (JsStr.lit "XX") = false
  | Some _ => False
  end.

Definition isGenerationPost (ev : Event) : bool :=
  match ev with
  | HttpPost Groq _ | HttpPost Ollama _ => true
  | _ => false
  end.

Definition isMlPost (ev : Event) : bool :=
  match ev with
  | HttpPost MlService _ => true
  | _ => false
  end.

Definition isQuery (ev : Event) : bool :=
  match ev with
  | Query _ => true
  | _ => false
  end.

(** What stays inside the process: a look into the catalog, a line on the
    console. *)
Definition isLocal (ev : Event) : bool :=
  match ev with
  | CatalogLookup _ | ConsoleError _ => true
  | _ => false
  end.

(** The events of a run: what it added to the trace. *)
Definition added (before after : World) (evs : list Event) : Prop :=
  trace after = evs ++ trace before.

(** The text begins with a code unit that [trim] keeps. *)
Definition startsBlack (s : JsStr.t) : bool :=
  match s with
  | c :: _ => negb (JsStr.isWhiteSpace c)
  | [] => false
  end.

(** A hexadecimal digit, in either case. *)
Definition hexDigit (c : N) : bool :=
  (((48 <=? c) && (c <=? 57)) || ((97 <=? c) && (c <=? 102))
   || ((65 <=? c) && (c <=? 70)))%N.

(** The steps of the start that concern the database client. *)
Definition isClientStep (s : Startup.Step) : bool :=
  match s with
  | Startup.Connect | Startup.ClientQuery _ | Startup.Release => true
  | _ => false
  end.

(** Timestamps from the latest to the earliest. *)
Definition descending (stamps : list N) : Prop :=
  StronglySorted (fun a b => (b <= a)%N) stamps.

End Terms.

(** ** More deployments, texts and tables *)

Module Samples.

(** A generated answer in order, as the prompt asks for it. *)
Definition carrotJson : JsStr.t :=
  JsStr.dq "{'recipes': ['Sup Wortel', 'Tumis Wortel', 'Jus Wortel'], 'nutrition': {'calories': '41 kkal/100g', 'vitamins': ['Vitamin A'], 'benefits': ['Baik untuk mata']}, 'storageTips': 'Simpan di kulkas'}".

Definition carrotNutrition : JSON.t :=
  JSON.Obj
    [ (JsStr.lit "calories", JSON.Str (JsStr.lit "41 kkal/100g"));
      (JsStr.lit "vitamins", JSON.Arr [JSON.Str (JsStr.lit "Vitamin A")]);
      (JsStr.lit "benefits", JSON.Arr [JSON.Str (JsStr.lit "Baik untuk mata")]) ].

Definition carrotRecipes : list JSON.t :=
  [ JSON.Str (JsStr.lit "Sup Wortel"); JSON.Str (JsStr.lit "Tumis Wortel");
    JSON.Str (JsStr.lit "Jus Wortel") ].

Definition carrotParsed : JSON.t :=
  JSON.Obj
    [ (JsStr.lit "recipes", JSON.Arr carrotRecipes);
      (JsStr.lit "nutrition", carrotNutrition);
      (JsStr.lit "storageTips", JSON.Str (JsStr.lit "Simpan di kulkas")) ].

(** The same answer with a sentence before it and inside a code block. *)
Definition carrotAnswer : JsStr.t :=
  JsStr.concat [JsStr.lit "Berikut rekomendasinya:
```json
"; carrotJson; JsStr.lit "
```"].

(** A deployment with the local provider configured, a database when
    [withDb] says so, a classification backend that recognises a carrot and
    a generation backend that answers as [answer] says. *)
Definition serving (withDb : bool) (answer : JsStr.t -> GenOutcome) : Deployment :=
  mkDeployment
    (mkEnv (Some (JsStr.lit "ollama")) None
       (Some (JsStr.lit "http://ollama:11434")) None None
       (if withDb then Some (JsStr.lit "postgres://db/vegetable_app") else None)
       None)
    (fun _ => MlAnswered Examples.carrot)
    (fun _ => answer)
    (fun _ => None)
    (fun _ => Examples.anId)
    (fun _ => 1700000000000%N).

(** The generation backend sends the prompt back. *)
Definition echoing : Deployment := serving false GenText.

(** The generation backend answers in order. *)
Definition answeringCarrot : Deployment :=
  serving true (fun _ => GenText carrotAnswer).

(** The classification backend does not recognise the subject. *)
Definition unknownSubject : Prediction :=
  mkPrediction (JsStr.lit "Unknown vegetable") (Number.ofDecimal false 31 (-2)) [].

Definition seeingNothing : Deployment :=
  mkDeployment (env answeringCarrot) (fun _ => MlAnswered unknownSubject)
    (generate answeringCarrot) (sqlFault answeringCarrot)
    (uuidAt answeringCarrot) (clockAt answeringCarrot).

(** The classification backend is down. *)
Definition blind : Deployment :=
  mkDeployment (env answeringCarrot)
    (fun _ => MlRejected Examples.connectionReset)
    (generate answeringCarrot) (sqlFault answeringCarrot)
    (uuidAt answeringCarrot) (clockAt answeringCarrot).

Definition production : ProcessEnv :=
  mkEnv None None None None (Some (JsStr.lit "production")) None None.

Definition document : File :=
  mkFile (JsStr.lit "laporan.pdf") (JsStr.lit "application/pdf") 2048.

(** A second record, older than [Examples.storedRow]. *)
Definition olderRow : Row :=
  mkRow Examples.anotherId (JsStr.lit "tomat.jpg")
    (JsStr.lit "/uploads/5d2c7a10-9e3b-4c1f-8a6d-0b1c2d3e4f5a_tomat.jpg")
    (JsStr.lit "Tomato") (Number.ofDecimal false 88 (-2)) []
    (Llm.defaultFor (JsStr.lit "Tomato")) 1600000000000.

Definition twoRows : World := mkWorld [olderRow; Examples.storedRow] [] 4.

(** A database that cannot be reached, one whose index cannot be made, and
    one that answers. *)
Definition unreachable : Startup.Database :=
  Startup.mkDatabase (Some Examples.connectionRefused) (fun _ => None).

Definition answeringDb : Startup.Database :=
  Startup.mkDatabase None (fun _ => None).

End Samples.

(** ** The frontend's accounts: the [AuthProvider] context *)

Module Auth.

Local Open Scope js_scope.

(** What the browser does for the context: [String.prototype.toLowerCase]
    in full, and [encodeURIComponent], which throws a [URIError] ([None])
    on a lone surrogate. *)
Record Browser : Type := mkBrowser {
  toLowerCase : JsStr.t -> JsStr.t;
  encodeURIComponent : JsStr.t -> option JsStr.t
}.

Record User : Type := mkUser {
  user_id : JsStr.t;
  user_name : JsStr.t;
  user_email : JsStr.t;
  user_avatar : JsStr.t
}.

(** [StoredUser extends User] *)
Record StoredUser : Type := mkStoredUser {
  stored_id : JsStr.t;
  stored_name : JsStr.t;
  stored_email : JsStr.t;
  stored_password : JsStr.t;
  stored_avatar : JsStr.t
}.

(** [const { password: _, ...userWithoutPassword } = u] *)
Definition userWithoutPassword (u : StoredUser) : User :=
  mkUser (stored_id u) (stored_name u) (stored_email u) (stored_avatar u).

(** The two keys of [localStorage]; the list under [vegierecog_users] is
    empty when the key is not there, and the React state [user] holds what
    [vegierecog_current_user] holds. *)
Record Store : Type := mkStore {
  vegierecog_users : list StoredUser;
  vegierecog_current_user : option User
}.

(** [{ success, error }] *)
Record Outcome : Type := mkOutcome {
  success : bool;
  error : option JsStr.t
}.

Definition succeeded : Outcome := mkOutcome true None.

Definition failed (message : string) : Outcome :=
  mkOutcome false (Some (JsStr.lit message)).

(** [u => u.email.toLowerCase() === email.toLowerCase()] *)
Definition sameEmail (b : Browser) (email : JsStr.t) (u : StoredUser) : bool :=
  JsStr.eqb (toLowerCase b (stored_email u)) (toLowerCase b email).

Definition URIError : JsError :=
  mkError (JsStr.lit "URIError") None (JsStr.lit "URI malformed") false.

(** [register]; [now] is [Date.now().toString()]. *)
Definition register (b : Browser) (now name email password : JsStr.t)
  (s : Store) : Completion Outcome * Store :=
  let users := vegierecog_users s in
  match find (sameEmail b email) users with
  | Some _ => (Normal (failed "Email sudah terdaftar"), s)
  | None =>
      if (List.length password <? 6)%nat then
        (Normal (failed "Password minimal 6 karakter"), s)
      else
        match encodeURIComponent b name with
        | None => (Throw URIError, s)
        | Some encoded =>
            let newUser :=
              mkStoredUser now name (toLowerCase b email) password
                (JsStr.concat
                   [JsStr.lit "https://ui-avatars.com/api/?name="; encoded;
                    JsStr.lit "&background=22c55e&color=fff"]) in
            (Normal succeeded,
             mkStore (users ++ [newUser]) (Some (userWithoutPassword newUser)))
        end
  end.

(** [login] *)
Definition login (b : Browser) (email password : JsStr.t) (s : Store)
  : Outcome * Store :=
  match find (sameEmail b email) (vegierecog_users s) with
  | None => (failed "Email tidak ditemukan", s)
  | Some foundUser =>
      if negb (JsStr.eqb (stored_password foundUser) password) then
        (failed "Password salah", s)
      else
        (succeeded,
         mkStore (vegierecog_users s) (Some (userWithoutPassword foundUser)))
  end.

(** [logout] *)
Definition logout (s : Store) : Store := mkStore (vegierecog_users s) None.

(** [isAuthenticated: !!user] *)
Definition isAuthenticated (s : Store) : bool :=
  match vegierecog_current_user s with
  | Some _ => true
  | None => false
  end.

(** A browser for texts of ASCII letters and digits. *)
Definition ascii : Browser :=
  mkBrowser JsStr.toLowerCase (fun name => Some name).

Definition budi : StoredUser :=
  mkStoredUser (JsStr.lit "1700000000000") (JsStr.lit "Budi")
    (JsStr.lit "budi@example.com") (JsStr.lit "rahasia1")
    (JsStr.lit "https://ui-avatars.com/api/?name=Budi&background=22c55e&color=fff").

Definition empty : Store := mkStore [] None.

End Auth.

(** * Properties *)

(** ** Number conversions on known values *)

Example toString_samples :
  map (fun p => Number.toString (Number.ofDecimal false (fst p) (snd p)))
    [ (1, 21); (1, 20); (1, -7); (1, -6); (5, -324); (15, -1); (1, -1);
      (9007199254740993, 0); (17976931348623157, 292); (1, 400); (24, -325) ]%Z
  = map JsStr.lit
      [ "1e+21"; "100000000000000000000"; "1e-7"; "0.000001"; "5e-324"; "1.5";
        "0.1"; "9007199254740992"; "1.7976931348623157e+308"; "Infinity";
        "0" ]%string.
Proof. vm_compute. reflexivity. Qed.

Example parse_samples :
  map (fun s => option_map JSON.toString (JSON.parse (JsStr.dq s)))
    [ "[1, [2, null, 'a'], {}, true, -0, 2E-3]"; "{'a': 1,}"; "[01]"; "{} x";
      "'\u0041\n'" ]%string
  = [ Some (JsStr.lit "1,2,,a,[object Object],true,0,0.002"); None; None; None;
      Some [65%N; 10%N] ].
Proof. vm_compute. reflexivity. Qed.

(** ** The repository's property tests, on the model *)


(** Property 6, "connection refused returns 502" and "timeout returns 504". *)
Example errorHandler_tests (e : ProcessEnv) :
  ErrorHandler.respond e
    (mkError (JsStr.lit "Error") (Some (JsStr.lit "ECONNREFUSED"))
       (JsStr.lit "Connection refused") false)
  = errorJson 502 (JsStr.lit "Service unavailable")
  /\ ErrorHandler.respond e
       (mkError (JsStr.lit "Error") (Some (JsStr.lit "ECONNABORTED"))
          (JsStr.lit "timeout of 30000ms exceeded") false)
     = errorJson 504 (JsStr.lit "Request timeout").
Proof. split; reflexivity. Qed.

(** Properties 5 and 7, "fallback recommendation has all required fields". *)
Example fallback_tests :
  Props.nonEmpty (recipes Llm.getFallbackRecommendation) = true
  /\ Props.nonEmpty (storageTips Llm.getFallbackRecommendation) = true
  /\ Props.wellShaped Llm.getFallbackRecommendation = true
  /\ Predict.getFallbackRecommendation = Llm.getFallbackRecommendation.
Proof. repeat split. Qed.

(** ** Strings *)

Lemma eqb_eq (a b : JsStr.t) : JsStr.eqb a b = true <-> a = b.
Proof.
  revert b; induction a as [|x a IH]; intros [|y b]; simpl; split;
    try congruence; try reflexivity.
  - intros H. apply andb_true_iff in H as [Hx Hab].
    apply N.eqb_eq in Hx. apply IH in Hab. congruence.
  - intros H. injection H as -> ->. rewrite N.eqb_refl. simpl. now apply IH.
Qed.

Lemma eqb_refl (a : JsStr.t) : JsStr.eqb a a = true.
Proof. now apply eqb_eq. Qed.

Lemma startsWith_spec (s pat : JsStr.t) :
  JsStr.startsWith s pat = true <-> exists rest, s = pat ++ rest.
Proof.
  revert s; induction pat as [|p pat IH]; intros s; simpl.
  - split; [intros _; now exists s | destruct s; reflexivity].
  - destruct s as [|c s].
    + split; [discriminate | intros [rest H]; discriminate].
    + simpl. rewrite andb_true_iff, N.eqb_eq, IH. split.
      * intros [-> [rest ->]]. now exists rest.
      * intros [rest H]. injection H as -> ->. split; [reflexivity | now exists rest].
Qed.

Lemma includes_spec (s pat : JsStr.t) :
  JsStr.includes s pat = true <-> exists before after, s = before ++ pat ++ after.
Proof.
  induction s as [|c s IH].
  - cbn [JsStr.includes]. rewrite orb_false_r, startsWith_spec. split.
    + intros [rest H]. now exists [], rest.
    + intros [[|b before] [after H]]; [now exists after | discriminate].
  - cbn [JsStr.includes]. rewrite orb_true_iff, startsWith_spec, IH. split.
    + intros [[rest H] | [before [after H]]].
      * now exists [], rest.
      * exists (c :: before), after. now rewrite H.
    + intros [[|b before] [after H]].
      * left. now exists after.
      * right. injection H as _ H. now exists before, after.
Qed.

Lemma toLowerCase_app (a b : JsStr.t) :
  JsStr.toLowerCase (a ++ b) = JsStr.toLowerCase a ++ JsStr.toLowerCase b.
Proof. apply map_app. Qed.

(** A string that contains a marker in some letter case contains it, once
    lower-cased, as it is. *)
Lemma includes_anyCase (r : JsStr.t) (marker : string) :
  Props.containsAnyCase r marker ->
  JsStr.includes (JsStr.toLowerCase r) (JsStr.lit marker) = true.
Proof.
  intros (before & occ & after & -> & Hocc).
  apply includes_spec.
  exists (JsStr.toLowerCase before), (JsStr.toLowerCase after).
  now rewrite !toLowerCase_app, Hocc.
Qed.

(** ** [JSON.parse] never runs out of fuel *)

Lemma skipWs_length (s : JsStr.t) : List.length (JSON.skipWs s) <= List.length s.
Proof.
  induction s as [|c s IH]; simpl; [lia|].
  destruct (JSON.isWs c); simpl; lia.
Qed.

Lemma eat_length (c : N) (s r : JsStr.t) :
  JSON.eat c s = Some r -> List.length s = S (List.length r).
Proof.
  destruct s as [|x s]; simpl; [discriminate|].
  destruct (x =? c)%N; [|discriminate]. intros H. now injection H as ->.
Qed.

Lemma eat_skipWs_length (c : N) (s r : JsStr.t) :
  JSON.eat c (JSON.skipWs s) = Some r -> List.length r < List.length s.
Proof.
  intros H. apply eat_length in H. pose proof (skipWs_length s). lia.
Qed.

Lemma lexString_length (n : nat) :
  forall s acc str rest,
    List.length s <= n ->
    JSON.lexString s acc = Some (str, rest) ->
    List.length rest < List.length s.
Proof.
  induction n as [|n IH]; intros s acc str rest Hn H.
  - destruct s; [discriminate | simpl in Hn; lia].
  - destruct s as [|c s]; [discriminate|]. simpl in Hn. simpl in H.
    destruct (c =? 34)%N.
    { injection H as _ ->. simpl. lia. }
    destruct (c =? 92)%N.
    + destruct s as [|e s]; [discriminate|]. simpl in Hn.
      destruct (e =? 117)%N.
      * destruct s as [|h1 [|h2 [|h3 [|h4 s]]]]; try discriminate.
        destruct (JSON.hex4 h1 h2 h3 h4); [|discriminate].
        apply IH in H; simpl in *; lia.
      * destruct (JSON.escaped e); [|discriminate].
        apply IH in H; simpl in *; lia.
    + destruct (c <? 32)%N; [discriminate|].
      apply IH in H; simpl in *; lia.
Qed.

Lemma spanDigits_length (s : JsStr.t) :
  List.length (fst (JSON.spanDigits s)) + List.length (snd (JSON.spanDigits s))
  = List.length s.
Proof.
  induction s as [|c s IH]; simpl; [reflexivity|].
  destruct (JSON.isDigit c); [|reflexivity].
  destruct (JSON.spanDigits s) as [ds r]. simpl in *. lia.
Qed.

Lemma someDigits_length (s ds r : JsStr.t) :
  JSON.someDigits s = Some (ds, r) -> List.length r < List.length s.
Proof.
  unfold JSON.someDigits. pose proof (spanDigits_length s) as H.
  destruct (JSON.spanDigits s) as [[|d ds'] r']; [discriminate|].
  intros E. injection E as _ ->. simpl in H. lia.
Qed.

Lemma lexInt_length (s ints r : JsStr.t) :
  JSON.lexInt s = Some (ints, r) -> List.length r < List.length s.
Proof.
  unfold JSON.lexInt. destruct (JSON.eat 48 s) as [r0|] eqn:H0.
  - intros E. injection E as _ <-. apply eat_length in H0. lia.
  - apply someDigits_length.
Qed.

Lemma lexFrac_length (s fracs r : JsStr.t) :
  JSON.lexFrac s = Some (fracs, r) -> List.length r <= List.length s.
Proof.
  unfold JSON.lexFrac. destruct (JSON.eat 46 s) as [r0|] eqn:H0.
  - intros E. apply someDigits_length in E. apply eat_length in H0. lia.
  - intros E. injection E as _ <-. lia.
Qed.

Lemma lexExp_length (s : JsStr.t) (e : Z) (r : JsStr.t) :
  JSON.lexExp s = Some (e, r) -> List.length r <= List.length s.
Proof.
  unfold JSON.lexExp.
  destruct (match JSON.eat 101 s with
            | Some r0 => Some r0
            | None => JSON.eat 69 s
            end) as [r0|] eqn:He.
  - assert (Hr0 : List.length r0 < List.length s).
    { destruct (JSON.eat 101 s) eqn:H1.
      - injection He as <-. apply eat_length in H1. lia.
      - apply eat_length in He. lia. }
    destruct (JSON.eat 45 r0) as [r1|] eqn:Hm;
      [|destruct (JSON.eat 43 r0) as [r1|] eqn:Hp];
      try apply eat_length in Hm; try apply eat_length in Hp;
      match goal with
      | |- context [JSON.someDigits ?x] =>
          destruct (JSON.someDigits x) as [[es r2]|] eqn:Hes; [|discriminate]
      end;
      apply someDigits_length in Hes; intros E; injection E as _ <-; lia.
  - intros E. injection E as _ <-. lia.
Qed.

Lemma lexNumber_length (s : JsStr.t) (n : Number.t) (r : JsStr.t) :
  JSON.lexNumber s = Some (n, r) -> List.length r < List.length s.
Proof.
  unfold JSON.lexNumber.
  assert (Hsign : forall s1,
             s1 = s \/ JSON.eat 45 s = Some s1 -> List.length s1 <= List.length s).
  { intros s1 [-> | H]; [lia | apply eat_length in H; lia]. }
  destruct (JSON.eat 45 s) as [s1|] eqn:E45.
  - specialize (Hsign s1 (or_intror eq_refl)).
    destruct (JSON.lexInt s1) as [[ints s2]|] eqn:Hi; [|discriminate].
    destruct (JSON.lexFrac s2) as [[fracs s3]|] eqn:Hf; [|discriminate].
    destruct (JSON.lexExp s3) as [[e s4]|] eqn:He; [|discriminate].
    apply lexInt_length in Hi. apply lexFrac_length in Hf. apply lexExp_length in He.
    intros E. injection E as _ <-. lia.
  - destruct (JSON.lexInt s) as [[ints s2]|] eqn:Hi; [|discriminate].
    destruct (JSON.lexFrac s2) as [[fracs s3]|] eqn:Hf; [|discriminate].
    destruct (JSON.lexExp s3) as [[e s4]|] eqn:He; [|discriminate].
    apply lexInt_length in Hi. apply lexFrac_length in Hf. apply lexExp_length in He.
    intros E. injection E as _ <-. lia.
Qed.

Lemma eatWord_length (word : string) (s r : JsStr.t) :
  word <> EmptyString -> JSON.eatWord word s = Some r ->
  List.length r < List.length s.
Proof.
  unfold JSON.eatWord. intros Hw.
  destruct (JsStr.startsWith s (JsStr.lit word)) eqn:Hs; [|discriminate].
  intros E. injection E as <-.
  destruct word as [|a word]; [contradiction|].
  destruct s as [|c s]; [discriminate|].
  simpl. pose proof (length_skipn (String.length word) s). lia.
Qed.

(** With fuel for twice the length of the text, the parser ends on a value
    or on a malformed text, and a value leaves less text than there was. *)
Lemma parser_fuel (fuel : nat) :
  (forall s, 2 * List.length s + 2 <= fuel ->
     JSON.parseValue fuel s <> JSON.Starved
     /\ forall v r, JSON.parseValue fuel s = JSON.Done v r ->
                    List.length r < List.length s)
  /\ (forall s acc, 2 * List.length s + 3 <= fuel ->
        JSON.parseMembers fuel s acc <> JSON.Starved
        /\ forall v r, JSON.parseMembers fuel s acc = JSON.Done v r ->
                       List.length r < List.length s)
  /\ (forall s acc, 2 * List.length s + 3 <= fuel ->
        JSON.parseElements fuel s acc <> JSON.Starved
        /\ forall v r, JSON.parseElements fuel s acc = JSON.Done v r ->
                       List.length r < List.length s).
Proof.
  induction fuel as [|fuel (IHv & IHm & IHe)].
  - repeat split; intros; lia.
  - split; [|split].
    + intros s Hfuel. cbn [JSON.parseValue].
      pose proof (skipWs_length s) as Hws.
      destruct (JSON.skipWs s) as [|c r] eqn:Hs;
        [split; [discriminate | intros; discriminate]|].
      simpl in Hws.
      destruct (c =? 123)%N.
      { destruct (JSON.eat 125 (JSON.skipWs r)) as [r'|] eqn:Hclose.
        - apply eat_skipWs_length in Hclose.
          split; [discriminate|]. intros v r0 E. injection E as _ <-. lia.
        - destruct (IHm r [] ltac:(lia)) as [Hn Hd].
          split; [assumption|]. intros v r0 E. apply Hd in E. lia. }
      destruct (c =? 91)%N.
      { destruct (JSON.eat 93 (JSON.skipWs r)) as [r'|] eqn:Hclose.
        - apply eat_skipWs_length in Hclose.
          split; [discriminate|]. intros v r0 E. injection E as _ <-. lia.
        - destruct (IHe r [] ltac:(lia)) as [Hn Hd].
          split; [assumption|]. intros v r0 E. apply Hd in E. lia. }
      destruct (c =? 34)%N.
      { destruct (JSON.lexString r []) as [[str r']|] eqn:Hstr;
          [|split; [discriminate | intros; discriminate]].
        apply (lexString_length (List.length r)) in Hstr; [|lia].
        split; [discriminate|]. intros v r0 E. injection E as _ <-. lia. }
      destruct (JSON.eatWord "true" (c :: r)) as [r'|] eqn:Ht.
      { apply eatWord_length in Ht; [|discriminate]. simpl in Ht.
        split; [discriminate|]. intros v r0 E. injection E as _ <-. lia. }
      destruct (JSON.eatWord "false" (c :: r)) as [r'|] eqn:Hf.
      { apply eatWord_length in Hf; [|discriminate]. simpl in Hf.
        split; [discriminate|]. intros v r0 E. injection E as _ <-. lia. }
      destruct (JSON.eatWord "null" (c :: r)) as [r'|] eqn:Hnull.
      { apply eatWord_length in Hnull; [|discriminate]. simpl in Hnull.
        split; [discriminate|]. intros v r0 E. injection E as _ <-. lia. }
      destruct (JSON.lexNumber (c :: r)) as [[n r']|] eqn:Hnum;
        [|split; [discriminate | intros; discriminate]].
      apply lexNumber_length in Hnum. simpl in Hnum.
      split; [discriminate|]. intros v r0 E. injection E as _ <-. lia.
    + intros s acc Hfuel. cbn [JSON.parseMembers].
      destruct (JSON.eat 34 (JSON.skipWs s)) as [r|] eqn:Hq;
        [|split; [discriminate | intros; discriminate]].
      apply eat_skipWs_length in Hq.
      destruct (JSON.lexString r []) as [[key r1]|] eqn:Hkey;
        [|split; [discriminate | intros; discriminate]].
      apply (lexString_length (List.length r)) in Hkey; [|lia].
      destruct (JSON.eat 58 (JSON.skipWs r1)) as [r2|] eqn:Hcolon;
        [|split; [discriminate | intros; discriminate]].
      apply eat_skipWs_length in Hcolon.
      destruct (IHv r2 ltac:(lia)) as [Hn Hd].
      destruct (JSON.parseValue fuel r2) as [v r3| |];
        [|split; [discriminate | intros; discriminate] | contradiction].
      specialize (Hd v r3 eq_refl).
      destruct (JSON.eat 44 (JSON.skipWs r3)) as [r4|] eqn:Hcomma.
      { apply eat_skipWs_length in Hcomma.
        destruct (IHm r4 ((key, v) :: acc) ltac:(lia)) as [Hn' Hd'].
        split; [assumption|]. intros v' r0 E. apply Hd' in E. lia. }
      destruct (JSON.eat 125 (JSON.skipWs r3)) as [r4|] eqn:Hclose;
        [|split; [discriminate | intros; discriminate]].
      apply eat_skipWs_length in Hclose.
      split; [discriminate|]. intros v' r0 E. injection E as _ <-. lia.
    + intros s acc Hfuel. cbn [JSON.parseElements].
      destruct (IHv s ltac:(lia)) as [Hn Hd].
      destruct (JSON.parseValue fuel s) as [v r| |];
        [|split; [discriminate | intros; discriminate] | contradiction].
      specialize (Hd v r eq_refl).
      destruct (JSON.eat 44 (JSON.skipWs r)) as [r'|] eqn:Hcomma.
      { apply eat_skipWs_length in Hcomma.
        destruct (IHe r' (v :: acc) ltac:(lia)) as [Hn' Hd'].
        split; [assumption|]. intros v' r0 E. apply Hd' in E. lia. }
      destruct (JSON.eat 93 (JSON.skipWs r)) as [r'|] eqn:Hclose;
        [|split; [discriminate | intros; discriminate]].
      apply eat_skipWs_length in Hclose.
      split; [discriminate|]. intros v' r0 E. injection E as _ <-. lia.
Qed.

(** [JSON.parse] gives [None] only for a text that is not one JSON value. *)
Lemma parse_never_starved (s : JsStr.t) :
  JSON.parseValue (2 * List.length s + 2) s <> JSON.Starved.
Proof. apply parser_fuel. lia. Qed.

(** The matched span starts with a brace, so what [JSON.parse] makes of it
    is an object: the member reads of the response parser are reads on an
    object. *)
Lemma parseMembers_object (fuel : nat) :
  forall s acc v r,
    JSON.parseMembers fuel s acc = JSON.Done v r -> exists members, v = JSON.Obj members.
Proof.
  induction fuel as [|fuel IH]; intros s acc v r H; [discriminate|].
  cbn [JSON.parseMembers] in H.
  destruct (JSON.eat 34 (JSON.skipWs s)) as [r0|]; [|discriminate].
  destruct (JSON.lexString r0 []) as [[key r1]|]; [|discriminate].
  destruct (JSON.eat 58 (JSON.skipWs r1)) as [r2|]; [|discriminate].
  destruct (JSON.parseValue fuel r2) as [v0 r3| |]; try discriminate.
  destruct (JSON.eat 44 (JSON.skipWs r3)) as [r4|].
  - now apply IH in H.
  - destruct (JSON.eat 125 (JSON.skipWs r3)) as [r4|]; [|discriminate].
    injection H as <- _. now eexists.
Qed.

Lemma parse_matched_object (text jsonMatch : JsStr.t) (parsed : JSON.t) :
  JsStr.matchBraces text = Some jsonMatch ->
  JSON.parse jsonMatch = Some parsed ->
  exists members, parsed = JSON.Obj members.
Proof.
  unfold JsStr.matchBraces, JSON.parse.
  destruct (JsStr.afterFirst 123 text) as [r|]; [|discriminate].
  destruct (JsStr.beforeLast 125 r) as [body|]; [|discriminate].
  intros H. injection H as <-.
  replace (2 * List.length (123%N :: body ++ [125%N]) + 2)
    with (S (2 * List.length (123%N :: body ++ [125%N]) + 1)) by lia.
  cbn [JSON.parseValue JSON.skipWs].
  change (JSON.isWs 123) with false. cbv iota.
  change (123 =? 123)%N with true. cbv iota.
  destruct (JSON.eat 125 (JSON.skipWs (body ++ [125%N]))) as [r'|].
  - destruct (JSON.skipWs r'); [|discriminate].
    intros H. injection H as <-. now eexists.
  - destruct (JSON.parseMembers _ (body ++ [125%N]) []) as [v r'| |] eqn:Hm;
      try discriminate.
    apply parseMembers_object in Hm as [members ->].
    destruct (JSON.skipWs r'); [|discriminate].
    intros H. injection H as <-. now eexists.
Qed.

(** ** The response parser *)

(** The case analysis that follows the parser through a raw text: the span
    between the braces, the parse, the three fields, their truthiness and
    the placeholder check.  [early] closes the cases that end before the
    check. *)
Ltac parser_cases raw early :=
  destruct (JsStr.matchBraces (Llm.cleanResponse raw)) as [jsonMatch|] eqn:Hmatch;
    [|early];
  destruct (JSON.parse jsonMatch) as [parsed|] eqn:Hparse; [|early];
  destruct (JSON.get parsed (JsStr.lit "recipes")) as [rs|] eqn:Hrecipes;
    [|early];
  destruct (JSON.get parsed (JsStr.lit "nutrition")) as [nu|] eqn:Hnutrition;
    [|early];
  destruct (JSON.get parsed (JsStr.lit "storageTips")) as [tips|] eqn:Htips;
    [|early];
  destruct (JSON.truthy rs) eqn:Trecipes; [|early];
  destruct (JSON.truthy nu) eqn:Tnutrition; [|early];
  destruct (JSON.truthy tips) eqn:Ttips; [|early];
  cbn [andb];
  destruct (Llm.isPlaceholder rs nu) as [[|]|e] eqn:Hplaceholder.

(** The steps of the effect monad. *)
Ltac js_run :=
  cbv beta iota delta [bind ret throw tryCatch lift emit orNext
                       Db.draw Db.getRows Db.setRows Db.query].

(** The parser's result, read off the verdict on the raw text. *)
Lemma parseRecommendation_verdict (raw name : JsStr.t) (w : World) :
  fst (Llm.parseRecommendation (Some raw) name w)
  = Normal match Props.verdict raw with
           | Props.Accepted r => r
           | _ => Llm.defaultFor name
           end.
Proof.
  unfold Llm.parseRecommendation, Llm.parseAttempt, Props.verdict,
    Llm.getDefaultRecommendation.
  js_run. parser_cases raw reflexivity; reflexivity.
Qed.

(** A text that is no string at all ends in the catalog as well. *)
Lemma parseRecommendation_not_text (name : JsStr.t) (w : World) :
  fst (Llm.parseRecommendation None name w) = Normal (Llm.defaultFor name).
Proof. reflexivity. Qed.

Lemma request_result (d : Deployment) (target : Target) (name : JsStr.t) (w : World) :
  fst (Llm.request d target name w)
  = match generate d target (Llm.buildPrompt name) with
    | GenRejected e | GenNoEnvelope e => Throw e
    | GenNotText => Normal (Llm.defaultFor name)
    | GenText raw =>
        Normal match Props.verdict raw with
               | Props.Accepted r => r
               | _ => Llm.defaultFor name
               end
    end.
Proof.
  unfold Llm.request, bind, emit.
  destruct (generate d target (Llm.buildPrompt name)) as [e|e| |raw];
    try reflexivity.
  apply parseRecommendation_verdict.
Qed.

Lemma sentinel_has_no_entry :
  Llm.defaultFor (JsStr.lit "Unknown vegetable") = Llm.getFallbackRecommendation.
Proof. reflexivity. Qed.

(** The adapter's result for every label and every outcome of the
    generation request. *)
Lemma getLLMRecommendation_result (d : Deployment) (name : JsStr.t) (w : World) :
  fst (Llm.getLLMRecommendation d name w)
  = Normal (if JsStr.eqb name (JsStr.lit "Unknown vegetable")
            then Llm.getFallbackRecommendation
            else match generate d (Props.provider (env d)) (Llm.buildPrompt name) with
                 | GenText raw =>
                     match Props.verdict raw with
                     | Props.Accepted r => r
                     | _ => Llm.defaultFor name
                     end
                 | _ => Llm.defaultFor name
                 end).
Proof.
  unfold Llm.getLLMRecommendation.
  destruct (JsStr.eqb name (JsStr.lit "Unknown vegetable")) eqn:Hname;
    [reflexivity|].
  unfold tryCatch, Props.provider, Llm.getGroqRecommendation,
    Llm.getOllamaRecommendation.
  destruct (JsStr.eqb (Llm.LLM_PROVIDER (env d)) (JsStr.lit "groq")
            && isSet (GROQ_API_KEY (env d))).
  - pose proof (request_result d Groq name w) as H.
    destruct (Llm.request d Groq name w) as [[r|e] w'];
      simpl in H; destruct (generate d Groq (Llm.buildPrompt name));
      try discriminate; try (simpl; congruence); reflexivity.
  - pose proof (request_result d Ollama name w) as H.
    destruct (Llm.request d Ollama name w) as [[r|e] w'];
      simpl in H; destruct (generate d Ollama (Llm.buildPrompt name));
      try discriminate; try (simpl; congruence); reflexivity.
Qed.

(** ** The catalog *)





(** ** The placeholder check *)


Lemma verdict_accepted_inv (raw : JsStr.t) (r : Recommendation) :
  Props.verdict raw = Props.Accepted r ->
  exists jsonMatch parsed rs nu tips,
    JsStr.matchBraces (Llm.cleanResponse raw) = Some jsonMatch
    /\ JSON.parse jsonMatch = Some parsed
    /\ JSON.get parsed (JsStr.lit "recipes") = Some rs
    /\ JSON.get parsed (JsStr.lit "nutrition") = Some nu
    /\ JSON.get parsed (JsStr.lit "storageTips") = Some tips
    /\ JSON.truthy rs = true /\ JSON.truthy nu = true /\ JSON.truthy tips = true
    /\ Llm.isPlaceholder rs nu = Normal false
    /\ r = mkRecommendation (Llm.asList rs) nu (JSON.toString tips).
Proof.
  unfold Props.verdict. parser_cases raw discriminate; try discriminate.
  intros H. injection H as <-.
  exists jsonMatch, parsed, rs, nu, tips. repeat split; assumption || reflexivity.
Qed.

(** ** Properties of the recommendation provider adapter *)





(** C5: on the unknown-subject sentinel [getLLMRecommendation] returns the
    degraded fallback, whose nutrition has [info] and neither [calories] nor
    [vitamins], and leaves the world as it was: no event is added to the
    trace, so no catalog lookup is made and no request is sent. *)
Theorem getLLMRecommendation_unknown_short_circuits (d : Deployment) (w : World) :
  Llm.getLLMRecommendation d (JsStr.lit "Unknown vegetable") w
  = (Normal Llm.getFallbackRecommendation, w)
  /\ Props.hasKey (nutrition Llm.getFallbackRecommendation) "info" = true
  /\ Props.hasKey (nutrition Llm.getFallbackRecommendation) "calories" = false
  /\ Props.hasKey (nutrition Llm.getFallbackRecommendation) "vitamins" = false.
Proof. repeat split. Qed.






(** ** Runs of the adapter and of the handlers *)

Lemma getDefaultRecommendation_run (name : JsStr.t) (w : World) :
  Llm.getDefaultRecommendation name w
  = (Normal (Llm.defaultFor name),
     mkWorld (rows w) (CatalogLookup name :: trace w) (drawn w)).
Proof. reflexivity. Qed.

Lemma parseRecommendation_run (response : option JsStr.t) (name : JsStr.t) (w : World) :
  exists r w',
    Llm.parseRecommendation response name w = (Normal r, w')
    /\ rows w' = rows w /\ drawn w' = drawn w.
Proof.
  unfold Llm.parseRecommendation, Llm.parseAttempt, Llm.getDefaultRecommendation.
  js_run. destruct response as [raw|]; [|now eexists _, _].
  parser_cases raw ltac:(now eexists _, _); now eexists _, _.
Qed.

(** [getLLMRecommendation] always returns: whatever the request does, the
    run ends normally, with the table and the identifiers as they were. *)
Lemma getLLMRecommendation_run (d : Deployment) (name : JsStr.t) (w : World) :
  exists r w',
    Llm.getLLMRecommendation d name w = (Normal r, w')
    /\ rows w' = rows w /\ drawn w' = drawn w.
Proof.
  unfold Llm.getLLMRecommendation.
  destruct (JsStr.eqb name (JsStr.lit "Unknown vegetable")); [now eexists _, _|].
  unfold tryCatch, Llm.getGroqRecommendation, Llm.getOllamaRecommendation,
    Llm.request, bind, emit.
  destruct (JsStr.eqb (Llm.LLM_PROVIDER (env d)) (JsStr.lit "groq")
            && isSet (GROQ_API_KEY (env d)));
    match goal with
    | |- context [generate d ?t ?p] => destruct (generate d t p) as [e|e| |raw]
    end;
    try (now eexists _, _);
    match goal with
    | |- context [Llm.parseRecommendation ?resp ?n ?w0] =>
        destruct (parseRecommendation_run resp n w0) as (r & w' & -> & Hr & Hd)
    end;
    now exists r, w'.
Qed.

Lemma recommend_run (d : Deployment) (prediction : Prediction) (w : World) :
  exists r w',
    Predict.recommend d prediction w = (Normal r, w')
    /\ rows w' = rows w /\ drawn w' = drawn w.
Proof.
  unfold Predict.recommend.
  destruct (Predict.skipLLM (env d)); [now eexists _, _|].
  unfold tryCatch.
  destruct (getLLMRecommendation_run d (predicted_class prediction) w)
    as (r & w' & -> & Hr & Hd).
  now exists r, w'.
Qed.

Lemma predict_route (d : Deployment) (file : File) (w : World) :
  Props.admitted file ->
  App.app d (App.PostPredict (Some file)) w
  = App.finish d (Predict.predictHandler d (Some file) w).
Proof. unfold Props.admitted, App.app. intros H. now rewrite H. Qed.


(** ** Properties of the gateway's routes *)




(** C3: an upload of a supported type over 10MB is stopped by the upload
    middleware, so the handler never runs and no request leaves for a
    backend; but its error reaches the global error handler first, which
    answers every error itself: the status is 500, not 413, and the
    middleware that answers 413 is never reached. *)
Theorem oversize_upload_answered_by_errorHandler (d : Deployment) (file : File)
  (w : World) :
  App.fileFilter file = true ->
  (App.fileSizeLimit < size file)%N ->
  fst (App.app d (App.PostPredict (Some file)) w)
  = errorJson 500 (if envIs (NODE_ENV (env d)) "production"
                   then JsStr.lit "Internal server error"
                   else JsStr.lit "File too large")
  /\ status (fst (App.app d (App.PostPredict (Some file)) w)) <> 413%N
  /\ snd (App.app d (App.PostPredict (Some file)) w)
     = mkWorld (rows w)
         (ConsoleError [JsStr.lit "Error:"; JsStr.lit "File too large"] :: trace w)
         (drawn w)
  /\ filter Props.isHttpPost (trace (snd (App.app d (App.PostPredict (Some file)) w)))
     = filter Props.isHttpPost (trace w).
Proof.
  intros Hfilter Hsize. unfold App.app, App.upload.
  rewrite Hfilter. apply N.ltb_lt in Hsize. rewrite Hsize.
  repeat split. discriminate.
Qed.

Lemma oversize_upload_answered_by_errorHandler_witness :
  fst (App.app Examples.noDatabase
         (App.PostPredict (Some (Examples.photo (10 * 1024 * 1024 + 1)))) Props.idle)
  = errorJson 500 (JsStr.lit "File too large")
  /\ trace (snd (App.app Examples.noDatabase
                   (App.PostPredict (Some (Examples.photo (10 * 1024 * 1024 + 1))))
                   Props.idle))
     = [ConsoleError [JsStr.lit "Error:"; JsStr.lit "File too large"]].
Proof.
  destruct (oversize_upload_answered_by_errorHandler Examples.noDatabase
              (Examples.photo (10 * 1024 * 1024 + 1)) Props.idle)
    as (Hresponse & _ & Hworld & _).
  - reflexivity.
  - reflexivity.
  - split; [exact Hresponse | now rewrite Hworld].
Defined.




(** C7, as stated, fails on the delete operation: without a database the
    delete of a well-formed id answers 200 with the id echoed, not 404. *)
Lemma delete_without_database_succeeds :
  App.app Examples.noDatabase (App.DeleteHistory Examples.anId) Props.idle
  = (mkResponse 200 (DeletedBody Examples.anId), Props.idle).
Proof. vm_compute. reflexivity. Qed.

(** C7, amended: when no database is configured (neither [DATABASE_URL] nor
    [DB_HOST]), the list operation returns the empty sequence for every
    limit and offset, and the delete operation reports success for every
    well-formed id, answering 200 with [{success: true, deleted: {id}}] for
    the id it was given; neither sends a statement. *)
Theorem history_without_database (d : Deployment) (w : World) :
  Db.pool (env d) = false ->
  (forall limit offset, Db.getPredictions d limit offset w = (Normal [], w))
  /\ (forall limit offset,
        App.app d (App.GetHistory limit offset) w = (okJson (HistoryBody []), w))
  /\ (forall id, History.uuidRegexTest id = true ->
        App.app d (App.DeleteHistory id) w = (okJson (DeletedBody id), w)).
Proof.
  intros Hpool. split; [|split].
  - intros limit offset. unfold Db.getPredictions. now rewrite Hpool.
  - intros limit offset.
    unfold App.app, History.getHistory, orNext, bind, Db.getPredictions.
    now rewrite Hpool.
  - intros id Hid.
    unfold App.app, History.deleteHistory, orNext, bind, Db.deletePrediction.
    now rewrite Hid, Hpool.
Qed.

Lemma history_without_database_witness :
  (forall limit offset,
     Db.getPredictions Examples.noDatabase limit offset Props.idle
     = (Normal [], Props.idle))
  /\ (forall limit offset,
        App.app Examples.noDatabase (App.GetHistory limit offset) Props.idle
        = (okJson (HistoryBody []), Props.idle))
  /\ App.app Examples.noDatabase (App.DeleteHistory Examples.anIdUpperCase)
       Props.idle
     = (okJson (DeletedBody Examples.anIdUpperCase), Props.idle).
Proof.
  destruct (history_without_database Examples.noDatabase Props.idle)
    as (Hlist & Hget & Hdelete).
  - reflexivity.
  - split; [exact Hlist|]. split; [exact Hget|].
    apply Hdelete. reflexivity.
Defined.


Lemma filter_none {A} (f : A -> bool) (l : list A) :
  (forall x, In x l -> f x = false) -> filter f l = [].
Proof.
  induction l as [|x l IH]; intros H; [reflexivity|].
  simpl. rewrite (H x (or_introl eq_refl)). apply IH.
  intros y Hy. apply H. now right.
Qed.

Lemma filter_negb_all {A} (f : A -> bool) (l : list A) :
  (forall x, In x l -> f x = false) -> filter (fun x => negb (f x)) l = l.
Proof.
  induction l as [|x l IH]; intros H; [reflexivity|].
  simpl. rewrite (H x (or_introl eq_refl)). simpl. f_equal. apply IH.
  intros y Hy. apply H. now right.
Qed.




(** * More properties of the code *)

Local Open Scope N_scope.

(** ** The span between the braces *)

Lemma afterFirst_spec (c : N) (s r : JsStr.t) :
  JsStr.afterFirst c s = Some r
  <-> exists pre, s = pre ++ c :: r /\ ~ In c pre.
Proof.
  revert r; induction s as [|x s IH]; intros r; simpl.
  - split; [discriminate|]. intros ([|y pre] & H & _); discriminate.
  - destruct (N.eqb_spec x c) as [->|Hx].
    + split.
      * intros H. injection H as ->. exists []. split; [reflexivity | tauto].
      * intros ([|y pre] & H & Hpre).
        -- now injection H as ->.
        -- injection H as -> _. exfalso. apply Hpre. now left.
    + rewrite IH. split.
      * intros (pre & -> & Hpre). exists (x :: pre). split; [reflexivity|].
        intros [H|H]; [congruence | tauto].
      * intros ([|y pre] & H & Hpre).
        -- injection H as H _. congruence.
        -- injection H as -> ->. exists pre. split; [reflexivity|].
           intros H. apply Hpre. now right.
Qed.

Lemma beforeLast_spec (c : N) (s b : JsStr.t) :
  JsStr.beforeLast c s = Some b
  <-> exists post, s = b ++ c :: post /\ ~ In c post.
Proof.
  unfold JsStr.beforeLast. split.
  - destruct (JsStr.afterFirst c (rev s)) as [r|] eqn:H; [|discriminate].
    simpl. intros E. injection E as <-.
    apply afterFirst_spec in H as (pre & H & Hpre).
    exists (rev pre). split.
    + rewrite <- (rev_involutive s), H, rev_app_distr. simpl.
      now rewrite <- app_assoc.
    + now rewrite <- in_rev.
  - intros (post & -> & Hpost).
    assert (H : JsStr.afterFirst c (rev (b ++ c :: post)) = Some (rev b)).
    { apply afterFirst_spec. exists (rev post). split.
      - rewrite rev_app_distr. simpl. now rewrite <- app_assoc.
      - now rewrite <- in_rev. }
    rewrite H. simpl. now rewrite rev_involutive.
Qed.

Lemma matchBraces_spec (s m : JsStr.t) :
  JsStr.matchBraces s = Some m
  <-> exists pre body post,
        s = pre ++ 123 :: body ++ 125 :: post
        /\ ~ In 123 pre /\ ~ In 125 post
        /\ m = 123 :: body ++ [125].
Proof.
  unfold JsStr.matchBraces. split.
  - destruct (JsStr.afterFirst 123 s) as [r|] eqn:Hr; [|discriminate].
    destruct (JsStr.beforeLast 125 r) as [b|] eqn:Hb; [|discriminate].
    intros E. injection E as <-.
    apply afterFirst_spec in Hr as (pre & -> & Hpre).
    apply beforeLast_spec in Hb as (post & -> & Hpost).
    now exists pre, b, post.
  - intros (pre & body & post & -> & Hpre & Hpost & ->).
    assert (Hr : JsStr.afterFirst 123 (pre ++ 123 :: body ++ 125 :: post)
                 = Some (body ++ 125 :: post))
      by (apply afterFirst_spec; now exists pre).
    assert (Hb : JsStr.beforeLast 125 (body ++ 125 :: post) = Some body)
      by (apply beforeLast_spec; now exists post).
    now rewrite Hr, Hb.
Qed.

Lemma afterFirst_none (c : N) (s : JsStr.t) :
  JsStr.afterFirst c s = None <-> ~ In c s.
Proof.
  induction s as [|x s IH]; simpl; [tauto|].
  destruct (N.eqb_spec x c) as [->|Hx].
  - split; [discriminate | intros H; exfalso; apply H; now left].
  - rewrite IH. split; [intros H [E|E]; [congruence | tauto] | tauto].
Qed.

Lemma afterFirst_suffix (c : N) (pre a r : JsStr.t) :
  JsStr.afterFirst c (pre ++ c :: a) = Some r -> exists x, r = x ++ a.
Proof.
  induction pre as [|y pre IH]; simpl.
  - rewrite N.eqb_refl. intros H. injection H as <-. now exists [].
  - destruct (y =? c).
    + intros H. injection H as <-. exists (pre ++ [c]).
      now rewrite <- app_assoc.
    + exact IH.
Qed.

Lemma matchBraces_none (s : JsStr.t) :
  JsStr.matchBraces s = None
  <-> ~ exists pre mid post, s = pre ++ 123 :: mid ++ 125 :: post.
Proof.
  split.
  - intros H (pre & mid & post & ->).
    unfold JsStr.matchBraces, JsStr.beforeLast in H.
    destruct (JsStr.afterFirst 123 (pre ++ 123 :: mid ++ 125 :: post))
      as [r|] eqn:Hr.
    + apply afterFirst_suffix in Hr as [x ->].
      destruct (JsStr.afterFirst 125 (rev (x ++ mid ++ 125 :: post))) eqn:Hrev;
        [discriminate|].
      apply afterFirst_none in Hrev. apply Hrev. rewrite <- in_rev.
      rewrite !in_app_iff. right. right. now left.
    + apply afterFirst_none in Hr. apply Hr.
      rewrite in_app_iff. right. now left.
  - intros H. destruct (JsStr.matchBraces s) as [m|] eqn:Hm; [|reflexivity].
    exfalso. apply H.
    apply matchBraces_spec in Hm as (pre & body & post & -> & _).
    now exists pre, body, post.
Qed.

(** X1: the JSON candidate that [parseRecommendation] cuts out of the
    cleaned text is the span from the first opening brace to the last
    closing brace: what stands before the first [{] and after the last [}]
    is dropped, whatever it is, and nested braces stay inside.  There is no
    candidate exactly when no closing brace follows an opening one. *)
Theorem matchBraces_first_to_last (s : JsStr.t) :
  (forall m,
     JsStr.matchBraces s = Some m
     <-> exists pre body post,
           s = pre ++ 123 :: body ++ 125 :: post
           /\ ~ In 123 pre /\ ~ In 125 post
           /\ m = 123 :: body ++ [125])
  /\ (JsStr.matchBraces s = None
      <-> ~ exists pre mid post, s = pre ++ 123 :: mid ++ 125 :: post).
Proof. split; [intros m; apply matchBraces_spec | apply matchBraces_none]. Qed.

(** ** Code fences *)

Lemma startsWith_fence (s : JsStr.t) :
  JsStr.startsWith s Terms.fence
  = match s with
    | a :: b :: c :: _ => (a =? 96) && ((b =? 96) && (c =? 96))
    | _ => false
    end.
Proof.
  destruct s as [|a [|b [|c s]]]; cbn; rewrite ?andb_false_r; try reflexivity.
  destruct s; now rewrite andb_true_r.
Qed.

Lemma startsWith_fence_head (c : N) (s : JsStr.t) :
  (c =? 96) = false -> JsStr.startsWith (c :: s) Terms.fence = false.
Proof. intros H. cbn. now rewrite H. Qed.

Lemma removeAll_fence_free (s : JsStr.t) (skip : nat) :
  JsStr.includes (JsStr.removeAll Terms.fence s skip) Terms.fence = false.
Proof.
  revert skip. induction s as [|c s IH]; intros skip; [reflexivity|].
  cbn [JsStr.removeAll]. destruct skip as [|k]; [|apply IH].
  destruct (JsStr.startsWith (c :: s) Terms.fence) eqn:Hs; [apply IH|].
  cbn [JsStr.includes]. rewrite IH, orb_false_r.
  destruct (c =? 96) eqn:Hc; [|now apply startsWith_fence_head].
  rewrite startsWith_fence in Hs. rewrite startsWith_fence.
  destruct s as [|x s]; [reflexivity|].
  cbn [JsStr.removeAll].
  destruct (x =? 96) eqn:Hx.
  2:{ rewrite (startsWith_fence_head x s Hx), Hx.
      destruct (JsStr.removeAll Terms.fence s 0);
        [reflexivity | now rewrite andb_false_r]. }
  destruct s as [|y s]; [cbn; now rewrite andb_false_r|].
  rewrite Hc in Hs. cbn [andb] in Hs.
  assert (Hxy : JsStr.startsWith (x :: y :: s) Terms.fence = false).
  { rewrite startsWith_fence. destruct s; [reflexivity|].
    rewrite Hs. cbn [andb]. apply andb_false_r. }
  rewrite Hxy. cbn [JsStr.removeAll].
  rewrite (startsWith_fence_head y s Hs), Hx, Hs. apply andb_false_r.
Qed.

Lemma trimStart_suffix (s : JsStr.t) : exists pre, s = pre ++ JsStr.trimStart s.
Proof.
  induction s as [|c s [pre IH]]; [now exists []|].
  simpl. destruct (JsStr.isWhiteSpace c).
  - exists (c :: pre). simpl. now rewrite <- IH.
  - now exists [].
Qed.

Lemma trim_substring (s : JsStr.t) :
  exists pre post, s = pre ++ JsStr.trim s ++ post.
Proof.
  unfold JsStr.trim, JsStr.trimEnd.
  destruct (trimStart_suffix s) as [pre Hs].
  destruct (trimStart_suffix (rev (JsStr.trimStart s))) as [post Hr].
  exists pre, (rev post).
  rewrite <- rev_app_distr, <- Hr, rev_involutive. exact Hs.
Qed.

Lemma includes_substring (s pre post pat : JsStr.t) :
  JsStr.includes (pre ++ s ++ post) pat = false -> JsStr.includes s pat = false.
Proof.
  intros H. destruct (JsStr.includes s pat) eqn:Hs; [|reflexivity].
  apply includes_spec in Hs as (b & a & ->).
  assert (E : JsStr.includes (pre ++ (b ++ pat ++ a) ++ post) pat = true).
  { apply includes_spec. exists (pre ++ b), (a ++ post).
    now rewrite <- !app_assoc. }
  congruence.
Qed.

(** X2: whatever the generated text is, after the two replacements and the
    trim at the head of [parseRecommendation] no code fence (three
    backticks in a row) is left in it. *)
Theorem cleanResponse_has_no_fence (response : JsStr.t) :
  JsStr.includes (Llm.cleanResponse response) (JsStr.lit "```") = false.
Proof.
  unfold Llm.cleanResponse. fold Terms.fence.
  destruct (trim_substring
              (JsStr.removeAll Terms.fence
                 (JsStr.removeAll (JsStr.lit "```json") response 0) 0))
    as (pre & post & H).
  apply (includes_substring _ pre post). rewrite <- H.
  apply removeAll_fence_free.
Qed.

Lemma existsb_notIn (c : N) (s : JsStr.t) :
  existsb (N.eqb c) s = false -> ~ In c s.
Proof.
  intros H Hin.
  assert (E : existsb (N.eqb c) s = true)
    by (apply existsb_exists; exists c; split; [assumption | apply N.eqb_refl]).
  congruence.
Qed.

Lemma removeAll_passes (pat x rest : JsStr.t) :
  ~ In 96 x ->
  JsStr.removeAll (96 :: pat) (x ++ rest) 0
  = x ++ JsStr.removeAll (96 :: pat) rest 0.
Proof.
  induction x as [|c x IH]; intros Hx; [reflexivity|].
  cbn [app JsStr.removeAll JsStr.startsWith].
  destruct (N.eqb_spec c 96) as [->|Hc]; [exfalso; apply Hx; now left|].
  cbn [andb]. f_equal. apply IH. intros H. apply Hx. now right.
Qed.

Lemma removeAll_nil (pat : JsStr.t) (skip : nat) :
  JsStr.removeAll pat [] skip = [].
Proof. reflexivity. Qed.

Lemma trimStart_app (a b : JsStr.t) :
  JsStr.trimStart (a ++ b)
  = if forallb JsStr.isWhiteSpace a then JsStr.trimStart b
    else JsStr.trimStart a ++ b.
Proof.
  induction a as [|c a IH]; [reflexivity|].
  cbn [app JsStr.trimStart forallb].
  destruct (JsStr.isWhiteSpace c); [exact IH | reflexivity].
Qed.

Lemma trimStart_all (a : JsStr.t) :
  forallb JsStr.isWhiteSpace a = true -> JsStr.trimStart a = [].
Proof.
  induction a as [|c a IH]; [reflexivity|].
  cbn [JsStr.trimStart forallb].
  destruct (JsStr.isWhiteSpace c); [exact IH | discriminate].
Qed.

Lemma trimEnd_snoc (s : JsStr.t) (c : N) :
  JsStr.isWhiteSpace c = true -> JsStr.trimEnd (s ++ [c]) = JsStr.trimEnd s.
Proof.
  intros H. unfold JsStr.trimEnd. rewrite rev_app_distr. cbn [rev app JsStr.trimStart].
  now rewrite H.
Qed.

(** White space after the text is trimmed away with it. *)
Lemma trim_snoc (s : JsStr.t) (c : N) :
  JsStr.isWhiteSpace c = true -> JsStr.trim (s ++ [c]) = JsStr.trim s.
Proof.
  intros H. unfold JsStr.trim. rewrite trimStart_app.
  destruct (forallb JsStr.isWhiteSpace s) eqn:Hs.
  - rewrite (trimStart_all s Hs). cbn [JsStr.trimStart]. now rewrite H.
  - now apply trimEnd_snoc.
Qed.

Lemma removeAll_keep (pat s : JsStr.t) (c : N) :
  JsStr.startsWith (c :: s) pat = false ->
  JsStr.removeAll pat (c :: s) 0 = c :: JsStr.removeAll pat s 0.
Proof. intros H. cbn [JsStr.removeAll]. now rewrite H. Qed.

Lemma removeAll_skip (pat s : JsStr.t) (k : nat) :
  JsStr.removeAll pat s k = JsStr.removeAll pat (skipn k s) 0.
Proof.
  revert k. induction s as [|c s IH]; intros [|k]; try reflexivity.
  cbn [JsStr.removeAll skipn]. apply IH.
Qed.

Lemma startsWith_app (pat rest : JsStr.t) : JsStr.startsWith (pat ++ rest) pat = true.
Proof. apply startsWith_spec. now exists rest. Qed.

(** One occurrence of the pattern at the head, with the line feed after
    it, goes. *)
Lemma removeAll_occurrence (p : N) (pat rest : JsStr.t) :
  JsStr.removeAll (p :: pat) ((p :: pat) ++ rest) 0
  = JsStr.removeAll (p :: pat)
      (match rest with
       | c :: rest' => if c =? 10 then rest' else rest
       | [] => []
       end) 0.
Proof.
  cbn [app]. cbn [JsStr.removeAll].
  change (p :: pat ++ rest) with ((p :: pat) ++ rest).
  rewrite startsWith_app, removeAll_skip.
  assert (E1 : skipn (Datatypes.length (p :: pat)) ((p :: pat) ++ rest) = rest)
    by (rewrite skipn_app, skipn_all, Nat.sub_diag; reflexivity).
  rewrite E1. cbn [List.length]. rewrite Nat.sub_succ, Nat.sub_0_r.
  rewrite skipn_app.
  destruct rest as [|c rest'].
  - cbn [JsStr.startsWith]. rewrite Nat.add_0_r, skipn_all, Nat.sub_diag.
    reflexivity.
  - cbn [JsStr.startsWith]. destruct (c =? 10).
    + replace (JsStr.startsWith rest' []) with true by (now destruct rest').
      cbn [andb]. rewrite skipn_all2 by lia.
      replace (Datatypes.length pat + 1 - Datatypes.length pat)%nat
        with 1%nat by lia.
      reflexivity.
    + cbn [andb]. rewrite Nat.add_0_r, skipn_all, Nat.sub_diag. reflexivity.
Qed.

(** X3: a text without backticks that comes inside a code block, opened
    by [```json] or by [```] on a line of its own and closed by [```] on a
    line of its own, is cleaned to its trim; so is the text that comes
    bare. *)
Theorem cleanResponse_unwraps_fence (text : JsStr.t) :
  ~ In 96 text ->
  Llm.cleanResponse (JsStr.lit "```json
" ++ text ++ JsStr.lit "
```") = JsStr.trim text
  /\ Llm.cleanResponse (JsStr.lit "```
" ++ text ++ JsStr.lit "
```") = JsStr.trim text
  /\ Llm.cleanResponse text = JsStr.trim text.
Proof.
  intros Htext. unfold Llm.cleanResponse.
  change (JsStr.lit "```json") with (96 :: JsStr.lit "``json").
  change (JsStr.lit "```") with (96 :: JsStr.lit "``").
  assert (Hplain : forall pat, JsStr.removeAll (96 :: pat) text 0 = text).
  { intros pat. rewrite <- (app_nil_r text) at 1.
    rewrite removeAll_passes by assumption. apply app_nil_r. }
  assert (Hend : JsStr.removeAll (96 :: JsStr.lit "``")
                   (text ++ 10 :: (96 :: JsStr.lit "``") ++ []) 0
                 = text ++ [10]).
  { rewrite removeAll_passes by assumption. cbn [JsStr.removeAll].
    change (JsStr.startsWith _ _) with false. cbv iota.
    now rewrite removeAll_occurrence. }
  split; [|split].
  - change (JsStr.lit "```json
" ++ text ++ JsStr.lit "
```") with ((96 :: JsStr.lit "``json") ++ 10 :: text ++ JsStr.lit "
```").
    rewrite removeAll_occurrence. cbv beta iota delta [N.eqb Pos.eqb].
    rewrite removeAll_passes by assumption.
    change (JsStr.removeAll (96 :: JsStr.lit "``json") (JsStr.lit "
```") 0) with (10 :: (96 :: JsStr.lit "``") ++ []).
    rewrite Hend. now apply trim_snoc.
  - assert (E : JsStr.removeAll (96 :: JsStr.lit "``json")
                 (JsStr.lit "```
" ++ text ++ JsStr.lit "
```") 0
               = (96 :: JsStr.lit "``") ++ 10 :: text
                 ++ 10 :: (96 :: JsStr.lit "``") ++ []).
    { change (JsStr.lit "```
") with [96; 96; 96; 10]. cbn [app].
      rewrite !removeAll_keep by reflexivity.
      rewrite removeAll_passes by assumption. reflexivity. }
    rewrite E, removeAll_occurrence. cbv beta iota delta [N.eqb Pos.eqb].
    rewrite Hend. now apply trim_snoc.
  - now rewrite !Hplain.
Qed.

Lemma cleanResponse_unwraps_fence_witness :
  ~ In 96 Samples.carrotJson
  /\ Llm.cleanResponse (JsStr.lit "```json
" ++ Samples.carrotJson ++ JsStr.lit "
```") = Samples.carrotJson.
Proof.
  assert (H : ~ In 96 Samples.carrotJson)
    by (apply existsb_notIn; vm_compute; reflexivity).
  split; [exact H|].
  destruct (cleanResponse_unwraps_fence Samples.carrotJson H) as [-> _].
  vm_compute. reflexivity.
Defined.

(** ** What the response parser accepts *)

Lemma some_false (check : JSON.t -> Completion bool) (items : list JSON.t) :
  Llm.some check items = Normal false ->
  forall x, In x items -> check x = Normal false.
Proof.
  induction items as [|y items IH]; intros H x Hin; [contradiction|].
  simpl in H. destruct (check y) as [[|]|e] eqn:Hy; try discriminate.
  destruct Hin as [<-|Hin]; [assumption | now apply IH].
Qed.

Lemma some_all_false (check : JSON.t -> Completion bool) (items : list JSON.t) :
  (forall x, In x items -> check x = Normal false) ->
  Llm.some check items = Normal false.
Proof.
  induction items as [|y items IH]; intros H; [reflexivity|].
  simpl. rewrite (H y (or_introl eq_refl)). apply IH.
  intros x Hx. apply H. now right.
Qed.

Lemma templatedRecipe_false (x : JSON.t) :
  Llm.templatedRecipe x = Normal false -> Terms.realRecipe x.
Proof.
  destruct x as [| | |s| |]; try discriminate.
  simpl. intros H. injection H as H. apply orb_false_iff in H as [H1 H2].
  exists s. split; [reflexivity|].
  split; intros C; apply includes_anyCase in C; congruence.
Qed.

Lemma includes_lower_anyCase (s : JsStr.t) (marker : string) :
  JsStr.includes (JsStr.toLowerCase s) (JsStr.lit marker) = true ->
  Props.containsAnyCase s marker.
Proof.
  intros H. apply includes_spec in H as (b & a & H).
  unfold JsStr.toLowerCase in H.
  apply map_eq_app in H as (sb & rest & -> & Hb & H).
  apply map_eq_app in H as (occ & sa & -> & Hocc & Ha).
  now exists sb, occ, sa.
Qed.

Lemma realRecipe_templatedRecipe (x : JSON.t) :
  Terms.realRecipe x -> Llm.templatedRecipe x = Normal false.
Proof.
  intros (s & -> & H1 & H2). simpl. f_equal. apply orb_false_iff. split.
  - destruct (JsStr.includes _ (JsStr.lit "resep 1")) eqn:E; [|reflexivity].
    exfalso. apply H1. now apply includes_lower_anyCase.
  - destruct (JsStr.includes _ (JsStr.lit "nama resep")) eqn:E; [|reflexivity].
    exfalso. apply H2. now apply includes_lower_anyCase.
Qed.

(** X4: when [parseRecommendation] returns anything but the catalog's
    recommendation for the label, a [recipes] field of the payload that is
    a list is returned as it is, each of its items is a string with neither
    'resep 1' nor 'nama resep' in it in any letter case, and a [calories]
    that is a string has no 'XX' in it. *)
Theorem parseRecommendation_accepts_no_template (raw name : JsStr.t) (w : World)
  (r : Recommendation) :
  fst (Llm.parseRecommendation (Some raw) name w) = Normal r ->
  r = Llm.defaultFor name
  \/ ((forall parsed items,
         Terms.payload raw = Some parsed ->
         JSON.get parsed (JsStr.lit "recipes") = Some (JSON.Arr items) ->
         recipes r = items /\ forall x, In x items -> Terms.realRecipe x)
      /\ forall calories,
           JSON.get (nutrition r) (JsStr.lit "calories") = Some (JSON.Str calories) ->
           JsStr.includes calories (JsStr.lit "XX") = false).
Proof.
  rewrite parseRecommendation_verdict. intros H. injection H as <-.
  destruct (Props.verdict raw) as [| | | | |r] eqn:Hv; try (now left).
  right. apply verdict_accepted_inv in Hv
    as (jsonMatch & parsed & rs & nu & tips & Hm & Hp & Hrs & Hnu & Htips
        & Trs & Tnu & Ttips & Hph & ->).
  unfold Llm.isPlaceholder in Hph.
  destruct (Llm.templatedRecipes rs) as [[|]|e] eqn:Hrecipes; try discriminate.
  split.
  - intros parsed' items. unfold Terms.payload. rewrite Hm, Hp.
    intros E. injection E as <-. rewrite Hrs. intros E. injection E as ->.
    split; [reflexivity|]. intros x Hx. apply templatedRecipe_false.
    now apply (some_false _ items).
  - cbn [nutrition]. intros calories Hc. unfold Llm.templatedCalories in Hph.
    rewrite Hc in Hph. cbn [JSON.truthy] in Hph.
    destruct calories as [|c calories]; [reflexivity|].
    cbn in Hph. now injection Hph.
Qed.

Lemma parseRecommendation_accepts_no_template_witness :
  fst (Llm.parseRecommendation (Some Samples.carrotAnswer) (JsStr.lit "Carrot")
         Props.idle)
  = Normal (mkRecommendation Samples.carrotRecipes Samples.carrotNutrition
              (JsStr.lit "Simpan di kulkas"))
  /\ forall x, In x Samples.carrotRecipes -> Terms.realRecipe x.
Proof.
  assert (H : fst (Llm.parseRecommendation (Some Samples.carrotAnswer)
                     (JsStr.lit "Carrot") Props.idle)
              = Normal (mkRecommendation Samples.carrotRecipes
                          Samples.carrotNutrition (JsStr.lit "Simpan di kulkas")))
    by (vm_compute; reflexivity).
  split; [exact H|].
  destruct (parseRecommendation_accepts_no_template _ _ _ _ H) as [E | [Hr _]].
  - vm_compute in E. discriminate E.
  - apply (Hr Samples.carrotParsed Samples.carrotRecipes);
      vm_compute; reflexivity.
Defined.

Lemma realRecipe_of_includes (s : JsStr.t) :
  JsStr.includes (JsStr.toLowerCase s) (JsStr.lit "resep 1") = false ->
  JsStr.includes (JsStr.toLowerCase s) (JsStr.lit "nama resep") = false ->
  Terms.realRecipe (JSON.Str s).
Proof.
  intros H1 H2. exists s. split; [reflexivity|].
  split; intros C; apply includes_anyCase in C; congruence.
Qed.

(** X5: an answer in order is returned as it is.  When the payload's
    [recipes] is a list of strings free of the two markers, its [nutrition]
    is truthy with a [calories] that is absent or a string without 'XX',
    and its [storageTips] is a non-empty string, [parseRecommendation]
    returns these three values and does nothing else: no catalog lookup, no
    line on the console. *)
Theorem parseRecommendation_accepts (raw name : JsStr.t) (w : World)
  (parsed nu : JSON.t) (items : list JSON.t) (tips : JsStr.t) :
  Terms.payload raw = Some parsed ->
  JSON.get parsed (JsStr.lit "recipes") = Some (JSON.Arr items) ->
  JSON.get parsed (JsStr.lit "nutrition") = Some nu ->
  JSON.get parsed (JsStr.lit "storageTips") = Some (JSON.Str tips) ->
  (forall x, In x items -> Terms.realRecipe x) ->
  JSON.truthy nu = true ->
  Terms.realCalories nu ->
  tips <> [] ->
  Llm.parseRecommendation (Some raw) name w
  = (Normal (mkRecommendation items nu tips), w).
Proof.
  unfold Terms.payload, Terms.realCalories.
  intros Hpayload Hrs Hnu Htips Hitems Tnu Hcal Hne.
  unfold Llm.parseRecommendation, Llm.parseAttempt. js_run.
  destruct (JsStr.matchBraces (Llm.cleanResponse raw)) as [jsonMatch|];
    [|discriminate].
  rewrite Hpayload, Hrs, Hnu, Htips, Tnu.
  assert (Ttips : JSON.truthy (JSON.Str tips) = true)
    by (destruct tips; [contradiction | reflexivity]).
  rewrite Ttips. cbn [JSON.truthy andb].
  assert (Hph : Llm.isPlaceholder (JSON.Arr items) nu = Normal false).
  { unfold Llm.isPlaceholder. cbn [Llm.templatedRecipes].
    rewrite some_all_false
      by (intros x Hx; now apply realRecipe_templatedRecipe, Hitems).
    unfold Llm.templatedCalories.
    destruct (JSON.get nu (JsStr.lit "calories")) as [[| | |s| |]|];
      try contradiction; try reflexivity.
    destruct s; [reflexivity|]. cbn [JSON.truthy]. now rewrite Hcal. }
  rewrite Hph. destruct w. reflexivity.
Qed.

Lemma parseRecommendation_accepts_witness :
  Terms.payload Samples.carrotAnswer = Some Samples.carrotParsed
  /\ (forall x, In x Samples.carrotRecipes -> Terms.realRecipe x)
  /\ Terms.realCalories Samples.carrotNutrition
  /\ Llm.parseRecommendation (Some Samples.carrotAnswer) (JsStr.lit "Carrot")
       Props.idle
     = (Normal (mkRecommendation Samples.carrotRecipes Samples.carrotNutrition
                  (JsStr.lit "Simpan di kulkas")),
        Props.idle).
Proof.
  assert (Hp : Terms.payload Samples.carrotAnswer = Some Samples.carrotParsed)
    by (vm_compute; reflexivity).
  assert (Hr : forall x, In x Samples.carrotRecipes -> Terms.realRecipe x).
  { intros x [<-|[<-|[<-|[]]]]; apply realRecipe_of_includes;
      vm_compute; reflexivity. }
  assert (Hc : Terms.realCalories Samples.carrotNutrition)
    by (vm_compute; reflexivity).
  split; [exact Hp|]. split; [exact Hr|]. split; [exact Hc|].
  apply (parseRecommendation_accepts Samples.carrotAnswer (JsStr.lit "Carrot")
           Props.idle Samples.carrotParsed Samples.carrotNutrition
           Samples.carrotRecipes (JsStr.lit "Simpan di kulkas"));
    try assumption; try (vm_compute; reflexivity).
  discriminate.
Defined.

(** ** The prompt sent back *)

Lemma matchBraces_inside (pre mid post m : JsStr.t) :
  JsStr.matchBraces mid = Some m ->
  ~ In 123 pre -> ~ In 125 post ->
  JsStr.matchBraces (pre ++ mid ++ post) = Some m.
Proof.
  intros Hm Hpre Hpost.
  apply matchBraces_spec in Hm as (a & body & b & -> & Ha & Hb & ->).
  apply matchBraces_spec. exists (pre ++ a), body, (b ++ post).
  repeat split.
  - rewrite <- !app_assoc. cbn [app]. rewrite <- !app_assoc. reflexivity.
  - rewrite in_app_iff. tauto.
  - rewrite in_app_iff. tauto.
Qed.

Lemma removeAll_plain (pat s : JsStr.t) :
  ~ In 96 s -> JsStr.removeAll (96 :: pat) s 0 = s.
Proof.
  intros H. rewrite <- (app_nil_r s) at 1.
  rewrite removeAll_passes by assumption. apply app_nil_r.
Qed.

Lemma trimStart_black (a rest : JsStr.t) :
  Terms.startsBlack a = true -> JsStr.trimStart (a ++ rest) = a ++ rest.
Proof.
  destruct a as [|c a]; [discriminate|]. cbn [Terms.startsBlack app JsStr.trimStart].
  now destruct (JsStr.isWhiteSpace c).
Qed.

(** A text that neither begins nor ends with white space is its own trim. *)
Lemma trim_between (a m z : JsStr.t) :
  Terms.startsBlack a = true -> Terms.startsBlack (rev z) = true ->
  JsStr.trim (a ++ m ++ z) = a ++ m ++ z.
Proof.
  intros Ha Hz. unfold JsStr.trim, JsStr.trimEnd.
  rewrite trimStart_black by assumption.
  rewrite (app_assoc a m z), rev_app_distr.
  rewrite trimStart_black by assumption.
  now rewrite <- rev_app_distr, rev_involutive.
Qed.

Lemma cleanResponse_plain (a m z : JsStr.t) :
  ~ In 96 (a ++ m ++ z) ->
  Terms.startsBlack a = true -> Terms.startsBlack (rev z) = true ->
  Llm.cleanResponse (a ++ m ++ z) = a ++ m ++ z.
Proof.
  intros H Ha Hz. unfold Llm.cleanResponse.
  change (JsStr.lit "```json") with (96 :: JsStr.lit "``json").
  change (JsStr.lit "```") with (96 :: JsStr.lit "``").
  rewrite !(removeAll_plain _ _ H). now apply trim_between.
Qed.

Lemma buildPrompt_parts (name : JsStr.t) :
  exists p1 p2 p3 p4,
    Llm.buildPrompt name
    = p1 ++ (Llm.translateToIndonesian name ++ p2
             ++ Llm.translateToIndonesian name ++ p3
             ++ Llm.translateToIndonesian name) ++ p4
    /\ existsb (N.eqb 96) (p1 ++ p2 ++ p3 ++ p4) = false
    /\ existsb (N.eqb 123) p1 = false
    /\ existsb (N.eqb 125) (p3 ++ p4) = false
    /\ Terms.startsBlack p1 = true /\ Terms.startsBlack (rev p4) = true
    /\ JsStr.matchBraces p2 <> None
    /\ forall raw,
         JsStr.matchBraces (Llm.cleanResponse raw) = JsStr.matchBraces p2 ->
         Props.verdict raw = Props.Placeholder.
Proof.
  unfold Llm.buildPrompt. cbn [JsStr.concat].
  match goal with
  | |- context [?p1 ++ _ ++ ?p2 ++ _ ++ ?p3 ++ _ ++ ?p4 ++ []] =>
      exists p1, p2, p3, p4
  end.
  split; [|split; [|split; [|split; [|split; [|split; [|split]]]]]].
  - rewrite <- !app_assoc, app_nil_r. reflexivity.
  - vm_compute. reflexivity.
  - vm_compute. reflexivity.
  - vm_compute. reflexivity.
  - vm_compute. reflexivity.
  - vm_compute. reflexivity.
  - vm_compute. discriminate.
  - intros raw Hraw. unfold Props.verdict. rewrite Hraw. vm_compute. reflexivity.
Qed.

Lemma existsb_app_false {A} (f : A -> bool) (a b : list A) :
  existsb f (a ++ b) = false -> existsb f a = false /\ existsb f b = false.
Proof. rewrite existsb_app. apply orb_false_iff. Qed.

Lemma verdict_of_echo (name : JsStr.t) :
  ~ In 96 (Llm.translateToIndonesian name) ->
  ~ In 123 (Llm.translateToIndonesian name) ->
  ~ In 125 (Llm.translateToIndonesian name) ->
  Props.verdict (Llm.buildPrompt name) = Props.Placeholder.
Proof.
  intros Hq Ho Hc.
  destruct (buildPrompt_parts name)
    as (p1 & p2 & p3 & p4 & -> & Hticks & Hopen & Hclose & Ha & Hz & Hsome & Hm).
  set (t := Llm.translateToIndonesian name) in *.
  apply existsb_app_false in Hticks as [T1 Hticks].
  apply existsb_app_false in Hticks as [T2 Hticks].
  apply existsb_app_false in Hticks as [T3 T4].
  apply existsb_app_false in Hclose as [C3 C4].
  apply existsb_notIn in T1, T2, T3, T4, C3, C4, Hopen.
  apply Hm.
  rewrite cleanResponse_plain; try assumption.
  2:{ rewrite !in_app_iff. tauto. }
  destruct (JsStr.matchBraces p2) as [m|] eqn:Hp2; [|contradiction].
  replace (p1 ++ (t ++ p2 ++ t ++ p3 ++ t) ++ p4)
    with ((p1 ++ t) ++ p2 ++ (t ++ p3 ++ t ++ p4)).
  2:{ rewrite <- !app_assoc. reflexivity. }
  apply (matchBraces_inside _ _ _ m Hp2); rewrite ?in_app_iff; tauto.
Qed.

(** X6: a generation backend that sends the prompt back gets the catalog's
    recommendation.  The prompt holds the JSON template; sent back as the
    answer, the template is the payload found and the placeholder check
    rejects it, for every label whose Indonesian name has no brace and no
    backtick. *)
Theorem echoed_prompt_is_rejected (d : Deployment) (name : JsStr.t) (w : World) :
  generate d (Props.provider (env d)) (Llm.buildPrompt name)
  = GenText (Llm.buildPrompt name) ->
  ~ In 96 (Llm.translateToIndonesian name) ->
  ~ In 123 (Llm.translateToIndonesian name) ->
  ~ In 125 (Llm.translateToIndonesian name) ->
  fst (Llm.getLLMRecommendation d name w) = Normal (Llm.defaultFor name).
Proof.
  intros Hgen Hq Ho Hc. rewrite getLLMRecommendation_result, Hgen.
  rewrite (verdict_of_echo name Hq Ho Hc).
  destruct (JsStr.eqb name (JsStr.lit "Unknown vegetable")) eqn:E; [|reflexivity].
  apply eqb_eq in E. rewrite E. rewrite sentinel_has_no_entry. reflexivity.
Qed.

Lemma echoed_prompt_is_rejected_witness :
  generate Samples.echoing (Props.provider (env Samples.echoing))
    (Llm.buildPrompt (JsStr.lit "Carrot"))
  = GenText (Llm.buildPrompt (JsStr.lit "Carrot"))
  /\ fst (Llm.getLLMRecommendation Samples.echoing (JsStr.lit "Carrot") Props.idle)
     = Normal (Llm.defaultFor (JsStr.lit "Carrot")).
Proof.
  split; [reflexivity|].
  apply (echoed_prompt_is_rejected Samples.echoing (JsStr.lit "Carrot") Props.idle);
    [reflexivity | | |]; apply existsb_notIn; vm_compute; reflexivity.
Defined.

(** ** The prompt and the tables of names *)

Lemma member_key {A} (key : JsStr.t) (table : list (string * A)) (v : A) :
  Llm.member key table = Some v ->
  exists k, In (k, v) table /\ JsStr.lit k = key.
Proof.
  induction table as [|[k x] table IH]; simpl; [discriminate|].
  destruct (JsStr.eqb (JsStr.lit k) key) eqn:E.
  - intros H. injection H as ->. apply eqb_eq in E. exists k. split; [now left | assumption].
  - intros H. destruct (IH H) as (k' & Hin & Hk). exists k'. split; [now right | assumption].
Qed.

Lemma member_none {A} (key : JsStr.t) (table : list (string * A)) :
  Llm.member key table = None
  <-> forall k, In k (map fst table) -> JsStr.lit k <> key.
Proof.
  induction table as [|[k x] table IH]; simpl.
  - split; [intros _ k [] | reflexivity].
  - destruct (JsStr.eqb (JsStr.lit k) key) eqn:E.
    + apply eqb_eq in E. split; [discriminate|].
      intros H. exfalso. apply (H k); [now left | assumption].
    + rewrite IH. split.
      * intros H k' [<-|Hin]; [|now apply H].
        intros C. rewrite C, eqb_refl in E. discriminate.
      * intros H k' Hin. apply H. now right.
Qed.

Lemma buildPrompt_includes_translation (name : JsStr.t) :
  JsStr.includes (Llm.buildPrompt name) (Llm.translateToIndonesian name) = true.
Proof.
  unfold Llm.buildPrompt. cbn [JsStr.concat]. apply includes_spec.
  eexists _, _. reflexivity.
Qed.

(** X7: for each of the fifteen labels that [translateToIndonesian] knows,
    the prompt holds the Indonesian name and does not hold the English
    label anywhere. *)
Theorem buildPrompt_names_translation (name t : JsStr.t) :
  Llm.member name Llm.translations = Some t ->
  JsStr.includes (Llm.buildPrompt name) t = true
  /\ JsStr.includes (Llm.buildPrompt name) name = false.
Proof.
  intros H. split.
  - pose proof (buildPrompt_includes_translation name) as Hi.
    unfold Llm.translateToIndonesian in Hi. now rewrite H in Hi.
  - apply member_key in H as (k & Hin & <-).
    apply (in_map fst) in Hin. cbn [fst] in Hin. clear t.
    revert k Hin. apply Forall_forall.
    repeat (apply Forall_cons; [vm_compute; reflexivity|]). apply Forall_nil.
Qed.

Lemma buildPrompt_names_translation_witness :
  Llm.member (JsStr.lit "Carrot") Llm.translations = Some (JsStr.lit "Wortel")
  /\ JsStr.includes (Llm.buildPrompt (JsStr.lit "Carrot")) (JsStr.lit "Wortel") = true
  /\ JsStr.includes (Llm.buildPrompt (JsStr.lit "Carrot")) (JsStr.lit "Carrot") = false.
Proof.
  split; [reflexivity|].
  apply (buildPrompt_names_translation (JsStr.lit "Carrot") (JsStr.lit "Wortel")).
  reflexivity.
Defined.

Lemma member_some_iff {A} (key : JsStr.t) (table : list (string * A)) :
  Llm.member key table <> None
  <-> exists k, In k (map fst table) /\ JsStr.lit k = key.
Proof.
  split.
  - destruct (Llm.member key table) as [v|] eqn:H; [|congruence].
    intros _. apply member_key in H as (k & Hin & Hk).
    exists k. split; [|assumption]. now apply (in_map fst) in Hin.
  - intros (k & Hin & Hk) H.
    exact (proj1 (member_none key table) H k Hin Hk).
Qed.

(** X8: the three tables keyed by label agree on the labels.  A label has
    an entry in the catalog of [getDefaultRecommendation] exactly when
    [translateToIndonesian] translates it, and the frontend's
    [vegetableNamesId] names exactly these labels and the unknown-subject
    sentinel. *)
Theorem tables_name_the_same_labels (name : JsStr.t) :
  (Llm.catalogEntry name <> None <-> Llm.member name Llm.translations <> None)
  /\ (Llm.member name Frontend.vegetableNamesId <> None
      <-> Llm.catalogEntry name <> None
          \/ name = JsStr.lit "Unknown vegetable").
Proof.
  unfold Llm.catalogEntry. rewrite !member_some_iff. split; [split|split].
  - intros (k & Hin & Hk). exists k. split; [|assumption].
    clear Hk; revert k Hin. apply Forall_forall.
    repeat (apply Forall_cons; [cbn; tauto|]). apply Forall_nil.
  - intros (k & Hin & Hk). exists k. split; [|assumption].
    clear Hk; revert k Hin. apply Forall_forall.
    repeat (apply Forall_cons; [cbn; tauto|]). apply Forall_nil.
  - intros (k & Hin & <-).
    revert k Hin. apply Forall_forall.
    repeat (apply Forall_cons;
            [first [ right; reflexivity
                   | left; eexists; split; [|reflexivity]; cbn; tauto ]|]).
    apply Forall_nil.
  - intros [(k & Hin & <-) | ->].
    + exists k. split; [|reflexivity].
      revert k Hin. apply Forall_forall.
      repeat (apply Forall_cons; [cbn; tauto|]). apply Forall_nil.
    + exists "Unknown vegetable"%string. split; [cbn; tauto | reflexivity].
Qed.



(** ** The error handler and the status codes *)

(** X10: [errorHandler] answers every error itself and never hands it on:
    it writes one line to the console, leaves the table alone and sends an
    [{error}] body with status 400, 500, 502 or 504. *)
Theorem errorHandler_always_answers (e : ProcessEnv) (err : JsError) (w : World) :
  exists code message,
    ErrorHandler.errorHandler e err w
    = (Responded (errorJson code message),
       mkWorld (rows w)
         (ConsoleError [JsStr.lit "Error:"; err_message err] :: trace w)
         (drawn w))
    /\ In code [400; 500; 502; 504].
Proof.
  unfold ErrorHandler.errorHandler, ErrorHandler.respond, emit.
  repeat match goal with
         | |- context [if ?c then _ else _] => destruct c
         end;
    eexists _, _; (split; [reflexivity | cbn; tauto]).
Qed.

(** X11: in production the message of an error never reaches the caller,
    unless the error is a [ValidationError]: the response is one of five
    fixed ones. *)
Theorem errorHandler_production_discloses_nothing (e : ProcessEnv) (err : JsError) :
  envIs (NODE_ENV e) "production" = true ->
  JsStr.eqb (err_name err) (JsStr.lit "ValidationError") = false ->
  In (ErrorHandler.respond e err)
    [ errorJson 502 (JsStr.lit "Service unavailable");
      errorJson 504 (JsStr.lit "Request timeout");
      errorJson 400 (JsStr.lit "Database constraint violation");
      errorJson 500 (JsStr.lit "Database table not found");
      errorJson 500 (JsStr.lit "Internal server error") ].
Proof.
  intros Hprod Hname. unfold ErrorHandler.respond. rewrite Hprod, Hname.
  repeat match goal with
         | |- context [if ?c then _ else _] => destruct c
         end; cbn [In]; tauto.
Qed.

Lemma errorHandler_production_discloses_nothing_witness :
  envIs (NODE_ENV Samples.production) "production" = true
  /\ JsStr.eqb (err_name Examples.tooManyClients) (JsStr.lit "ValidationError")
     = false
  /\ ErrorHandler.respond Samples.production Examples.tooManyClients
     = errorJson 500 (JsStr.lit "Internal server error").
Proof.
  split; [reflexivity|]. split; [reflexivity|].
  destruct (errorHandler_production_discloses_nothing Samples.production
              Examples.tooManyClients eq_refl eq_refl)
    as [H|[H|[H|[H|[H|[]]]]]];
    solve [symmetry; exact H | vm_compute in H; discriminate H].
Defined.

Lemma handleError_errorMiddleware (d : Deployment) (err : JsError) (w : World) :
  App.handleError (App.errorMiddleware d) err w
  = (ErrorHandler.respond (env d) err,
     mkWorld (rows w)
       (ConsoleError [JsStr.lit "Error:"; err_message err] :: trace w)
       (drawn w)).
Proof. reflexivity. Qed.

Lemma respond_status (e : ProcessEnv) (err : JsError) :
  In (status (ErrorHandler.respond e err)) [200; 400; 404; 500; 502; 504].
Proof.
  unfold ErrorHandler.respond.
  repeat match goal with
         | |- context [if ?c then _ else _] => destruct c
         end; cbn; tauto.
Qed.

Lemma finish_status (d : Deployment) (h : Handled * World) :
  (forall r, fst h = Responded r -> In (status r) [200; 400; 404; 500; 502; 504]) ->
  In (status (fst (App.finish d h))) [200; 400; 404; 500; 502; 504].
Proof.
  destruct h as [[r|err] w]; intros H.
  - now apply H.
  - unfold App.finish. rewrite handleError_errorMiddleware. apply respond_status.
Qed.

Lemma predictHandler_status (d : Deployment) (file : option File) (w : World)
  (r : Response) :
  fst (Predict.predictHandler d file w) = Responded r ->
  In (status r) [200; 400; 502].
Proof.
  unfold Predict.predictHandler, Predict.postToMlService,
    Predict.afterClassification.
  destruct file as [f|]; js_run.
  2:{ intros H. injection H as <-. cbn. tauto. }
  destruct (classify d f) as [data|e].
  - destruct (recommend_run d data
                (mkWorld (rows w) (HttpPost MlService (originalname f) :: trace w)
                   (drawn w))) as (rec & w' & E & _).
    rewrite E. unfold Db.savePrediction. js_run.
    destruct (negb (Db.pool (env d))).
    + intros H. injection H as <-. cbn. tauto.
    + destruct (sqlFault d SqlInsert); [discriminate|].
      intros H. injection H as <-. cbn. tauto.
  - destruct (ErrorHandler.codeIs e "ECONNREFUSED"); [|discriminate].
    intros H. injection H as <-. cbn. tauto.
Qed.

Lemma getHistory_status (d : Deployment) (l o : option JsStr.t) (w : World)
  (r : Response) :
  fst (History.getHistory d l o w) = Responded r -> status r = 200.
Proof.
  unfold History.getHistory, Db.getPredictions. js_run.
  destruct (negb (Db.pool (env d))).
  - intros H. now injection H as <-.
  - destruct (sqlFault d _); [discriminate|].
    destruct (History.intOr l 50 <? 0)%Z; [discriminate|].
    destruct (History.intOr o 0 <? 0)%Z; [discriminate|].
    intros H. now injection H as <-.
Qed.

Lemma deleteHistory_status (d : Deployment) (id : JsStr.t) (w : World)
  (r : Response) :
  fst (History.deleteHistory d id w) = Responded r ->
  In (status r) [200; 400; 404].
Proof.
  unfold History.deleteHistory, Db.deletePrediction. js_run.
  destruct (negb (History.uuidRegexTest id)).
  - intros H. injection H as <-. cbn. tauto.
  - destruct (negb (Db.pool (env d))).
    + intros H. injection H as <-. cbn. tauto.
    + destruct (sqlFault d _); [discriminate|].
      destruct (option_map _ _); intros H; injection H as <-; cbn; tauto.
Qed.

(** X12: whatever the request to one of the four routes, the deployment
    and the state, the status of the response is 200, 400, 404, 500, 502 or
    504; no other status, 413 among them, is ever sent. *)
Theorem app_status_codes (d : Deployment) (req : App.Request) (w : World) :
  In (status (fst (App.app d req w))) [200; 400; 404; 500; 502; 504].
Proof.
  destruct req as [|field|l o|id]; unfold App.app.
  - cbn. tauto.
  - destruct (App.upload field) as [file|err].
    + apply finish_status. intros r H. apply predictHandler_status in H.
      cbn in H |- *. tauto.
    + rewrite handleError_errorMiddleware. apply respond_status.
  - apply finish_status. intros r H. apply getHistory_status in H.
    rewrite H. cbn. tauto.
  - apply finish_status. intros r H. apply deleteHistory_status in H.
    cbn in H |- *. tauto.
Qed.

(** ** Traces of the adapter and of the prediction route *)

(** The parser's run: it returns, leaves the table and the counter alone,
    and adds only local events. *)
Lemma parseRecommendation_trace (response : option JsStr.t) (name : JsStr.t)
  (w : World) :
  exists r evs,
    Llm.parseRecommendation response name w
    = (Normal r, mkWorld (rows w) (evs ++ trace w) (drawn w))
    /\ forallb Terms.isLocal evs = true.
Proof.
  unfold Llm.parseRecommendation, Llm.parseAttempt, Llm.getDefaultRecommendation.
  js_run. destruct response as [raw|].
  - parser_cases raw
      ltac:(first [ now eexists _, [CatalogLookup _]
                  | now eexists _, [CatalogLookup _; ConsoleError _] ]).
    + now eexists _, [CatalogLookup _].
    + eexists _, []. split; [|reflexivity]. now destruct w.
    + now eexists _, [CatalogLookup _; ConsoleError _].
  - now eexists _, [CatalogLookup _; ConsoleError _].
Qed.

(** The adapter's run: at most one request, to the provider selected, then
    only local events. *)
Lemma getLLMRecommendation_trace (d : Deployment) (name : JsStr.t) (w : World) :
  exists r evs,
    Llm.getLLMRecommendation d name w
    = (Normal r,
       mkWorld (rows w)
         (evs ++ (if JsStr.eqb name (JsStr.lit "Unknown vegetable") then []
                  else [HttpPost (Props.provider (env d)) (Llm.buildPrompt name)])
              ++ trace w)
         (drawn w))
    /\ forallb Terms.isLocal evs = true.
Proof.
  unfold Llm.getLLMRecommendation, Props.provider.
  destruct (JsStr.eqb name (JsStr.lit "Unknown vegetable")).
  { eexists _, []. split; [|reflexivity]. now destruct w. }
  unfold tryCatch, Llm.getGroqRecommendation, Llm.getOllamaRecommendation,
    Llm.request, bind, emit, Llm.getDefaultRecommendation, ret.
  destruct (JsStr.eqb (Llm.LLM_PROVIDER (env d)) (JsStr.lit "groq")
            && isSet (GROQ_API_KEY (env d)));
    match goal with
    | |- context [generate d ?t ?p] => destruct (generate d t p) as [e|e| |raw]
    end;
    try (now eexists _, [CatalogLookup _; ConsoleError _]);
    match goal with
    | |- context [Llm.parseRecommendation ?resp ?n ?w0] =>
        destruct (parseRecommendation_trace resp n w0) as (r & evs & -> & Hl);
        now exists r, evs
    end.
Qed.

Lemma recommend_trace (d : Deployment) (prediction : Prediction) (w : World) :
  exists r evs,
    Predict.recommend d prediction w
    = (Normal r,
       mkWorld (rows w)
         (evs ++ (if Predict.skipLLM (env d)
                     || JsStr.eqb (predicted_class prediction)
                          (JsStr.lit "Unknown vegetable")
                  then []
                  else [HttpPost (Props.provider (env d))
                          (Llm.buildPrompt (predicted_class prediction))])
              ++ trace w)
         (drawn w))
    /\ forallb Terms.isLocal evs = true
    /\ (Predict.skipLLM (env d)
        || JsStr.eqb (predicted_class prediction) (JsStr.lit "Unknown vegetable")
        = true -> r = Predict.getFallbackRecommendation).
Proof.
  unfold Predict.recommend.
  destruct (Predict.skipLLM (env d)).
  { eexists _, []. split; [|split; reflexivity]. now destruct w. }
  unfold tryCatch. cbn [orb].
  destruct (getLLMRecommendation_trace d (predicted_class prediction) w)
    as (r & evs & E & Hl).
  rewrite E. exists r, evs. split; [reflexivity|]. split; [assumption|].
  intros Hs. pose proof (getLLMRecommendation_result d (predicted_class prediction) w) as Hr.
  rewrite E, Hs in Hr. cbn [fst] in Hr. now injection Hr.
Qed.

Lemma local_filtered (f : Event -> bool) (evs : list Event) :
  (forall ev, Terms.isLocal ev = true -> f ev = false) ->
  forallb Terms.isLocal evs = true -> filter f evs = [].
Proof.
  intros Hf. induction evs as [|ev evs IH]; [reflexivity|].
  cbn [forallb filter]. intros H. apply andb_true_iff in H as [Hev Hevs].
  rewrite (Hf ev Hev). now apply IH.
Qed.

Lemma local_not_post (ev : Event) :
  Terms.isLocal ev = true -> Props.isHttpPost ev = false.
Proof. now destruct ev. Qed.

Lemma local_not_mlPost (ev : Event) :
  Terms.isLocal ev = true -> Terms.isMlPost ev = false.
Proof. now destruct ev as [[| |] ?| | |]. Qed.

Lemma local_not_generationPost (ev : Event) :
  Terms.isLocal ev = true -> Terms.isGenerationPost ev = false.
Proof. now destruct ev as [[| |] ?| | |]. Qed.

Lemma local_not_query (ev : Event) :
  Terms.isLocal ev = true -> Terms.isQuery ev = false.
Proof. now destruct ev. Qed.

(** X13: [getLLMRecommendation] sends exactly one request, to the provider
    selected and carrying the prompt for the label, and none for the
    unknown-subject sentinel; there is no retry and no second provider,
    whatever the outcome. *)
Theorem getLLMRecommendation_posts_once (d : Deployment) (name : JsStr.t)
  (w : World) :
  filter Props.isHttpPost (trace (snd (Llm.getLLMRecommendation d name w)))
  = (if JsStr.eqb name (JsStr.lit "Unknown vegetable") then []
     else [HttpPost (Props.provider (env d)) (Llm.buildPrompt name)])
    ++ filter Props.isHttpPost (trace w).
Proof.
  destruct (getLLMRecommendation_trace d name w) as (r & evs & -> & Hl).
  cbn [snd trace]. rewrite !filter_app.
  rewrite (local_filtered _ evs local_not_post Hl).
  now destruct (JsStr.eqb name (JsStr.lit "Unknown vegetable")).
Qed.

Lemma upload_admits (field : option File) (file : File) :
  App.upload field = inl (Some file) -> field = Some file.
Proof.
  unfold App.upload. destruct field as [f|]; [|discriminate].
  destruct (App.fileFilter f); [|discriminate].
  destruct (App.fileSizeLimit <? size f); [discriminate|].
  intros H. now injection H as ->.
Qed.

(** The route of an admitted upload whose classification was rejected. *)
Lemma predict_rejected_run (d : Deployment) (file : File) (e : JsError)
  (w : World) :
  Props.admitted file ->
  classify d file = MlRejected e ->
  App.app d (App.PostPredict (Some file)) w
  = if ErrorHandler.codeIs e "ECONNREFUSED"
    then (errorJson 502 (JsStr.lit "ML service unavailable"),
          mkWorld (rows w) (HttpPost MlService (originalname file) :: trace w)
            (drawn w))
    else (ErrorHandler.respond (env d) e,
          mkWorld (rows w)
            (ConsoleError [JsStr.lit "Error:"; err_message e]
             :: HttpPost MlService (originalname file) :: trace w)
            (drawn w)).
Proof.
  intros Hfile Hml. rewrite (predict_route d file w Hfile).
  unfold Predict.predictHandler, Predict.postToMlService. js_run.
  rewrite Hml. js_run.
  destruct (ErrorHandler.codeIs e "ECONNREFUSED"); reflexivity.
Qed.

(** The route of an admitted upload whose classification was answered. *)
Lemma predict_answered_run (d : Deployment) (file : File) (p : Prediction)
  (w : World) :
  Props.admitted file ->
  classify d file = MlAnswered p ->
  exists rec evs,
    forallb Terms.isLocal evs = true
    /\ (Predict.skipLLM (env d)
        || JsStr.eqb (predicted_class p) (JsStr.lit "Unknown vegetable") = true ->
        rec = Predict.getFallbackRecommendation)
    /\ let t1 := evs
                 ++ (if Predict.skipLLM (env d)
                        || JsStr.eqb (predicted_class p)
                             (JsStr.lit "Unknown vegetable")
                     then []
                     else [HttpPost (Props.provider (env d))
                             (Llm.buildPrompt (predicted_class p))])
                 ++ HttpPost MlService (originalname file) :: trace w in
       let n := S (drawn w) in
       let row := mkRow (uuidAt d n) (originalname file)
                    (JsStr.concat [JsStr.lit "/uploads/"; uuidAt d (drawn w);
                                   JsStr.lit "_"; originalname file])
                    (predicted_class p) (confidence p) (top_3 p) rec
                    (clockAt d n) in
       App.app d (App.PostPredict (Some file)) w
       = if negb (Db.pool (env d))
         then (okJson (PredictionBody (uuidAt d n) p rec (clockAt d n)),
               mkWorld (rows w) t1 (S n))
         else match sqlFault d SqlInsert with
              | Some e =>
                  (ErrorHandler.respond (env d) e,
                   mkWorld (rows w)
                     (ConsoleError [JsStr.lit "Error:"; err_message e]
                      :: Query SqlInsert :: t1)
                     n)
              | None =>
                  (okJson (PredictionBody (uuidAt d n) p rec (clockAt d n)),
                   mkWorld (rows w ++ [row]) (Query SqlInsert :: t1) (S n))
              end.
Proof.
  intros Hfile Hml. rewrite (predict_route d file w Hfile).
  unfold Predict.predictHandler, Predict.postToMlService,
    Predict.afterClassification. js_run. rewrite Hml. js_run.
  destruct (recommend_trace d p
              (mkWorld (rows w) (HttpPost MlService (originalname file) :: trace w)
                 (drawn w))) as (rec & evs & E & Hl & Hfb).
  rewrite E. exists rec, evs. split; [assumption|]. split; [assumption|].
  cbn [rows trace drawn]. unfold Db.savePrediction. js_run.
  destruct (negb (Db.pool (env d))); [reflexivity|].
  destruct (sqlFault d SqlInsert); reflexivity.
Qed.

Ltac drop_local Hl :=
  rewrite ?filter_app;
  rewrite ?(local_filtered _ _ local_not_post Hl),
          ?(local_filtered _ _ local_not_mlPost Hl),
          ?(local_filtered _ _ local_not_generationPost Hl),
          ?(local_filtered _ _ local_not_query Hl).

Lemma provider_not_ml (e : ProcessEnv) : Props.provider e <> MlService.
Proof. unfold Props.provider. now destruct (_ && _). Qed.

Lemma generationPost_provider (e : ProcessEnv) (p : JsStr.t) :
  Terms.isGenerationPost (HttpPost (Props.provider e) p) = true
  /\ Terms.isMlPost (HttpPost (Props.provider e) p) = false.
Proof. unfold Props.provider. now destruct (_ && _). Qed.

(** X14: a prediction request with no file is answered 400 'No image file
    provided'; one with a file of a type that is not allowed is answered by
    the error handler with status 500, the message being the filter's
    (outside production).  In both cases no backend is called, no statement
    is sent and nothing is stored. *)
Theorem predict_without_image (d : Deployment) (field : option File) (w : World) :
  (forall file, field = Some file -> App.fileFilter file = false) ->
  let after := snd (App.app d (App.PostPredict field) w) in
  fst (App.app d (App.PostPredict field) w)
  = match field with
    | None => errorJson 400 (JsStr.lit "No image file provided")
    | Some _ =>
        errorJson 500
          (if envIs (NODE_ENV (env d)) "production"
           then JsStr.lit "Internal server error"
           else JsStr.lit "Unsupported image format. Allowed: JPEG, PNG, WebP")
    end
  /\ rows after = rows w
  /\ drawn after = drawn w
  /\ filter Props.isHttpPost (trace after) = filter Props.isHttpPost (trace w)
  /\ filter Terms.isQuery (trace after) = filter Terms.isQuery (trace w).
Proof.
  intros Hno after. subst after. unfold App.app.
  destruct field as [file|]; [|repeat split].
  unfold App.upload. rewrite (Hno file eq_refl).
  rewrite handleError_errorMiddleware. repeat split.
Qed.

Lemma predict_without_image_witness :
  App.fileFilter Samples.document = false
  /\ App.app Samples.answeringCarrot (App.PostPredict (Some Samples.document))
       Props.idle
     = (errorJson 500
          (JsStr.lit "Unsupported image format. Allowed: JPEG, PNG, WebP"),
        mkWorld [] [ConsoleError
                      [JsStr.lit "Error:";
                       JsStr.lit "Unsupported image format. Allowed: JPEG, PNG, WebP"]]
          0)
  /\ filter Props.isHttpPost
       (trace (snd (App.app Samples.answeringCarrot
                      (App.PostPredict (Some Samples.document)) Props.idle)))
     = [].
Proof.
  split; [reflexivity|]. split; [reflexivity|].
  apply (predict_without_image Samples.answeringCarrot (Some Samples.document)
           Props.idle).
  intros file H. injection H as <-. reflexivity.
Defined.

(** X15: the classification backend is asked exactly once for an upload
    that the upload middleware admits, with the file's name, and never for
    any other request, whatever happens afterwards. *)
Theorem predict_classifies_once (d : Deployment) (field : option File) (w : World) :
  filter Terms.isMlPost (trace (snd (App.app d (App.PostPredict field) w)))
  = match App.upload field with
    | inl (Some file) => [HttpPost MlService (originalname file)]
    | _ => []
    end ++ filter Terms.isMlPost (trace w).
Proof.
  destruct (App.upload field) as [[file|]|err] eqn:Hup.
  - apply upload_admits in Hup as Hfield. subst field.
    destruct (classify d file) as [p|e] eqn:Hml.
    + destruct (predict_answered_run d file p w Hup Hml)
        as (rec & evs & Hl & _ & ->).
      destruct (negb (Db.pool (env d))); [|destruct (sqlFault d SqlInsert)];
        cbn [snd trace filter]; drop_local Hl;
        destruct (Predict.skipLLM (env d) || _);
        cbn [filter app];
        rewrite ?(proj2 (generationPost_provider _ _)); reflexivity.
    + rewrite (predict_rejected_run d file e w Hup Hml).
      now destruct (ErrorHandler.codeIs e "ECONNREFUSED").
  - unfold App.app. rewrite Hup.
    destruct field as [f|]; [|reflexivity].
    unfold App.upload in Hup. destruct (App.fileFilter f); [|discriminate].
    destruct (App.fileSizeLimit <? size f); discriminate.
  - unfold App.app. rewrite Hup, handleError_errorMiddleware. reflexivity.
Qed.

(** X16: after a successful classification the generation backend is asked
    exactly once, by the provider selected and for the predicted label;
    it is not asked at all when [SKIP_LLM] is 'true', [OLLAMA_URL] is not
    set or the label is the unknown-subject sentinel, and the
    recommendation returned is then the fallback. *)
Theorem predict_generates_at_most_once (d : Deployment) (file : File)
  (p : Prediction) (w : World) :
  Props.admitted file ->
  classify d file = MlAnswered p ->
  let quiet := Predict.skipLLM (env d)
               || JsStr.eqb (predicted_class p) (JsStr.lit "Unknown vegetable") in
  filter Terms.isGenerationPost
    (trace (snd (App.app d (App.PostPredict (Some file)) w)))
  = (if quiet then []
     else [HttpPost (Props.provider (env d)) (Llm.buildPrompt (predicted_class p))])
    ++ filter Terms.isGenerationPost (trace w)
  /\ (quiet = true ->
      forall id p' rec created,
        fst (App.app d (App.PostPredict (Some file)) w)
        = okJson (PredictionBody id p' rec created) ->
        rec = Predict.getFallbackRecommendation).
Proof.
  intros Hfile Hml quiet. subst quiet.
  destruct (predict_answered_run d file p w Hfile Hml)
    as (rec & evs & Hl & Hfb & ->).
  split.
  - destruct (negb (Db.pool (env d))); [|destruct (sqlFault d SqlInsert)];
      cbn [snd trace filter]; drop_local Hl;
      destruct (Predict.skipLLM (env d) || _);
      cbn [filter app];
      rewrite ?(proj1 (generationPost_provider _ _)); reflexivity.
  - intros Hq id p' rec' created. specialize (Hfb Hq). subst rec.
    destruct (negb (Db.pool (env d))); [|destruct (sqlFault d SqlInsert) as [e|]];
      cbn [fst]; intros H; try (now injection H);
      unfold ErrorHandler.respond in H;
      repeat match type of H with
             | context [if ?c then _ else _] => destruct c
             end; discriminate.
Qed.

Lemma predict_generates_at_most_once_witness :
  Props.admitted (Examples.photo 2048)
  /\ filter Terms.isGenerationPost
       (trace (snd (App.app Samples.answeringCarrot
                      (App.PostPredict (Some (Examples.photo 2048))) Props.idle)))
     = [HttpPost Ollama (Llm.buildPrompt (JsStr.lit "Carrot"))]
  /\ filter Terms.isGenerationPost
       (trace (snd (App.app Samples.seeingNothing
                      (App.PostPredict (Some (Examples.photo 2048))) Props.idle)))
     = [].
Proof.
  split; [reflexivity|]. split.
  - apply (predict_generates_at_most_once Samples.answeringCarrot
             (Examples.photo 2048) Examples.carrot Props.idle); reflexivity.
  - apply (predict_generates_at_most_once Samples.seeingNothing
             (Examples.photo 2048) Samples.unknownSubject Props.idle); reflexivity.
Defined.

(** X17: when the request to the classification backend fails, that
    request is the only one made: no generation request, no statement, no
    identifier drawn, the table as it was, and the status is not 200. *)
Theorem predict_classification_failure_stores_nothing (d : Deployment)
  (file : File) (e : JsError) (w : World) :
  Props.admitted file ->
  classify d file = MlRejected e ->
  let after := snd (App.app d (App.PostPredict (Some file)) w) in
  rows after = rows w
  /\ drawn after = drawn w
  /\ filter Props.isHttpPost (trace after)
     = HttpPost MlService (originalname file) :: filter Props.isHttpPost (trace w)
  /\ filter Terms.isQuery (trace after) = filter Terms.isQuery (trace w)
  /\ status (fst (App.app d (App.PostPredict (Some file)) w)) <> 200.
Proof.
  intros Hfile Hml after. subst after.
  rewrite (predict_rejected_run d file e w Hfile Hml).
  destruct (ErrorHandler.codeIs e "ECONNREFUSED"); repeat split;
    try discriminate.
  cbn [fst]. unfold ErrorHandler.respond.
  repeat match goal with
         | |- context [if ?c then _ else _] => destruct c
         end; discriminate.
Qed.

Lemma predict_classification_failure_stores_nothing_witness :
  classify Samples.blind (Examples.photo 2048)
  = MlRejected Examples.connectionReset
  /\ rows (snd (App.app Samples.blind
                  (App.PostPredict (Some (Examples.photo 2048))) Examples.stocked))
     = rows Examples.stocked
  /\ filter Terms.isQuery
       (trace (snd (App.app Samples.blind
                      (App.PostPredict (Some (Examples.photo 2048)))
                      Examples.stocked)))
     = [].
Proof.
  split; [reflexivity|].
  destruct (predict_classification_failure_stores_nothing Samples.blind
              (Examples.photo 2048) Examples.connectionReset Examples.stocked
              eq_refl eq_refl) as (Hrows & _ & _ & Hq & _).
  split; [exact Hrows | exact Hq].
Defined.

(** X18: with a database that takes the insert, a successful prediction
    adds exactly one record at the end of the table, and the record has the
    id, the recommendation and the timestamp of the response, the name of
    the file and the predicted label. *)
Theorem predict_stores_what_it_returns (d : Deployment) (file : File)
  (p : Prediction) (w : World) :
  Props.admitted file ->
  classify d file = MlAnswered p ->
  Db.pool (env d) = true ->
  sqlFault d SqlInsert = None ->
  exists id rec created row,
    fst (App.app d (App.PostPredict (Some file)) w)
    = okJson (PredictionBody id p rec created)
    /\ rows (snd (App.app d (App.PostPredict (Some file)) w)) = rows w ++ [row]
    /\ row_id row = id
    /\ image_filename row = originalname file
    /\ row_predicted_class row = predicted_class p
    /\ llm_recommendation row = rec
    /\ created_at row = created.
Proof.
  intros Hfile Hml Hpool Hsql.
  destruct (predict_answered_run d file p w Hfile Hml)
    as (rec & evs & _ & _ & ->).
  rewrite Hpool, Hsql. cbn [negb fst snd rows].
  eexists _, _, _, _. split; [reflexivity|]. split; [reflexivity|].
  repeat split.
Qed.

Lemma predict_stores_what_it_returns_witness :
  Db.pool (env Samples.answeringCarrot) = true
  /\ exists id rec created row,
       fst (App.app Samples.answeringCarrot
              (App.PostPredict (Some (Examples.photo 2048))) Examples.stocked)
       = okJson (PredictionBody id Examples.carrot rec created)
       /\ rows (snd (App.app Samples.answeringCarrot
                       (App.PostPredict (Some (Examples.photo 2048)))
                       Examples.stocked))
          = [Examples.storedRow; row]
       /\ row_id row = id
       /\ llm_recommendation row = rec.
Proof.
  split; [reflexivity|].
  destruct (predict_stores_what_it_returns Samples.answeringCarrot
              (Examples.photo 2048) Examples.carrot Examples.stocked
              eq_refl eq_refl eq_refl eq_refl)
    as (id & rec & created & row & H1 & H2 & H3 & _ & _ & H4 & _).
  exists id, rec, created, row. repeat split; assumption.
Defined.

(** ** The history list *)

Lemma insertDesc_perm (r : Row) (l : list Row) :
  Permutation (Db.insertDesc r l) (r :: l).
Proof.
  induction l as [|x l IH]; [reflexivity|].
  cbn [Db.insertDesc]. destruct (created_at x <? created_at r); [reflexivity|].
  rewrite IH. apply perm_swap.
Qed.

Lemma orderByCreatedDesc_perm (table : list Row) :
  Permutation (Db.orderByCreatedDesc table) table.
Proof.
  unfold Db.orderByCreatedDesc. induction table as [|r table IH]; [reflexivity|].
  cbn [fold_right]. rewrite insertDesc_perm. now constructor.
Qed.

Lemma insertDesc_sorted (r : Row) (l : list Row) :
  Terms.descending (map created_at l) ->
  Terms.descending (map created_at (Db.insertDesc r l)).
Proof.
  unfold Terms.descending. induction l as [|x l IH]; intros H.
  - repeat constructor.
  - cbn [Db.insertDesc]. destruct (N.ltb_spec (created_at x) (created_at r)) as [Hlt|Hge].
    + cbn [map]. constructor; [assumption|].
      cbn [map] in H. inversion H as [|? ? Hs Hall]; subst.
      constructor; [lia|].
      eapply Forall_impl; [|exact Hall]. cbn. intros; lia.
    + cbn [map] in H |- *. inversion H as [|? ? Hs Hall]; subst.
      constructor; [now apply IH|].
      apply Forall_forall. intros c Hc. apply in_map_iff in Hc as (y & <- & Hy).
      apply (Permutation_in _ (insertDesc_perm r l)) in Hy as [<-|Hy]; [assumption|].
      rewrite Forall_forall in Hall. apply Hall. now apply in_map.
Qed.

Lemma orderByCreatedDesc_sorted (table : list Row) :
  Terms.descending (map created_at (Db.orderByCreatedDesc table)).
Proof.
  unfold Db.orderByCreatedDesc. induction table as [|r table IH].
  - constructor.
  - cbn [fold_right]. now apply insertDesc_sorted.
Qed.

Lemma descending_tail (c : N) (l : list N) :
  Terms.descending (c :: l) -> Terms.descending l.
Proof. intros H. now inversion H. Qed.

Lemma descending_skipn (n : nat) (l : list N) :
  Terms.descending l -> Terms.descending (skipn n l).
Proof.
  revert l; induction n as [|n IH]; intros [|c l] H; try assumption.
  cbn [skipn]. apply IH. now apply descending_tail in H.
Qed.

Lemma descending_firstn (n : nat) (l : list N) :
  Terms.descending l -> Terms.descending (firstn n l).
Proof.
  unfold Terms.descending.
  revert l; induction n as [|n IH]; intros [|c l] H; try constructor.
  - apply IH. now inversion H.
  - inversion H as [|? ? _ Hall]; subst.
    apply Forall_forall. intros x Hx. rewrite Forall_forall in Hall.
    apply Hall. revert Hx. clear. revert l. induction n as [|n IH]; intros [|y l]; cbn; try tauto.
    intros [->|H]; [now left | right; now apply IH].
Qed.

Lemma In_firstn {A} (n : nat) (l : list A) (x : A) : In x (firstn n l) -> In x l.
Proof.
  revert l; induction n as [|n IH]; intros [|y l]; cbn; try tauto.
  intros [->|H]; [now left | right; now apply IH].
Qed.

Lemma In_skipn {A} (n : nat) (l : list A) (x : A) : In x (skipn n l) -> In x l.
Proof.
  revert l; induction n as [|n IH]; intros [|y l]; cbn; try tauto.
  intros H. right. now apply IH.
Qed.

(** The list route with a database that answers. *)
Lemma getHistory_run (d : Deployment) (l o : option JsStr.t) (w : World) :
  Db.pool (env d) = true ->
  sqlFault d (SqlSelect (History.intOr l 50) (History.intOr o 0)) = None ->
  (0 <= History.intOr l 50)%Z ->
  (0 <= History.intOr o 0)%Z ->
  App.app d (App.GetHistory l o) w
  = (okJson (HistoryBody
               (map History.toItem
                  (firstn (Z.to_nat (History.intOr l 50))
                     (skipn (Z.to_nat (History.intOr o 0))
                        (Db.orderByCreatedDesc (rows w)))))),
     mkWorld (rows w)
       (Query (SqlSelect (History.intOr l 50) (History.intOr o 0)) :: trace w)
       (drawn w)).
Proof.
  intros Hpool Hsql Hl Ho.
  unfold App.app, History.getHistory, Db.getPredictions. js_run.
  rewrite Hpool, Hsql. cbn [negb].
  destruct (Z.ltb_spec (History.intOr l 50) 0); [lia|].
  destruct (Z.ltb_spec (History.intOr o 0) 0); [lia|].
  reflexivity.
Qed.

Lemma map_createdAt (l : list Row) :
  map createdAt (map History.toItem l) = map created_at l.
Proof. rewrite map_map. reflexivity. Qed.

(** X19: with a database that answers, the history list is in descending
    order of [createdAt], has at most [limit] items (50 when the parameter
    is absent, zero or not a number), holds only records of the table, and
    listing changes nothing. *)
Theorem history_newest_first (d : Deployment) (l o : option JsStr.t) (w : World) :
  Db.pool (env d) = true ->
  sqlFault d (SqlSelect (History.intOr l 50) (History.intOr o 0)) = None ->
  (0 <= History.intOr l 50)%Z ->
  (0 <= History.intOr o 0)%Z ->
  exists items,
    fst (App.app d (App.GetHistory l o) w) = okJson (HistoryBody items)
    /\ Terms.descending (map createdAt items)
    /\ (List.length items <= Z.to_nat (History.intOr l 50))%nat
    /\ (forall item, In item items ->
          exists r, In r (rows w) /\ item = History.toItem r)
    /\ rows (snd (App.app d (App.GetHistory l o) w)) = rows w.
Proof.
  intros Hpool Hsql Hl Ho. rewrite (getHistory_run d l o w Hpool Hsql Hl Ho).
  eexists. split; [reflexivity|]. split; [|split; [|split]].
  - rewrite map_createdAt, <- firstn_map, <- skipn_map.
    apply descending_firstn, descending_skipn, orderByCreatedDesc_sorted.
  - rewrite length_map. apply firstn_le_length.
  - intros item Hin. apply in_map_iff in Hin as (r & <- & Hr).
    exists r. split; [|reflexivity].
    apply In_firstn, In_skipn in Hr.
    now apply (Permutation_in _ (orderByCreatedDesc_perm (rows w))).
  - reflexivity.
Qed.

Lemma history_newest_first_witness :
  Db.pool (env Examples.withDatabase) = true
  /\ exists items,
       fst (App.app Examples.withDatabase (App.GetHistory None None)
              Samples.twoRows)
       = okJson (HistoryBody items)
       /\ Terms.descending (map createdAt items)
       /\ (List.length items <= 50)%nat.
Proof.
  split; [reflexivity|].
  destruct (history_newest_first Examples.withDatabase None None Samples.twoRows
              eq_refl eq_refl) as (items & H1 & H2 & H3 & _);
    [discriminate | discriminate |].
  exists items. repeat split; assumption.
Defined.

(** X20: when the table has no more records than the limit, the history
    list with no offset holds every record exactly once. *)
Theorem history_complete (d : Deployment) (l : option JsStr.t) (w : World) :
  Db.pool (env d) = true ->
  sqlFault d (SqlSelect (History.intOr l 50) 0) = None ->
  (Z.of_nat (List.length (rows w)) <= History.intOr l 50)%Z ->
  exists items,
    fst (App.app d (App.GetHistory l None) w) = okJson (HistoryBody items)
    /\ Permutation items (map History.toItem (rows w)).
Proof.
  intros Hpool Hsql Hlen.
  rewrite (getHistory_run d l None w Hpool Hsql); [|lia|cbn; lia].
  eexists. split; [reflexivity|]. cbn [History.intOr Z.to_nat skipn fst].
  rewrite firstn_all2.
  - apply Permutation_map, orderByCreatedDesc_perm.
  - rewrite (Permutation_length (orderByCreatedDesc_perm (rows w))). lia.
Qed.

Lemma history_complete_witness :
  (Z.of_nat (List.length (rows Samples.twoRows)) <= History.intOr None 50)%Z
  /\ exists items,
       fst (App.app Examples.withDatabase (App.GetHistory None None)
              Samples.twoRows)
       = okJson (HistoryBody items)
       /\ Permutation items (map History.toItem (rows Samples.twoRows)).
Proof.
  assert (H : (Z.of_nat (List.length (rows Samples.twoRows))
               <= History.intOr None 50)%Z) by (vm_compute; discriminate).
  split; [exact H|].
  exact (history_complete Examples.withDatabase None Samples.twoRows
           eq_refl eq_refl H).
Defined.

(** ** Prediction, history and deletion together *)




Lemma sameUuid_refl (r : Row) : Db.sameUuid (row_id r) r = true.
Proof. unfold Db.sameUuid. apply eqb_refl. Qed.

(** The delete route with a database that answers. *)
Lemma deleteHistory_run (d : Deployment) (id : JsStr.t) (w : World) :
  History.uuidRegexTest id = true ->
  Db.pool (env d) = true ->
  sqlFault d (SqlDelete id) = None ->
  App.app d (App.DeleteHistory id) w
  = (match hd_error (filter (Db.sameUuid id) (rows w)) with
     | Some r => okJson (DeletedBody (row_id r))
     | None => errorJson 404 (JsStr.lit "Prediction not found")
     end,
     mkWorld (filter (fun r => negb (Db.sameUuid id r)) (rows w))
       (Query (SqlDelete id) :: trace w) (drawn w)).
Proof.
  intros Hid Hpool Hsql.
  unfold App.app, History.deleteHistory, Db.deletePrediction. js_run.
  rewrite Hid, Hpool, Hsql. cbn [negb rows trace drawn].
  now destruct (hd_error _).
Qed.

Lemma filter_filter_negb {A} (f : A -> bool) (l : list A) :
  filter f (filter (fun x => negb (f x)) l) = [].
Proof.
  apply filter_none. intros x Hx. apply filter_In in Hx as [_ Hx].
  now apply negb_true_iff in Hx.
Qed.

(** X22: deleting removes the records with the id and keeps the others in
    their order; a second deletion of the same id is answered 404 and
    changes nothing. *)
Theorem delete_twice (d : Deployment) (id : JsStr.t) (w : World) :
  History.uuidRegexTest id = true ->
  Db.pool (env d) = true ->
  sqlFault d (SqlDelete id) = None ->
  let once := snd (App.app d (App.DeleteHistory id) w) in
  rows once = filter (fun r => negb (Db.sameUuid id r)) (rows w)
  /\ fst (App.app d (App.DeleteHistory id) once)
     = errorJson 404 (JsStr.lit "Prediction not found")
  /\ rows (snd (App.app d (App.DeleteHistory id) once)) = rows once.
Proof.
  intros Hid Hpool Hsql once. subst once.
  rewrite !(deleteHistory_run d id _ Hid Hpool Hsql). cbn [fst snd rows].
  rewrite filter_filter_negb. split; [reflexivity|]. split; [reflexivity|].
  apply filter_negb_all. intros r Hr. apply filter_In in Hr as [_ Hr].
  now apply negb_true_iff in Hr.
Qed.

Lemma delete_twice_witness :
  History.uuidRegexTest Examples.anId = true
  /\ fst (App.app Examples.withDatabase (App.DeleteHistory Examples.anId)
            Examples.stocked)
     = okJson (DeletedBody Examples.anId)
  /\ fst (App.app Examples.withDatabase (App.DeleteHistory Examples.anId)
            (snd (App.app Examples.withDatabase (App.DeleteHistory Examples.anId)
                    Examples.stocked)))
     = errorJson 404 (JsStr.lit "Prediction not found").
Proof.
  split; [reflexivity|]. split; [reflexivity|].
  apply (delete_twice Examples.withDatabase Examples.anId Examples.stocked);
    reflexivity.
Defined.

(** X23: storing a prediction and deleting it by the id of the response
    brings the table back to what it was, when the identifiers drawn are
    well-formed UUIDs that no stored record has. *)
Theorem predict_then_delete (d : Deployment) (file : File) (p : Prediction)
  (w : World) :
  Props.admitted file ->
  classify d file = MlAnswered p ->
  Db.pool (env d) = true ->
  (forall stmt, sqlFault d stmt = None) ->
  (forall n, History.uuidRegexTest (uuidAt d n) = true) ->
  (forall n r, In r (rows w) -> Db.sameUuid (uuidAt d n) r = false) ->
  exists id rec created,
    fst (App.app d (App.PostPredict (Some file)) w)
    = okJson (PredictionBody id p rec created)
    /\ fst (App.app d (App.DeleteHistory id)
              (snd (App.app d (App.PostPredict (Some file)) w)))
       = okJson (DeletedBody id)
    /\ rows (snd (App.app d (App.DeleteHistory id)
                    (snd (App.app d (App.PostPredict (Some file)) w))))
       = rows w.
Proof.
  intros Hfile Hml Hpool Hsql Huuid Hfresh.
  destruct (predict_answered_run d file p w Hfile Hml)
    as (rec & evs & _ & _ & ->).
  rewrite Hpool, Hsql. cbn [negb fst snd].
  eexists _, _, _. split; [reflexivity|].
  rewrite deleteHistory_run by auto. cbn [fst snd rows].
  rewrite !filter_app.
  rewrite (filter_none _ (rows w)) by (intros r Hr; now apply Hfresh).
  rewrite (filter_negb_all _ (rows w)) by (intros r Hr; now apply Hfresh).
  cbn [filter app].
  match goal with
  | |- context [Db.sameUuid ?i ?r] =>
      change (Db.sameUuid i r) with (Db.sameUuid (row_id r) r);
      rewrite (sameUuid_refl r)
  end.
  cbn [negb hd_error row_id]. split; [reflexivity | apply app_nil_r].
Qed.

Lemma predict_then_delete_witness :
  (forall n r, In r [Samples.olderRow] ->
     Db.sameUuid (uuidAt Samples.answeringCarrot n) r = false)
  /\ exists id rec created,
       fst (App.app Samples.answeringCarrot
              (App.PostPredict (Some (Examples.photo 2048)))
              (mkWorld [Samples.olderRow] [] 1))
       = okJson (PredictionBody id Examples.carrot rec created)
       /\ rows (snd (App.app Samples.answeringCarrot (App.DeleteHistory id)
                       (snd (App.app Samples.answeringCarrot
                               (App.PostPredict (Some (Examples.photo 2048)))
                               (mkWorld [Samples.olderRow] [] 1)))))
          = [Samples.olderRow].
Proof.
  assert (H : forall n r, In r [Samples.olderRow] ->
                Db.sameUuid (uuidAt Samples.answeringCarrot n) r = false).
  { intros n r [<-|[]]. reflexivity. }
  split; [exact H|].
  destruct (predict_then_delete Samples.answeringCarrot (Examples.photo 2048)
              Examples.carrot (mkWorld [Samples.olderRow] [] 1)
              eq_refl eq_refl eq_refl (fun _ => eq_refl) (fun _ => eq_refl) H)
    as (id & rec & created & H1 & _ & H3).
  exists id, rec, created. split; assumption.
Defined.

(** ** The syntax of identifiers *)

Lemma hexVal_hexDigit (c : N) :
  Terms.hexDigit c = match JSON.hexVal c with Some _ => true | None => false end.
Proof.
  unfold Terms.hexDigit, JSON.hexVal, JSON.isDigit.
  destruct ((48 <=? c) && (c <=? 57)); [reflexivity|].
  destruct ((97 <=? c) && (c <=? 102)); [reflexivity|].
  now destruct ((65 <=? c) && (c <=? 70)).
Qed.

Lemma hexRun_spec (n : nat) (s rest : JsStr.t) :
  History.hexRun n s = Some rest
  <-> exists a, s = a ++ rest /\ List.length a = n
                /\ forallb Terms.hexDigit a = true.
Proof.
  revert s; induction n as [|n IH]; intros s; cbn [History.hexRun].
  - split.
    + intros H. injection H as ->. now exists [].
    + intros ([|x a] & -> & Hlen & _); [reflexivity | discriminate].
  - destruct s as [|c s].
    + split; [discriminate|]. intros ([|x a] & H & Hlen & _); discriminate.
    + pose proof (hexVal_hexDigit c) as Hc.
      destruct (JSON.hexVal c) as [v|].
      * rewrite IH. split.
        -- intros (a & -> & Hlen & Ha). exists (c :: a).
           cbn [app List.length forallb]. rewrite Hc, Ha, Hlen. now repeat split.
        -- intros ([|x a] & H & Hlen & Ha); [discriminate|].
           injection H as -> ->. exists a. cbn [forallb] in Ha.
           apply andb_true_iff in Ha as [_ Ha]. cbn in Hlen. repeat split; [lia | assumption].
      * split; [discriminate|]. intros ([|x a] & H & Hlen & Ha); [discriminate|].
        injection H as -> ->. cbn [forallb] in Ha. rewrite Hc in Ha. discriminate.
Qed.

Lemma dashThen_spec (n : nat) (s : option JsStr.t) (rest : JsStr.t) :
  History.dashThen n s = Some rest
  <-> exists a, s = Some (45 :: a ++ rest) /\ List.length a = n
                /\ forallb Terms.hexDigit a = true.
Proof.
  unfold History.dashThen. split.
  - destruct s as [[|c s]|]; try discriminate.
    destruct (N.eqb_spec c 45) as [->|Hc].
    + intros H. apply hexRun_spec in H as (a & -> & Hlen & Ha). now exists a.
    + destruct c as [|p]; [discriminate|].
      do 6 (destruct p as [p|p|]; try discriminate); contradiction.
  - intros (a & -> & Hlen & Ha). apply hexRun_spec. now exists a.
Qed.

Lemma uuidRegexTest_shape (id : JsStr.t) :
  History.uuidRegexTest id = true
  <-> exists a b c d e,
        id = a ++ 45 :: b ++ 45 :: c ++ 45 :: d ++ 45 :: e
        /\ List.length a = 8%nat /\ List.length b = 4%nat
        /\ List.length c = 4%nat /\ List.length d = 4%nat
        /\ List.length e = 12%nat
        /\ forallb Terms.hexDigit (a ++ b ++ c ++ d ++ e) = true.
Proof.
  unfold History.uuidRegexTest. split.
  - destruct (History.dashThen 12 _) as [[|]|] eqn:H5; try discriminate. intros _.
    apply dashThen_spec in H5 as (e & H4 & Le & He).
    destruct (History.dashThen 4 (History.dashThen 4 _)) as [r4|] eqn:H4'; [|discriminate].
    injection H4 as ->. 
    apply dashThen_spec in H4' as (d & H3 & Ld & Hd).
    destruct (History.dashThen 4 (History.dashThen 4 _)) as [r3|] eqn:H3'; [|discriminate].
    injection H3 as ->.
    apply dashThen_spec in H3' as (c & H2 & Lc & Hc).
    destruct (History.dashThen 4 _) as [r2|] eqn:H2'; [|discriminate].
    injection H2 as ->.
    apply dashThen_spec in H2' as (b & H1 & Lb & Hb).
    destruct (History.hexRun 8 id) as [r1|] eqn:H1'; [|discriminate].
    injection H1 as ->.
    apply hexRun_spec in H1' as (a & -> & La & Ha).
    exists a, b, c, d, e. rewrite app_nil_r. repeat split; try assumption.
    rewrite !forallb_app, Ha, Hb, Hc, Hd, He. reflexivity.
  - intros (a & b & c & d & e & -> & La & Lb & Lc & Ld & Le & H).
    rewrite !forallb_app in H.
    apply andb_true_iff in H as [Ha H]. apply andb_true_iff in H as [Hb H].
    apply andb_true_iff in H as [Hc H]. apply andb_true_iff in H as [Hd He].
    assert (H1 : History.hexRun 8 (a ++ 45 :: b ++ 45 :: c ++ 45 :: d ++ 45 :: e)
                 = Some (45 :: b ++ 45 :: c ++ 45 :: d ++ 45 :: e))
      by (apply hexRun_spec; now exists a).
    rewrite H1.
    assert (H2 : History.dashThen 4 (Some (45 :: b ++ 45 :: c ++ 45 :: d ++ 45 :: e))
                 = Some (45 :: c ++ 45 :: d ++ 45 :: e))
      by (apply dashThen_spec; now exists b).
    rewrite H2.
    assert (H3 : History.dashThen 4 (Some (45 :: c ++ 45 :: d ++ 45 :: e))
                 = Some (45 :: d ++ 45 :: e))
      by (apply dashThen_spec; now exists c).
    rewrite H3.
    assert (H4 : History.dashThen 4 (Some (45 :: d ++ 45 :: e)) = Some (45 :: e))
      by (apply dashThen_spec; now exists d).
    rewrite H4.
    assert (H5 : History.dashThen 12 (Some (45 :: e)) = Some [])
      by (apply dashThen_spec; exists e; now rewrite app_nil_r).
    now rewrite H5.
Qed.

Lemma hexDigit_lowerUnit (c : N) :
  Terms.hexDigit (JsStr.lowerUnit c) = Terms.hexDigit c.
Proof.
  unfold Terms.hexDigit, JsStr.lowerUnit.
  destruct ((65 <=? c) && (c <=? 90)) eqn:E; [|reflexivity].
  apply andb_true_iff in E as [E1 E2]. apply N.leb_le in E1, E2.
  repeat match goal with
         | |- context [?a <=? ?b] => destruct (N.leb_spec a b)
         end; cbn; try reflexivity; lia.
Qed.

Lemma hexDigits_toLowerCase (s : JsStr.t) :
  forallb Terms.hexDigit (JsStr.toLowerCase s) = forallb Terms.hexDigit s.
Proof.
  induction s as [|c s IH]; [reflexivity|].
  cbn [JsStr.toLowerCase map forallb]. rewrite hexDigit_lowerUnit. f_equal. exact IH.
Qed.

Lemma toLowerCase_shape (id : JsStr.t) :
  (exists a b c d e,
     id = a ++ 45 :: b ++ 45 :: c ++ 45 :: d ++ 45 :: e
     /\ List.length a = 8%nat /\ List.length b = 4%nat
     /\ List.length c = 4%nat /\ List.length d = 4%nat
     /\ List.length e = 12%nat
     /\ forallb Terms.hexDigit (a ++ b ++ c ++ d ++ e) = true) ->
  History.uuidRegexTest (JsStr.toLowerCase id) = true.
Proof.
  intros (a & b & c & d & e & -> & La & Lb & Lc & Ld & Le & H).
  apply uuidRegexTest_shape.
  exists (JsStr.toLowerCase a), (JsStr.toLowerCase b), (JsStr.toLowerCase c),
    (JsStr.toLowerCase d), (JsStr.toLowerCase e).
  unfold JsStr.toLowerCase. rewrite !length_map, <- !map_app.
  repeat split; try assumption.
  - rewrite !map_app. cbn [map]. rewrite !map_app. cbn [map].
    rewrite !map_app. cbn [map]. rewrite !map_app. reflexivity.
  - fold (JsStr.toLowerCase (a ++ b ++ c ++ d ++ e)).
    now rewrite hexDigits_toLowerCase.
Qed.

(** X24: the ids that [deleteHistory] lets through are exactly the texts of
    five groups of 8, 4, 4, 4 and 12 hexadecimal digits, of either case,
    with one hyphen between two groups and nothing before or after;
    lower-casing such an id gives such an id. *)
Theorem uuidRegexTest_spec (id : JsStr.t) :
  (History.uuidRegexTest id = true
   <-> exists a b c d e,
         id = a ++ 45 :: b ++ 45 :: c ++ 45 :: d ++ 45 :: e
         /\ List.length a = 8%nat /\ List.length b = 4%nat
         /\ List.length c = 4%nat /\ List.length d = 4%nat
         /\ List.length e = 12%nat
         /\ forallb Terms.hexDigit (a ++ b ++ c ++ d ++ e) = true)
  /\ (History.uuidRegexTest id = true ->
      History.uuidRegexTest (JsStr.toLowerCase id) = true).
Proof.
  split; [apply uuidRegexTest_shape|].
  intros H. now apply toLowerCase_shape, uuidRegexTest_shape.
Qed.

(** ** The upload form and the start of the server *)

(** X25: the upload form and the upload middleware agree: [validateFile]
    lets a file through exactly when the middleware admits it, reports the
    format exactly when the filter rejects the type, and reports the size
    exactly when the middleware raises [LIMIT_FILE_SIZE]. *)
Theorem validateFile_agrees_with_upload (file : File) :
  (Frontend.validateFile file = None <-> Props.admitted file)
  /\ (Frontend.validateFile file
      = Some (JsStr.lit "Format tidak didukung. Gunakan JPEG, PNG, atau WebP.")
      <-> App.fileFilter file = false)
  /\ (Frontend.validateFile file = Some (JsStr.lit "Ukuran file melebihi 10MB.")
      <-> App.upload (Some file) = inr App.LIMIT_FILE_SIZE).
Proof.
  unfold Frontend.validateFile, Props.admitted, App.upload, App.fileFilter.
  change Frontend.ALLOWED_TYPES with App.allowedTypes.
  change Frontend.MAX_SIZE with App.fileSizeLimit.
  destruct (existsb (JsStr.eqb (mimetype file)) App.allowedTypes); cbn [negb].
  - destruct (App.fileSizeLimit <? size file); repeat split; intros H;
      try discriminate; try reflexivity.
  - repeat split; intros H; try discriminate; try reflexivity.
Qed.

Ltac boot_run :=
  cbv beta iota delta [Startup.initDatabase Startup.startServer Startup.connect
                       Startup.clientQuery Startup.andThen Startup.tryFinally
                       Startup.orCatch Startup.orFail Startup.did Startup.fail
                       fst snd].

(** X26: [initDatabase] gives the client back on every path: when the pool
    hands out a client it is released exactly once, after the last
    statement, whether the statements fail or not; the index is not made
    when the table could not be; with no pool, or when connecting fails,
    there is nothing to release.  It returns normally exactly when there is
    no pool or all three steps succeed. *)
Theorem initDatabase_releases_the_client (e : ProcessEnv) (db : Startup.Database)
  (t : list Startup.Step) :
  exists steps,
    snd (Startup.initDatabase e db t) = steps ++ t
    /\ filter Terms.isClientStep steps
       = (if Db.pool e then
            match Startup.connectFault db with
            | Some _ => [Startup.Connect]
            | None =>
                Startup.Release
                :: match Startup.ddlFault db Startup.CreateTable with
                   | Some _ => []
                   | None => [Startup.ClientQuery Startup.CreateIndex]
                   end
                ++ [Startup.ClientQuery Startup.CreateTable; Startup.Connect]
            end
          else [])
    /\ (fst (Startup.initDatabase e db t) = Normal tt
        <-> Db.pool e = false
            \/ (Startup.connectFault db = None
                /\ Startup.ddlFault db Startup.CreateTable = None
                /\ Startup.ddlFault db Startup.CreateIndex = None)).
Proof.
  boot_run.
  destruct (Db.pool e); cbn [negb].
  2:{ eexists [_]. repeat split; intros; tauto. }
  destruct (Startup.connectFault db) as [e0|].
  { eexists [_]. repeat split; [discriminate | intros [H|[H _]]; discriminate]. }
  destruct (Startup.ddlFault db Startup.CreateTable) as [e1|].
  { eexists [_; _; _]. repeat split; [discriminate | intros [H|(_ & H & _)]; discriminate]. }
  destruct (Startup.ddlFault db Startup.CreateIndex) as [e2|].
  { eexists [_; _; _; _]. repeat split; [discriminate | intros [H|(_ & _ & H)]; discriminate]. }
  eexists [_; _; _; _; _]. repeat split; intros; tauto.
Qed.


(** ** The history page *)










(** ** Accounts *)

Lemma toLowerCase_idempotent (s : JsStr.t) :
  JsStr.toLowerCase (JsStr.toLowerCase s) = JsStr.toLowerCase s.
Proof.
  unfold JsStr.toLowerCase. rewrite map_map. apply map_ext. intros c.
  unfold JsStr.lowerUnit.
  destruct ((65 <=? c) && (c <=? 90)) eqn:E; [|now rewrite E].
  apply andb_true_iff in E as [E1 E2]. apply N.leb_le in E1, E2.
  destruct (N.leb_spec 65 (c + 32)), (N.leb_spec (c + 32) 90);
    cbn [andb]; try reflexivity; lia.
Qed.

Lemma find_snoc {A} (f : A -> bool) (l : list A) (x : A) :
  find f l = None -> find f (l ++ [x]) = if f x then Some x else None.
Proof.
  induction l as [|y l IH]; [reflexivity|].
  cbn [find app]. destruct (f y); [discriminate | exact IH].
Qed.

Lemma find_ext' {A} (f g : A -> bool) (l : list A) :
  (forall x, f x = g x) -> find f l = find g l.
Proof.
  intros H. induction l as [|y l IH]; [reflexivity|].
  cbn [find]. now rewrite H, IH.
Qed.

Lemma NoDup_snoc {A} (l : list A) (x : A) :
  NoDup l -> ~ In x l -> NoDup (l ++ [x]).
Proof.
  induction l as [|y l IH]; intros Hnd Hx.
  - repeat constructor. intros [].
  - inversion Hnd as [|? ? Hy Hl]; subst. cbn [app]. constructor.
    + rewrite in_app_iff. intros [H|[H|[]]]; [contradiction|].
      apply Hx. now left.
    + apply IH; [assumption|]. intros H. apply Hx. now right.
Qed.

(** What a successful registration did. *)
Lemma register_succeeded (b : Auth.Browser) (now name email password : JsStr.t)
  (s s' : Auth.Store) :
  Auth.register b now name email password s = (Normal Auth.succeeded, s') ->
  find (Auth.sameEmail b email) (Auth.vegierecog_users s) = None
  /\ (6 <= List.length password)%nat
  /\ exists avatar,
       let newUser := Auth.mkStoredUser now name (Auth.toLowerCase b email)
                        password avatar in
       s' = Auth.mkStore (Auth.vegierecog_users s ++ [newUser])
              (Some (Auth.userWithoutPassword newUser)).
Proof.
  unfold Auth.register.
  destruct (find (Auth.sameEmail b email) (Auth.vegierecog_users s));
    [discriminate|].
  destruct (Nat.ltb_spec (List.length password) 6) as [|Hlen]; [discriminate|].
  destruct (Auth.encodeURIComponent b name) as [encoded|]; [|discriminate].
  intros E. injection E as <-. split; [reflexivity|]. split; [assumption|].
  now eexists.
Qed.

(** X29: an account that has just been registered can log in.  After a
    registration that succeeded the user is logged in; after the logout,
    the login with the password and with the e-mail address in any letter
    case succeeds and brings the same user back, and the login with any
    other password is refused and leaves the user logged out.  The
    browser's [toLowerCase] is taken to be idempotent. *)
Theorem register_then_login (b : Auth.Browser) (now name email password : JsStr.t)
  (s s' : Auth.Store) :
  (forall x, Auth.toLowerCase b (Auth.toLowerCase b x) = Auth.toLowerCase b x) ->
  Auth.register b now name email password s = (Normal Auth.succeeded, s') ->
  Auth.isAuthenticated s' = true
  /\ forall email',
       Auth.toLowerCase b email' = Auth.toLowerCase b email ->
       Auth.login b email' password (Auth.logout s') = (Auth.succeeded, s')
       /\ forall wrong,
            wrong <> password ->
            Auth.login b email' wrong (Auth.logout s')
            = (Auth.failed "Password salah", Auth.logout s').
Proof.
  intros Hidem Hreg.
  apply register_succeeded in Hreg as (Hfind & _ & avatar & ->).
  split; [reflexivity|]. intros email' Hemail.
  assert (Hsame : forall u, Auth.sameEmail b email' u = Auth.sameEmail b email u)
    by (intros u; unfold Auth.sameEmail; now rewrite Hemail).
  unfold Auth.login, Auth.logout. cbn [Auth.vegierecog_users].
  rewrite (find_ext' _ _ _ Hsame), (find_snoc _ _ _ Hfind).
  unfold Auth.sameEmail. cbn [Auth.stored_email].
  rewrite Hidem, eqb_refl. cbn [Auth.stored_password].
  split.
  - now rewrite eqb_refl.
  - intros wrong Hwrong.
    destruct (JsStr.eqb password wrong) eqn:E; [|reflexivity].
    apply eqb_eq in E. congruence.
Qed.

Lemma register_then_login_witness :
  Auth.register Auth.ascii (JsStr.lit "1700000000000") (JsStr.lit "Budi")
    (JsStr.lit "Budi@Example.com") (JsStr.lit "rahasia1") Auth.empty
  = (Normal Auth.succeeded,
     Auth.mkStore [Auth.budi] (Some (Auth.userWithoutPassword Auth.budi)))
  /\ Auth.login Auth.ascii (JsStr.lit "BUDI@example.com") (JsStr.lit "rahasia1")
       (Auth.mkStore [Auth.budi] None)
     = (Auth.succeeded,
        Auth.mkStore [Auth.budi] (Some (Auth.userWithoutPassword Auth.budi))).
Proof.
  assert (H : Auth.register Auth.ascii (JsStr.lit "1700000000000")
                (JsStr.lit "Budi") (JsStr.lit "Budi@Example.com")
                (JsStr.lit "rahasia1") Auth.empty
              = (Normal Auth.succeeded,
                 Auth.mkStore [Auth.budi]
                   (Some (Auth.userWithoutPassword Auth.budi))))
    by (vm_compute; reflexivity).
  split; [exact H|].
  destruct (register_then_login Auth.ascii _ _ _ _ _ _ toLowerCase_idempotent H)
    as [_ Hlogin].
  apply (Hlogin (JsStr.lit "BUDI@example.com")). reflexivity.
Defined.

(** X30: [register] keeps the stored e-mail addresses pairwise different
    whatever the letter case; a registration that does not succeed (the
    address is taken, the password has fewer than 6 code units, the name
    cannot be encoded) changes nothing; one that succeeds adds one account
    at the end, with the address lower-cased, and logs it in.  The
    browser's [toLowerCase] is taken to be idempotent. *)
Theorem register_keeps_emails_distinct (b : Auth.Browser)
  (now name email password : JsStr.t) (s : Auth.Store) :
  (forall x, Auth.toLowerCase b (Auth.toLowerCase b x) = Auth.toLowerCase b x) ->
  NoDup (map (fun u => Auth.toLowerCase b (Auth.stored_email u))
           (Auth.vegierecog_users s)) ->
  let after := snd (Auth.register b now name email password s) in
  NoDup (map (fun u => Auth.toLowerCase b (Auth.stored_email u))
           (Auth.vegierecog_users after))
  /\ (fst (Auth.register b now name email password s) <> Normal Auth.succeeded ->
      after = s)
  /\ (fst (Auth.register b now name email password s) = Normal Auth.succeeded ->
      (6 <= List.length password)%nat
      /\ exists u, Auth.vegierecog_users after = Auth.vegierecog_users s ++ [u]
                   /\ Auth.stored_email u = Auth.toLowerCase b email
                   /\ Auth.vegierecog_current_user after
                      = Some (Auth.userWithoutPassword u)).
Proof.
  intros Hidem Hnd after. subst after. unfold Auth.register.
  destruct (find (Auth.sameEmail b email) (Auth.vegierecog_users s)) eqn:Hfind.
  { cbn [fst snd]. split; [assumption|]. split; [reflexivity | discriminate]. }
  destruct (Nat.ltb_spec (List.length password) 6) as [|Hlen].
  { cbn [fst snd]. split; [assumption|]. split; [reflexivity | discriminate]. }
  destruct (Auth.encodeURIComponent b name) as [encoded|].
  2:{ cbn [fst snd]. split; [assumption|]. split; [reflexivity | discriminate]. }
  cbn [fst snd Auth.vegierecog_users Auth.vegierecog_current_user].
  split; [|split; [congruence|]].
  - rewrite map_app. cbn [map Auth.stored_email]. apply NoDup_snoc; [assumption|].
    rewrite Hidem, in_map_iff. intros (u & Hu & Hin).
    apply (find_none _ _ Hfind) in Hin. unfold Auth.sameEmail in Hin.
    rewrite Hu, eqb_refl in Hin. discriminate.
  - intros _. split; [assumption|]. eexists. split; [reflexivity|].
    split; reflexivity.
Qed.

Lemma register_keeps_emails_distinct_witness :
  NoDup (map (fun u => Auth.toLowerCase Auth.ascii (Auth.stored_email u))
           [Auth.budi])
  /\ snd (Auth.register Auth.ascii (JsStr.lit "1700000000001") (JsStr.lit "Budi")
            (JsStr.lit "BUDI@example.com") (JsStr.lit "rahasia2")
            (Auth.mkStore [Auth.budi] None))
     = Auth.mkStore [Auth.budi] None.
Proof.
  assert (H : NoDup (map (fun u => Auth.toLowerCase Auth.ascii (Auth.stored_email u))
                       [Auth.budi]))
    by (repeat constructor; intros []).
  split; [exact H|].
  apply (register_keeps_emails_distinct Auth.ascii (JsStr.lit "1700000000001")
           (JsStr.lit "Budi") (JsStr.lit "BUDI@example.com")
           (JsStr.lit "rahasia2") (Auth.mkStore [Auth.budi] None)
           toLowerCase_idempotent H).
  vm_compute. discriminate.
Defined.
